(** * Incremental project rendering: index cache and output relocation

    A shallow embedding of three TypeScript modules of the repository:

    - [project-index.ts] (stored in [src/core/jupyter/kernels.ts]):
      [readInputTargetIndex], [inputTargetIndex], [inputTargetIndexFile],
      [indexPath];
    - [project.ts] (stored in [src/command/render/latekmk/latexmk.ts]):
      [renderProject];
    - [project-shared.ts]: [projectConfigFile].

    The Deno runtime ([Deno.statSync], [Deno.renameSync], [Deno.env], ...),
    the std [fs] and [path] helpers and [JSON] are modelled in the modules
    [path], [posix], [JSON], [Tree] and [Deno] below.  The file system of
    a world is a finite map from paths to files and directories: its
    keys stand for absolute paths in normal form, and there are no
    symbolic links.  On such a path a lookup in the map is what the
    operating system answers; a statement that depends on the form of a
    path it is given says so.

    Functions of the repository that the modules import but whose source
    is not available ([renderFiles], [renderFormats], [copyResourceFile],
    the freezer, the project type hooks, ...) are collaborators: they
    are passed in as records of functions and every statement
    quantifies over them. *)

From stdpp Require Import gmap strings list fin_maps.
From Stdlib Require Import ZArith Ascii.

Local Open Scope Z_scope.

(* ================================================================== *)
(** * Strings *)
(* ================================================================== *)

Module Str.

(** [strip pre s] is the rest of [s] after the prefix [pre], when [s]
    starts with [pre]. *)
Fixpoint strip (pre s : string) : option string :=
  match pre with
  | EmptyString => Some s
  | String a pre' =>
      match s with
      | EmptyString => None
      | String b s' => if decide (a = b) then strip pre' s' else None
      end
  end.

(** JavaScript's [s.startsWith(pre)]. *)
Definition startsWith (s pre : string) : bool :=
  match strip pre s with Some _ => true | None => false end.

Definition is_empty (s : string) : bool :=
  match s with EmptyString => true | _ => false end.

End Str.

(* ================================================================== *)
(** * Paths (std [path/mod.ts], POSIX flavour)

    Paths are the strings the code passes around.  The helpers below agree
    with the std library on normalised operands (no [..], no doubled or
    trailing separator, no bare root): that is what [Deno.realPathSync]
    and the project configuration hand to [renderProject]. *)
(* ================================================================== *)

Module path.

Definition is_dot (s : string) : bool :=
  match s with
  | EmptyString => true
  | String "."%char EmptyString => true
  | _ => false
  end.

(** [join(a, b)] for operands in normal form: empty and ["."] operands
    disappear.  The [join] of the std library for any operands is
    [posix.join] below; the two agree on an absolute path and a relative
    path in normal form ([path_join_posix]). *)
Definition join (a b : string) : string :=
  if is_dot b then (if is_dot a then "." else a)
  else if is_dot a then b
  else a +:+ "/" +:+ b.

Definition isAbsolute (p : string) : bool :=
  match p with String "/"%char _ => true | _ => false end.

(** A suffix that starts at a segment boundary. *)
Definition boundary (r : string) : bool :=
  match r with
  | EmptyString => true
  | String "/"%char _ => true
  | _ => false
  end.

(** [rel d p = Some r] when [p] is [d] itself ([r = ""]) or lies in the
    tree rooted at [d] ([r = "/..."]). *)
Definition rel (d p : string) : option string :=
  match Str.strip d p with
  | Some r => if boundary r then Some r else None
  | None => None
  end.

Definition under (d p : string) : bool :=
  match rel d p with Some _ => true | None => false end.

(** Split at the last separator. *)
Fixpoint split_last (s : string) : option (string * string) :=
  match s with
  | EmptyString => None
  | String c s' =>
      match split_last s' with
      | Some (d, b) => Some (String c d, b)
      | None => if decide (c = "/"%char) then Some (EmptyString, s') else None
      end
  end.

Definition dirname (s : string) : string :=
  match split_last s with
  | None => "."
  | Some (EmptyString, _) => "/"
  | Some (d, _) => d
  end.

Fixpoint has_sep (s : string) : bool :=
  match s with
  | EmptyString => false
  | String c s' => if decide (c = "/"%char) then true else has_sep s'
  end.

(** Segments of a path. *)
Fixpoint segments_go (cur : string) (s : string) : list string :=
  match s with
  | EmptyString => [String.rev cur]
  | String c s' =>
      if decide (c = "/"%char) then String.rev cur :: segments_go "" s'
      else segments_go (String c cur) s'
  end.

Definition segments (s : string) : list string :=
  filter (λ x, x ≠ "") (segments_go "" s).

Fixpoint drop_common (a b : list string) : list string * list string :=
  match a, b with
  | x :: a', y :: b' => if decide (x = y) then drop_common a' b' else (a, b)
  | _, _ => (a, b)
  end.

Definition unsegments (l : list string) : string :=
  match l with
  | [] => ""
  | x :: l' => fold_left (λ acc y, acc +:+ "/" +:+ y) l' x
  end.

(** [relative(from, to)]. *)
Definition relative (from to : string) : string :=
  match rel from to with
  | Some EmptyString => ""
  | Some (String _ r) => r
  | None =>
      let '(f, t) := drop_common (segments from) (segments to) in
      unsegments (((λ _, "..") <$> f) ++ t)
  end.

End path.

(* ================================================================== *)
(** * Normal forms of paths (std [path/posix.ts])

    [join] of the std library hands what it has put together to
    [normalize]: empty and [.] segments disappear, and a [..] segment
    takes the segment before it away. *)
(* ================================================================== *)

Module posix.

(** One segment seen by [normalizeString]; [res] holds the segments
    kept so far, the last one first. *)
Definition step (allowAboveRoot : bool) (res : list string) (segment : string)
  : list string :=
  if bool_decide (segment = "") || bool_decide (segment = ".") then res
  else if bool_decide (segment = "..") then
    match res with
    | top :: rest =>
        if bool_decide (top = "..")
        then (if allowAboveRoot then ".." :: res else res)
        else rest
    | [] => if allowAboveRoot then [".."] else []
    end
  else segment :: res.

Definition normalizeString (p : string) (allowAboveRoot : bool) : string :=
  path.unsegments
    (rev (fold_left (step allowAboveRoot) (path.segments_go "" p) [])).

Fixpoint trailingSeparator (p : string) : bool :=
  match p with
  | EmptyString => false
  | String c EmptyString => bool_decide (c = "/"%char)
  | String _ rest => trailingSeparator rest
  end.

Definition normalize (p : string) : string :=
  if Str.is_empty p then "."
  else
    let isAbsolute := path.isAbsolute p in
    let s := normalizeString p (negb isAbsolute) in
    let s := if Str.is_empty s && negb isAbsolute then "." else s in
    let s := if negb (Str.is_empty s) && trailingSeparator p
             then s +:+ "/" else s in
    if isAbsolute then "/" +:+ s else s.

(** [join(...paths)] *)
Definition join (paths : list string) : string :=
  match filter (λ p, p ≠ "") paths with
  | [] => "."
  | joined => normalize (path.unsegments joined)
  end.

(** A relative path in normal form: segments separated by single
    separators, none of them empty, [.] or [..]. *)
Definition tidy (p : string) : bool :=
  forallb (λ s, negb (bool_decide (s = "")) && negb (bool_decide (s = "."))
                && negb (bool_decide (s = "..")))
          (path.segments_go "" p).

(** An absolute path in normal form, other than the root. *)
Definition tidy_abs (p : string) : bool :=
  match p with
  | String "/"%char rest => tidy rest
  | _ => false
  end.

End posix.

(* ================================================================== *)
(** * JavaScript values and JSON *)
(* ================================================================== *)

Module JSON.

(** The values [JSON.parse] produces.  An object keeps its properties in
    insertion order. *)
#[warnings="-register-all"] Inductive Value :=
| Null
| Bool (b : bool)
| Num (z : Z)
| Text (s : string)
| Arr (items : list Value)
| Obj (props : list (string * Value)).

(** JavaScript truthiness. *)
Definition truthy (v : Value) : bool :=
  match v with
  | Null => false
  | Bool b => b
  | Num z => negb (z =? 0)
  | Text s => negb (Str.is_empty s)
  | Arr _ | Obj _ => true
  end.

Fixpoint assoc (k : string) (props : list (string * Value)) : option Value :=
  match props with
  | [] => None
  | (k', v) :: rest => if decide (k' = k) then Some v else assoc k rest
  end.

(** [v?.[k]]: [None] is [undefined]. *)
Definition get (k : string) (v : Value) : option Value :=
  match v with
  | Obj props => assoc k props
  | _ => None
  end.

(** [Object.values(v)]. *)
Definition values (v : Value) : list Value :=
  match v with
  | Obj props => props.*2
  | Arr items => items
  | _ => []
  end.

(** The text of a file, seen through [JSON.parse]: either it is the
    serialisation of a value, or [JSON.parse] throws a [SyntaxError]
    on it. *)
Inductive Source :=
| Serialized (v : Value)
| Malformed (raw : string).

Definition stringify (v : Value) : Source := Serialized v.

Definition parse (t : Source) : option Value :=
  match t with
  | Serialized v => Some v
  | Malformed _ => None
  end.

End JSON.

(** [o?.[k]] on a value that may be [undefined]. *)
Definition prop (k : string) (o : option JSON.Value) : option JSON.Value :=
  match o with Some v => JSON.get k v | None => None end.

(** Truthiness of an optional value ([undefined] is falsy). *)
Definition truthy_opt (o : option JSON.Value) : bool :=
  match o with Some v => JSON.truthy v | None => false end.

(** A truthy string: defined and not empty. *)
Definition truthy_str (o : option string) : option string :=
  match o with
  | Some s => if Str.is_empty s then None else Some s
  | None => None
  end.

Definition truthy_bool (o : option bool) : bool :=
  match o with Some b => b | None => false end.

(* ================================================================== *)
(** * Data model of the render pipeline *)
(* ================================================================== *)

(** Errors that travel as JavaScript exceptions. *)
Inductive Error :=
| NotFound (p : string)
| AlreadyExists (p : string)
| NotADirectory (p : string)
| IsADirectory (p : string)
| NotEmpty (p : string)
| InvalidArgument (p : string)
| SyntaxError
| TypeError (what : string)
| JsError (msg : string).

(** [RenderFlags] and [RenderOptions] ([render.ts], [flags.ts]); only the
    members [renderProject] and its callers set are named. *)
Record RenderFlags := mkRenderFlags {
  executeDir : option string;
  executeDaemon : option Z;
  flags_to : option string;
  flags_quiet : option bool;
}.

Record RenderOptions := mkRenderOptions {
  useFreezer : option bool;
  flags : option RenderFlags;
  devServerReload : option bool;
}.

(** [ProjectContext] ([project-context.ts]). *)
Record ProjectSettings := mkProjectSettings {
  kProjectType : option string;
  kProjectOutputDir : option string;
  kProjectLibDir : option string;
  kProjectExecuteDir : option string;
}.

Record ProjectConfig := mkProjectConfig {
  project : ProjectSettings;
}.

Record ProjectFiles := mkProjectFiles {
  files_input : list string;
  files_resources : option (list string);
}.

Record ProjectContext := mkProjectContext {
  dir : string;
  engines : list string;
  context_files : ProjectFiles;
  config : option ProjectConfig;
}.

(** What [renderFiles] reports for one input ([RenderedFile]). *)
Record ResourceFiles := mkResourceFiles {
  globs : list string;
  rfiles : list string;
}.

Record RenderedFile := mkRenderedFile {
  rf_input : string;
  rf_markdown : string;
  rf_format : JSON.Value;
  rf_file : string;
  rf_supporting : option (list string);
  rf_resourceFiles : ResourceFiles;
  rf_selfContained : bool;
}.

Record RenderFilesResult := mkRenderFilesResult {
  frs_files : list RenderedFile;
  frs_error : option Error;
}.

(** One entry of [RenderResult.files]. *)
Record RenderResultFile := mkRenderResultFile {
  input : string;
  markdown : string;
  format : JSON.Value;
  file : string;
  supporting : option (list string);
  resourceFiles : list string;
}.

Record RenderResult := mkRenderResult {
  baseDir : string;
  result_outputDir : option string;
  result_files : list RenderResultFile;
  error : option Error;
}.

(* ================================================================== *)
(** * The world a render runs in *)
(* ================================================================== *)

(** A file-system entry.  [Deno.FileInfo.mtime] is [Date | null]: the
    modification time in milliseconds, or [None] where the platform does
    not report one. *)
Inductive Node :=
| File (mtime : option Z) (data : JSON.Source)
| Dir (mtime : option Z).

Abbreviation FS := (gmap string Node).
Abbreviation Env := (gmap string string).

(** What the outside world can observe of a run: warnings written to the
    log and the calls made to collaborators, oldest first.  A call to the
    renderer or to a project-type hook also records the value of
    [QUARTO_PROJECT_DIR] it could read. *)
Inductive Event :=
| Warning (msg : string)
| CalledRenderFormats (inputFile : string)
| CalledPartitionedMarkdown (inputFile : string)
| CalledIncrementalRenderAll (files : list string)
| CalledEnsureGitignore
| CalledPreRender (projectDirEnv : option string)
| CalledRenderFiles (files : list string) (options : RenderOptions)
    (alwaysExecuteFiles : option (list string)) (projectDirEnv : option string)
| CalledResolvePathGlobs (root : string) (globs : list string)
| CalledCopyToProjectFreezer (libDir : string) (hidden incremental : bool)
| CalledPruneProjectFreezerDir (libDir : string) (hidden : bool)
| CalledPruneProjectFreezer (hidden : bool)
| CalledCopyResourceFile (rootDir srcFile destFile : string)
| CalledPostRender (incremental : bool) (outputFiles : list string)
    (projectDirEnv : option string).

Record World := mkWorld {
  fs : FS;
  env : Env;
  cwd : string;
  (** the time stamp the platform gives to an entry written now *)
  clock : option Z;
  trace : list Event;
}.

Definition set_fs (f : FS → FS) (w : World) : World :=
  mkWorld (f (fs w)) (env w) (cwd w) (clock w) (trace w).

Definition set_env (f : Env → Env) (w : World) : World :=
  mkWorld (fs w) (f (env w)) (cwd w) (clock w) (trace w).

Definition add_event (e : Event) (w : World) : World :=
  mkWorld (fs w) (env w) (cwd w) (clock w) (trace w ++ [e]).

(** ** Computations that may throw *)

Inductive Outcome (A : Type) :=
| Ok (a : A) (w : World)
| Throw (e : Error) (w : World).
Arguments Ok {A} a w.
Arguments Throw {A} e w.

Definition M (A : Type) : Type := World → Outcome A.

Definition ret {A} (a : A) : M A := λ w, Ok a w.

Definition throw {A} (e : Error) : M A := λ w, Throw e w.

Definition bind {A B} (m : M A) (k : A → M B) : M B :=
  λ w, match m w with
       | Ok a w' => k a w'
       | Throw e w' => Throw e w'
       end.

#[global] Instance M_ret : MRet M := @ret.
#[global] Instance M_bind : MBind M := λ A B k m, bind m k.
#[global] Instance M_fmap : FMap M := λ A B f m, bind m (λ a, ret (f a)).

(** [try { body } catch { handler }] *)
Definition try_catch {A} (body : M A) (handler : Error → M A) : M A :=
  λ w, match body w with
       | Ok a w' => Ok a w'
       | Throw e w' => handler e w'
       end.

(** [try { body } finally { cleanup }], for a [cleanup] that cannot
    throw. *)
Definition try_finally {A} (body : M A) (cleanup : World → World) : M A :=
  λ w, match body w with
       | Ok a w' => Ok a (cleanup w')
       | Throw e w' => Throw e (cleanup w')
       end.

Definition final {A} (o : Outcome A) : World :=
  match o with Ok _ w => w | Throw _ w => w end.

Definition returned {A} (o : Outcome A) : option A :=
  match o with Ok a _ => Some a | Throw _ _ => None end.

Definition thrown {A} (o : Outcome A) : option Error :=
  match o with Ok _ _ => None | Throw e _ => Some e end.

(** [for (const x of l) body(x)] and [l.map(f)] with effects. *)
Fixpoint forEach {A} (body : A → M unit) (l : list A) : M unit :=
  match l with
  | [] => ret tt
  | x :: l' => bind (body x) (λ _, forEach body l')
  end.

Fixpoint mapM {A B} (f : A → M B) (l : list A) : M (list B) :=
  match l with
  | [] => ret []
  | x :: l' => bind (f x) (λ y, bind (mapM f l') (λ ys, ret (y :: ys)))
  end.

Fixpoint foldM {A S} (body : S → A → M S) (s : S) (l : list A) : M S :=
  match l with
  | [] => ret s
  | x :: l' => bind (body s x) (λ s', foldM body s' l')
  end.

Definition log (e : Event) : M unit := λ w, Ok tt (add_event e w).

(** [warning(msg)] of [log/mod.ts]. *)
Definition warning (msg : string) : M unit := log (Warning msg).

(* ================================================================== *)
(** * File-system trees *)
(* ================================================================== *)

Module Tree.

(** Everything at or below [d] disappears. *)
Definition remove (d : string) (m : FS) : FS :=
  filter (λ kv, path.under d kv.1 = false) m.

(** The entries at or below [src], re-rooted at [dst]. *)
Definition rebase (stamp : Node → Node) (src dst : string) (m : FS) : FS :=
  map_fold
    (λ k n acc,
       match path.rel src k with
       | Some r => <[dst +:+ r := stamp n]> acc
       | None => acc
       end) ∅ m.

Definition touch (t : option Z) (n : Node) : Node :=
  match n with
  | File _ data => File t data
  | Dir _ => Dir t
  end.

Definition is_file (o : option Node) : bool :=
  match o with Some (File _ _) => true | _ => false end.

Definition is_dir (o : option Node) : bool :=
  match o with Some (Dir _) => true | _ => false end.

(** Does [d] have an entry strictly below it? *)
Definition has_children (d : string) (m : FS) : bool :=
  match map_to_list (filter (λ kv, path.under d kv.1 = true ∧ kv.1 ≠ d) m) with
  | [] => false
  | _ => true
  end.

(** [d] and its ancestors, nearest first. *)
Fixpoint parents (fuel : nat) (d : string) : list string :=
  match fuel with
  | O => []
  | S n =>
      d :: match path.split_last d with
           | Some (p, _) => if Str.is_empty p then [] else parents n p
           | None => []
           end
  end.

Definition mkdirs (t : option Z) (l : list string) (m : FS) : FS :=
  foldr (λ k acc, match acc !! k with
                  | None => <[k := Dir t]> acc
                  | Some _ => acc
                  end) m l.

End Tree.

(* ================================================================== *)
(** * The Deno runtime and std [fs] *)
(* ================================================================== *)

Module Deno.

Record FileInfo := mkFileInfo {
  mtime : option Z;
  isDirectory : bool;
  isFile : bool;
}.

Definition info (n : Node) : FileInfo :=
  match n with
  | File t _ => mkFileInfo t false true
  | Dir t => mkFileInfo t true false
  end.

Record DirEntry := mkDirEntry {
  name : string;
  entry_isDirectory : bool;
}.

Definition statSync (p : string) : M FileInfo :=
  λ w, match fs w !! p with
       | Some n => Ok (info n) w
       | None => Throw (NotFound p) w
       end.

(** Without symbolic links an absolute path in normal form that exists
    is its own real path. *)
Definition realPathSync (p : string) : M string :=
  λ w, match fs w !! p with
       | Some _ => Ok p w
       | None => Throw (NotFound p) w
       end.

Definition readTextFileSync (p : string) : M JSON.Source :=
  λ w, match fs w !! p with
       | Some (File _ data) => Ok data w
       | Some (Dir _) => Throw (IsADirectory p) w
       | None => Throw (NotFound p) w
       end.

(** The directory a cache file is written to is created by
    [projectScratchPath] when the path is computed, so the write does
    not look at the parent. *)
Definition writeTextFileSync (p : string) (data : JSON.Source) : M unit :=
  λ w, match fs w !! p with
       | Some (Dir _) => Throw (IsADirectory p) w
       | _ => Ok tt (set_fs (insert p (File (clock w) data)) w)
       end.

(** [Deno.removeSync(p, { recursive: true })] *)
Definition removeSync (p : string) : M unit :=
  λ w, match fs w !! p with
       | Some _ => Ok tt (set_fs (Tree.remove p) w)
       | None => Throw (NotFound p) w
       end.

Definition renamed (src dst : string) (m : FS) : FS :=
  Tree.rebase id src dst m ∪ Tree.remove dst (Tree.remove src m).

(** [rename(2)]: a file replaces a file, a directory replaces an empty
    directory, nothing moves into its own subtree. *)
Definition renameSync (src dst : string) : M unit :=
  λ w, match fs w !! src with
       | None => Throw (NotFound src) w
       | Some n =>
           if decide (src = dst) then Ok tt w
           else if path.under src dst then Throw (InvalidArgument dst) w
           else
             match n, fs w !! dst with
             | File _ _, Some (Dir _) => Throw (IsADirectory dst) w
             | Dir _, Some (File _ _) => Throw (NotADirectory dst) w
             | Dir _, Some (Dir _) =>
                 if Tree.has_children dst (fs w) then Throw (NotEmpty dst) w
                 else Ok tt (set_fs (renamed src dst) w)
             | _, _ => Ok tt (set_fs (renamed src dst) w)
             end
       end.

(** The name of a directory entry: one segment, and neither ["."] nor
    [".."], which [readDirSync] does not list. *)
Definition is_name (nm : string) : bool :=
  negb (path.is_dot nm) && negb (bool_decide (nm = ".."))
  && negb (path.has_sep nm).

Definition child (d : string) (kn : string * Node) : option DirEntry :=
  match path.rel d kn.1 with
  | Some (String "/"%char nm) =>
      if is_name nm then Some (mkDirEntry nm (Tree.is_dir (Some kn.2)))
      else None
  | _ => None
  end.

Definition readDirSync (d : string) : M (list DirEntry) :=
  λ w, match fs w !! d with
       | Some (Dir _) => Ok (omap (child d) (map_to_list (fs w))) w
       | Some (File _ _) => Throw (NotADirectory d) w
       | None => Throw (NotFound d) w
       end.

Definition env_set (k v : string) : M unit :=
  λ w, Ok tt (set_env (insert k v) w).

Definition env_delete (k : string) (w : World) : World :=
  set_env (delete k) w.

Definition env_get (k : string) : M (option string) :=
  λ w, Ok (env w !! k) w.

Definition cwd : M string := λ w, Ok (cwd w) w.

End Deno.

(** [existsSync] of [fs/mod.ts]. *)
Definition existsSync (p : string) : M bool :=
  λ w, Ok (bool_decide (is_Some (fs w !! p))) w.

(** [ensureDirSync]: creates the directory and its missing ancestors; a
    file in the way is an error. *)
Definition ensureDirSync (d : string) : M unit :=
  λ w, let ps := Tree.parents (S (String.length d)) d in
       if existsb (λ k, Tree.is_file (fs w !! k)) ps
       then Throw (NotADirectory d) w
       else Ok tt (set_fs (Tree.mkdirs (clock w) ps) w).

Definition copied (t : option Z) (src dst : string) (m : FS) : FS :=
  Tree.rebase (Tree.touch t) src dst m ∪ m.

(** [copySync(src, dest)] without [overwrite]: the destination must not
    exist and must not lie inside the source. *)
Definition copySync (src dst : string) : M unit :=
  λ w, match fs w !! src with
       | None => Throw (NotFound src) w
       | Some _ =>
           if path.under src dst
           then Throw (JsError "Cannot copy to a subdirectory of itself") w
           else match fs w !! dst with
                | Some _ => Throw (AlreadyExists dst) w
                | None => Ok tt (set_fs (copied (clock w) src dst) w)
                end
       end.

(* ================================================================== *)
(** * [project-shared.ts] *)
(* ================================================================== *)

(** [candidates.find(existsSync)] *)
Fixpoint find_existing (l : list string) : M (option string) :=
  match l with
  | [] => ret None
  | p :: l' =>
      ex ← existsSync p;
      if ex : bool then ret (Some p) else find_existing l'
  end.

Definition projectConfigFile (dir : string) : M (option string) :=
  find_existing ((λ file, path.join dir file) <$> ["_quarto.yml"; "_quarto.yaml"]).

(* ================================================================== *)
(** * [project-index.ts] *)
(* ================================================================== *)

(** A collaborator that only reads the file system. *)
Definition Reader (A : Type) : Type := FS → Error + A.

Definition read {A} (e : Event) (r : Reader A) : M A :=
  λ w, match r (fs w) with
       | inr a => Ok a (add_event e w)
       | inl err => Throw err (add_event e w)
       end.

(** [ExecutionEngine] ([execute/engine.ts]), as far as the index uses
    it. *)
Record ExecutionEngine := mkExecutionEngine {
  engine_name : string;
  partitionedMarkdown : string → Reader JSON.Value;
}.

(** What [project-index.ts] imports and the repository does not show:
    the engine registry, format resolution, the scratch directory and
    the metadata key of the title. *)
Record IndexCollaborators := mkIndexCollaborators {
  fileExecutionEngine : string → option ExecutionEngine;
  renderFormats : string → string → ProjectContext → Reader (list (string * JSON.Value));
  projectScratchPath : string → string → string;
  kTitle : string;
}.

(** [projConfigFile ? Deno.statSync(projConfigFile).mtime : 0] is a
    [Date], [null] or the number [0]. *)
Inductive ProjMod :=
| NoConfig
| ConfigMod (mtime : option Z).

(** [!projMod]: the number [0] and [null] are falsy, a [Date] is not. *)
Definition projMod_falsy (m : ProjMod) : bool :=
  match m with
  | NoConfig => true
  | ConfigMod None => true
  | ConfigMod (Some _) => false
  end.

(** [a >= b] on modification times; [null] counts as [0]. *)
Definition date_ge (a b : option Z) : bool :=
  default 0 b <=? default 0 a.

Definition projMod_value (m : ProjMod) : option Z :=
  match m with
  | NoConfig => Some 0
  | ConfigMod t => t
  end.

Definition date_truthy (d : option Z) : bool :=
  match d with Some _ => true | None => false end.

Section ProjectIndex.

Context (C : IndexCollaborators).

Definition indexPath (projectDir path : string) : string :=
  projectScratchPath C projectDir (path.join "index" path).

Definition inputTargetIndexFile (projectDir input : string) : string :=
  indexPath projectDir (input +:+ ".json").

(** reads an existing input target index file *)
Definition readInputTargetIndex (projectDir input : string)
  : M (option JSON.Value) :=
  let inputFile := path.join projectDir input in
  let indexFile := inputTargetIndexFile projectDir input in
  ex ← existsSync indexFile;
  if ex : bool then
    inputMod ← Deno.mtime <$> Deno.statSync inputFile;
    indexMod ← Deno.mtime <$> Deno.statSync indexFile;
    projConfigFile ← projectConfigFile projectDir;
    projMod ← match projConfigFile with
              | Some f => ConfigMod <$> (Deno.mtime <$> Deno.statSync f)
              | None => ret NoConfig
              end;
    if date_truthy inputMod && date_truthy indexMod
       && date_ge indexMod inputMod
       && (projMod_falsy projMod || date_ge indexMod (projMod_value projMod))
    then
      try_catch
        (text ← Deno.readTextFileSync indexFile;
         match JSON.parse text with
         | Some v => ret (Some v)
         | None => throw SyntaxError
         end)
        (λ _, ret None)
    else ret None
  else ret None.

(** The regeneration path of [inputTargetIndex]: read the metadata and
    index it. *)
Definition indexInput (project : ProjectContext) (input inputFile : string)
    (engine : ExecutionEngine) : M (option JSON.Value) :=
  formats ← read (CalledRenderFormats inputFile)
                 (renderFormats C inputFile "all" project);
  let firstFormat := head (formats.*2) in
  let title :=
    if truthy_opt firstFormat
    then prop (kTitle C) (prop "metadata" firstFormat)
    else None in
  markdown ← read (CalledPartitionedMarkdown inputFile)
                  (partitionedMarkdown engine inputFile);
  (* if there is no title then try to extract it from a header *)
  let title :=
    if negb (truthy_opt title) then JSON.get "headingText" markdown
    else title in
  let index :=
    JSON.Obj (match title with Some t => [("title", t)] | None => [] end
              ++ [("markdown", markdown); ("formats", JSON.Obj formats)]) in
  let indexFile := inputTargetIndexFile (dir project) input in
  Deno.writeTextFileSync indexFile (JSON.stringify index);;
  ret (Some index).

Definition inputTargetIndex (project : ProjectContext) (input : string)
  : M (option JSON.Value) :=
  (* calculate input file *)
  let inputFile := path.join (dir project) input in
  (* return undefined if the file doesn't exist *)
  ex ← existsSync inputFile;
  isDir ← (if ex : bool then Deno.isDirectory <$> Deno.statSync inputFile
           else ret false);
  if negb ex || isDir then ret None
  else
    (* check if this can be handled by one of our engines *)
    match fileExecutionEngine C inputFile with
    | None => ret None
    | Some engine =>
        (* see if we have an up to date index file *)
        targetIndex ← readInputTargetIndex (dir project) input;
        if truthy_opt targetIndex then ret targetIndex
        else indexInput project input inputFile engine
    end.

End ProjectIndex.

(* ================================================================== *)
(** * [project.ts] *)
(* ================================================================== *)

(** A collaborator that may read the environment, change the file system
    and throw. *)
Definition Collab (A : Type) : Type := Env → FS → (Error + A) * FS.

Definition call {A} (e : Event) (c : Collab A) : M A :=
  λ w, match c (env w) (fs w) with
       | (inr a, m) => Ok a (set_fs (λ _, m) (add_event e w))
       | (inl err, m) => Throw err (set_fs (λ _, m) (add_event e w))
       end.

Definition kQuartoProjectDir : string := "QUARTO_PROJECT_DIR".

(** A call whose event records the [QUARTO_PROJECT_DIR] in force. *)
Definition call_env {A} (e : option string → Event) (c : Collab A) : M A :=
  λ w, call (e (env w !! kQuartoProjectDir)) c w.

(** The [PandocRenderer] a project type may supply is handed on to
    [renderFiles] untouched. *)
Record PandocRenderer := mkPandocRenderer {
  renderer_name : string;
}.

(** [ProjectType] ([project/types/project-type.ts]): every hook is
    optional. *)
Record ProjectType := mkProjectType {
  incrementalRenderAll :
    option (ProjectContext → RenderOptions → list string → Collab bool);
  preRender : option (ProjectContext → Collab unit);
  postRender :
    option (ProjectContext → bool → list (string * JSON.Value) → Collab unit);
  pandocRenderer : option (RenderOptions → ProjectContext → PandocRenderer);
  formatLibDirs : option (list string);
}.

(** What [project.ts] imports and the repository does not show. *)
Record RenderCollaborators := mkRenderCollaborators {
  projectType : option string → ProjectType;
  ensureGitignore : ProjectContext → Collab unit;
  renderFiles :
    list string → RenderOptions → option (list string) →
    option PandocRenderer → ProjectContext → Collab RenderFilesResult;
  resolvePathGlobs :
    string → list string → list string → Collab (list string * list string);
  copyResourceFile : string → string → string → Collab unit;
  copyToProjectFreezer : ProjectContext → string → bool → bool → Collab unit;
  pruneProjectFreezerDir :
    ProjectContext → string → list string → bool → Collab unit;
  pruneProjectFreezer : ProjectContext → bool → Collab unit;
  kProjectFreezeDir : string;
  kKeepMd : string;
}.

(** [context.config?.project?.[key]] *)
Definition project_setting (key : ProjectSettings → option string)
    (context : ProjectContext) : option string :=
  match config context with
  | Some c => key (project c)
  | None => None
  end.

(** [l.filter(p)] for a predicate with effects. *)
Fixpoint filterM {A} (p : A → M bool) (l : list A) : M (list A) :=
  match l with
  | [] => ret []
  | x :: l' =>
      b ← p x;
      rest ← filterM p l';
      ret (if b : bool then x :: rest else rest)
  end.

(** [ld.uniq]: the first occurrence of each element stays. *)
Fixpoint uniq_from (seen l : list string) : list string :=
  match l with
  | [] => []
  | x :: l' =>
      if bool_decide (x ∈ seen) then uniq_from seen l'
      else x :: uniq_from (x :: seen) l'
  end.

Definition uniq (l : list string) : list string := uniq_from [] l.

Definition set_useFreezer (b : bool) (options : RenderOptions) : RenderOptions :=
  mkRenderOptions (Some b) (flags options) (devServerReload options).

Definition set_flags (f : RenderFlags) (options : RenderOptions) : RenderOptions :=
  mkRenderOptions (useFreezer options) (Some f) (devServerReload options).

Definition set_resourceFiles (l : list string) (f : RenderResultFile)
  : RenderResultFile :=
  mkRenderResultFile (input f) (markdown f) (format f) (file f) (supporting f) l.

Section Project.

Context (C : RenderCollaborators).

(** is this an incremental render? *)
Definition incremental (files : option (list string)) : bool :=
  match files with Some _ => true | None => false end.

(** force execution for any incremental files (unless options.useFreezer
    is set) *)
Definition alwaysExecuteFiles (options : RenderOptions)
    (files : option (list string)) : option (list string) :=
  if incremental files && negb (truthy_bool (useFreezer options))
  then files else None.

(** One step of the normalisation of the files list. *)
Definition normalizeTarget (file : string) : M string :=
  cwd ← Deno.cwd;
  let target := if path.isAbsolute file then file else posix.join [cwd; file] in
  ex ← existsSync target;
  if ex : bool then Deno.realPathSync target
  else throw (JsError ("Render target does not exist: " +:+ file)).

(** move or copy dir *)
Definition relocateDir (projDir outputDirAbsolute : string)
    (dir : string) (copy : bool) : M unit :=
  let targetDir := path.join outputDirAbsolute dir in
  ex ← existsSync targetDir;
  (if ex : bool then Deno.removeSync targetDir else ret tt);;
  let srcDir := path.join projDir dir in
  ex ← existsSync srcDir;
  if ex : bool then
    ensureDirSync (path.dirname targetDir);;
    if copy then copySync srcDir targetDir
    else Deno.renameSync srcDir targetDir
  else ret tt.

Definition moveDir (projDir outputDirAbsolute dir : string) : M unit :=
  relocateDir projDir outputDirAbsolute dir false.

Definition copyDir (projDir outputDirAbsolute dir : string) : M unit :=
  relocateDir projDir outputDirAbsolute dir true.

(** [!!renderedFile.format.execute[kKeepMd]] *)
Definition keepFiles (renderedFile : RenderedFile) : M bool :=
  match JSON.get "execute" (rf_format renderedFile) with
  | None | Some JSON.Null => throw (TypeError "format.execute")
  | Some execute => ret (truthy_opt (JSON.get (kKeepMd C) execute))
  end.

(** the explicitly discovered files (if they exist) *)
Definition resultFiles (resourceDir : string) (declared : list string)
  : M (list string) :=
  existing ← filterM existsSync ((λ file, posix.join [resourceDir; file]) <$> declared);
  mapM Deno.realPathSync existing.

(** apply removes and filter files dir *)
Definition keepResource (projDir : string) (exclude : list string)
    (supporting : option (list string)) (file : string) : bool :=
  if bool_decide (file ∈ exclude) then false
  else if match supporting with
          | Some sup =>
              existsb (λ support, Str.startsWith file (path.join projDir support)) sup
          | None => false
          end
  then false
  else true.

(** move/copy one of the rendered files to the output dir; the state is
    [keepLibsDir] and [projResults.files]. *)
Definition relocateRenderedFile (projDir outputDirAbsolute : string)
    (st : bool * list RenderResultFile) (renderedFile : RenderedFile)
  : M (bool * list RenderResultFile) :=
  let '(keepLibsDir, results) := st in
  (* move the renderedFile to the output dir *)
  let outputFile := path.join outputDirAbsolute (rf_file renderedFile) in
  ensureDirSync (path.dirname outputFile);;
  Deno.renameSync (path.join projDir (rf_file renderedFile)) outputFile;;
  (* files dir *)
  keep ← keepFiles renderedFile;
  let keepLibsDir := keepLibsDir || keep in
  match rf_supporting renderedFile with
  | Some sup =>
      forEach (λ file, if keep then copyDir projDir outputDirAbsolute file
                       else moveDir projDir outputDirAbsolute file) sup
  | None => ret tt
  end;;
  (* resource files *)
  let resourceDir := path.join projDir (path.dirname (rf_file renderedFile)) in
  let globs := globs (rf_resourceFiles renderedFile) in
  fileResourceFiles ←
    (if (0 <? length globs)%nat
     then call (CalledResolvePathGlobs resourceDir globs)
               (resolvePathGlobs C resourceDir globs [])
     else ret ([], []));
  (* add the explicitly discovered files (if they exist and the output
     isn't self-contained) *)
  include ←
    (if negb (rf_selfContained renderedFile)
     then found ← resultFiles resourceDir (rfiles (rf_resourceFiles renderedFile));
          ret (fileResourceFiles.1 ++ found)
     else ret fileResourceFiles.1);
  let resourceFiles :=
    filter (λ file, keepResource projDir fileResourceFiles.2
                      (rf_supporting renderedFile) file = true) include in
  (* render file renderedFile *)
  ret (keepLibsDir,
       results ++ [mkRenderResultFile (rf_input renderedFile)
                     (rf_markdown renderedFile) (rf_format renderedFile)
                     (rf_file renderedFile) (rf_supporting renderedFile)
                     resourceFiles]).

(** lib dir to freezer *)
Definition freezeLibDir (context : ProjectContext) (libDir : string)
    (formatLibDirs : list string) (libsIncremental hidden : bool) : M unit :=
  call (CalledCopyToProjectFreezer libDir hidden libsIncremental)
       (copyToProjectFreezer C context libDir hidden libsIncremental);;
  call (CalledPruneProjectFreezerDir libDir hidden)
       (pruneProjectFreezerDir C context libDir formatLibDirs hidden);;
  call (CalledPruneProjectFreezer hidden) (pruneProjectFreezer C context hidden).

(** move or copy the lib dir: one subdirectory at a time when
    [libsIncremental], the whole directory otherwise. *)
Definition relocateLibDir (projDir outputDirAbsolute : string)
    (libDir libDirFull : string) (libsIncremental keepLibsDir : bool) : M unit :=
  if libsIncremental then
    libs ← Deno.readDirSync libDirFull;
    forEach (λ lib,
               if Deno.entry_isDirectory lib then
                 let srcDir := path.join libDir (Deno.name lib) in
                 if keepLibsDir then copyDir projDir outputDirAbsolute srcDir
                 else moveDir projDir outputDirAbsolute srcDir
               else ret tt) libs;;
    if negb keepLibsDir then Deno.removeSync libDirFull else ret tt
  else
    if keepLibsDir then copyDir projDir outputDirAbsolute libDir
    else moveDir projDir outputDirAbsolute libDir.

(** copy one resource file to the output dir *)
Definition copyResource (context : ProjectContext)
    (projDir outputDirAbsolute : string) (file : string) : M unit :=
  let sourcePath := path.relative projDir file in
  let destPath := posix.join [outputDirAbsolute; sourcePath] in
  ex ← existsSync file;
  if ex : bool then
    st ← Deno.statSync file;
    if Deno.isFile st
    then call (CalledCopyResourceFile (dir context) file destPath)
              (copyResourceFile C (dir context) file destPath)
    else ret tt
  else
    dex ← existsSync destPath;
    if negb dex then warning ("File '" +:+ sourcePath +:+ "' was not found.")
    else ret tt.

(** determine the output files and filter them out of the resourceFiles *)
Definition filterOutputFiles (projDir : string)
    (results : list RenderResultFile) : list RenderResultFile :=
  let outputFiles := (λ result, path.join projDir (file result)) <$> results in
  (λ f, set_resourceFiles
          (filter (λ resource, resource ∉ outputFiles) (resourceFiles f)) f)
    <$> results.

(** The branch of [renderProject] taken when there is an output dir. *)
Definition relocateOutputs (context : ProjectContext) (options : RenderOptions)
    (projType : ProjectType) (projDir outputDirAbsolute : string)
    (libDir : option string) (isIncremental : bool)
    (fileResults : RenderFilesResult) : M (list RenderResultFile) :=
  (* move/copy projResults to output_dir *)
  '(keepLibsDir, results) ←
     foldM (relocateRenderedFile projDir outputDirAbsolute) (false, [])
           (frs_files fileResults);
  (* move or copy the lib dir if we have one *)
  match truthy_str libDir with
  | Some libDir =>
      let libDirFull := path.join (dir context) libDir in
      ex ← existsSync libDirFull;
      if ex : bool then
        let libsIncremental := isIncremental || truthy_bool (useFreezer options) in
        (* determine format lib dirs (for pruning) *)
        let formatLibDirs := default [] (formatLibDirs projType) in
        (* copy to hidden freezer *)
        freezeLibDir context libDir formatLibDirs libsIncremental true;;
        (* if we have a visible freezer then copy to it as well *)
        visible ← existsSync (path.join (dir context) (kProjectFreezeDir C));
        (if visible : bool
         then freezeLibDir context libDir formatLibDirs libsIncremental false
         else ret tt);;
        relocateLibDir projDir outputDirAbsolute libDir libDirFull
                       libsIncremental keepLibsDir
      else ret tt
  | None => ret tt
  end;;
  let results := filterOutputFiles projDir results in
  (* copy all of the resource files *)
  let allResourceFiles :=
    uniq (default [] (files_resources (context_files context))
          ++ mjoin (resourceFiles <$> results)) in
  forEach (copyResource context projDir outputDirAbsolute) allResourceFiles;;
  ret results.

(** What [renderProject] has settled before it publishes
    [QUARTO_PROJECT_DIR]: its local variables at that point. *)
Record Prepared := mkPrepared {
  p_projType : ProjectType;
  p_projDir : string;
  p_incremental : bool;
  p_alwaysExecuteFiles : option (list string);
  p_files : list string;
  p_options : RenderOptions;
  p_outputDir : option string;
  p_outputDirAbsolute : option string;
  p_libDir : option string;
}.

(** [renderProject] up to, and without, [Deno.env.set]. *)
Definition prepare (context : ProjectContext) (options : RenderOptions)
    (files : option (list string)) : M Prepared :=
  (* lookup the project type *)
  let projType := projectType C (project_setting kProjectType context) in
  (* get real path to the project *)
  projDir ← Deno.realPathSync (dir context);
  (* is this an incremental render? *)
  let isIncremental := incremental files in
  (* force execution for any incremental files *)
  let alwaysExecute := alwaysExecuteFiles options files in
  (* if we have alwaysExecuteFiles then we need to normalize the files
     list for comparison *)
  files ← match alwaysExecute, files with
           | Some _, Some l => Some <$> mapM normalizeTarget l
           | _, _ => ret files
           end;
  (* check with the project type to see if we should render all of the
     files in the project with the freezer enabled *)
  '(files, options) ←
     match files, alwaysExecute, incrementalRenderAll projType with
     | Some l, Some _, Some hook =>
         all ← call (CalledIncrementalRenderAll l) (hook context options l);
         if all : bool
         then ret (Some (files_input (context_files context)),
                   set_useFreezer true options)
         else ret (files, options)
     | _, _, _ => ret (files, options)
     end;
  (* default for files if not specified *)
  let files := default (files_input (context_files context)) files in
  let outputDir := project_setting kProjectOutputDir context in
  (* ensure we have the requisite entries in .gitignore *)
  call CalledEnsureGitignore (ensureGitignore C context);;
  (* lookup the project type and call preRender *)
  match preRender projType with
  | Some hook => call_env CalledPreRender (hook context)
  | None => ret tt
  end;;
  (* set execute dir if requested *)
  let options :=
    if bool_decide (flags options ≫= executeDir = None)
       && bool_decide (project_setting kProjectExecuteDir context = Some "project")
    then
      let f := default (mkRenderFlags None None None None) (flags options) in
      set_flags (mkRenderFlags (Some projDir) (executeDaemon f)
                               (flags_to f) (flags_quiet f)) options
    else options in
  (* set executeDaemon to 0 for renders of the entire project or a list
     of more than one file *)
  let options :=
    match flags options with
    | Some f =>
        if (1 <? length files)%nat && bool_decide (executeDaemon f = None)
        then set_flags (mkRenderFlags (executeDir f) (Some 0)
                                      (flags_to f) (flags_quiet f)) options
        else options
    | None => options
    end in
  (* determine the output dir *)
  let outputDirAbsolute :=
    (λ o, path.join projDir o) <$> truthy_str outputDir in
  match outputDirAbsolute with
  | Some d => ensureDirSync d
  | None => ret tt
  end;;
  (* track the lib dir *)
  let libDir := project_setting kProjectLibDir context in
  ret (mkPrepared projType projDir isIncremental alwaysExecute files options
                  outputDir outputDirAbsolute libDir).

(** The body of the [try] block of [renderProject]. *)
Definition renderAndRelocate (context : ProjectContext) (p : Prepared)
  : M RenderResult :=
  (* render the files *)
  fileResults ←
    call_env (CalledRenderFiles (p_files p) (p_options p) (p_alwaysExecuteFiles p))
      (renderFiles C (p_files p) (p_options p) (p_alwaysExecuteFiles p)
         ((λ r, r (p_options p) context) <$> pandocRenderer (p_projType p))
         context);
  results ←
    match p_outputDirAbsolute p with
    | Some outputDirAbsolute =>
        relocateOutputs context (p_options p) (p_projType p) (p_projDir p)
                        outputDirAbsolute (p_libDir p) (p_incremental p)
                        fileResults
    | None =>
        (* track output files *)
        ret ((λ result, mkRenderResultFile (rf_input result) (rf_markdown result)
                          (rf_format result) (rf_file result)
                          (rf_supporting result) [])
             <$> frs_files fileResults)
    end;
  (* forward error to projResults *)
  let projResults :=
    mkRenderResult (p_projDir p) (p_outputDir p) results (frs_error fileResults) in
  (* call post-render *)
  match postRender (p_projType p) with
  | Some hook =>
      let outputs :=
        (λ result,
           let f := match truthy_str (p_outputDir p) with
                    | Some o => path.join o (file result)
                    | None => file result
                    end in
           (path.join (p_projDir p) f, format result)) <$> results in
      call_env (CalledPostRender (p_incremental p) (outputs.*1))
               (hook context (p_incremental p) outputs)
  | None => ret tt
  end;;
  ret projResults.

Definition renderProject (context : ProjectContext) (options : RenderOptions)
    (files : option (list string)) : M RenderResult :=
  p ← prepare context options files;
  (* set QUARTO_PROJECT_DIR *)
  Deno.env_set kQuartoProjectDir (p_projDir p);;
  try_finally (renderAndRelocate context p)
              (Deno.env_delete kQuartoProjectDir).

End Project.

(* ================================================================== *)
(** * Vocabulary of the statements *)
(* ================================================================== *)

(** The modification time of an entry: [None] when there is no entry,
    [Some None] when the platform reports no time for it. *)
Definition mtime_at (m : FS) (p : string) : option (option Z) :=
  Deno.mtime <$> (Deno.info <$> m !! p).

(** The project configuration file found in [dir], if any. *)
Definition configFile (m : FS) (dir : string) : option string :=
  List.find (λ p, bool_decide (is_Some (m !! p)))
            ((λ file, path.join dir file) <$> ["_quarto.yml"; "_quarto.yaml"]).

(** The [projMod] that [readInputTargetIndex] computes. *)
Definition projMod_of (m : FS) (dir : string) : ProjMod :=
  match configFile m dir with
  | Some f => ConfigMod (default None (mtime_at m f))
  | None => NoConfig
  end.

(** The freshness test of [readInputTargetIndex]. *)
Definition upToDate (inputMod indexMod : option Z) (projMod : ProjMod) : bool :=
  date_truthy inputMod && date_truthy indexMod
  && date_ge indexMod inputMod
  && (projMod_falsy projMod || date_ge indexMod (projMod_value projMod)).

(** What the cache holds for [input] and may hand out: the index file
    is a regular file whose time stamp is reported and not older than
    the reported time stamp of the input and, when the project has a
    configuration file with a reported time stamp, not older than that
    one either; and its text deserialises to [v]. *)
Definition cached (C : IndexCollaborators) (m : FS)
    (projectDir input : string) (v : JSON.Value) : Prop :=
  ∃ indexMod inputMod data,
    m !! inputTargetIndexFile C projectDir input = Some (File (Some indexMod) data)
    ∧ mtime_at m (path.join projectDir input) = Some (Some inputMod)
    ∧ inputMod ≤ indexMod
    ∧ (∀ f projMod, configFile m projectDir = Some f →
         mtime_at m f = Some (Some projMod) → projMod ≤ indexMod)
    ∧ JSON.parse data = Some v.

(** The condition of the specification, which looks at time stamps
    only: the cache file exists, it is not older than the input and,
    when there is a configuration file, not older than that one. *)
Definition timestamps_valid (C : IndexCollaborators) (m : FS)
    (projectDir input : string) : Prop :=
  ∃ indexMod inputMod,
    mtime_at m (inputTargetIndexFile C projectDir input) = Some (Some indexMod)
    ∧ mtime_at m (path.join projectDir input) = Some (Some inputMod)
    ∧ inputMod ≤ indexMod
    ∧ (∀ f, configFile m projectDir = Some f →
         ∃ projMod, mtime_at m f = Some (Some projMod) ∧ projMod ≤ indexMod).

(** [inputTargetIndex] gets as far as the cache: the input is a file an
    engine claims. *)
Definition indexable (C : IndexCollaborators) (m : FS)
    (project : ProjectContext) (input : string) (engine : ExecutionEngine) : Prop :=
  Tree.is_file (m !! path.join (dir project) input) = true
  ∧ fileExecutionEngine C (path.join (dir project) input) = Some engine.

(** The title and the entry [indexInput] records for the formats and
    the partitioned markdown the collaborators return. *)
Definition indexTitle (C : IndexCollaborators)
    (formats : list (string * JSON.Value)) (markdown : JSON.Value)
  : option JSON.Value :=
  let firstFormat := head (formats.*2) in
  let title :=
    if truthy_opt firstFormat
    then prop (kTitle C) (prop "metadata" firstFormat) else None in
  if negb (truthy_opt title) then JSON.get "headingText" markdown else title.

Definition indexEntry (C : IndexCollaborators)
    (formats : list (string * JSON.Value)) (markdown : JSON.Value)
  : JSON.Value :=
  JSON.Obj (match indexTitle C formats markdown with
            | Some t => [("title", t)]
            | None => []
            end
            ++ [("markdown", markdown); ("formats", JSON.Obj formats)]).

(** The world in which the cache file of [input] is missing. *)
Definition without_cache (C : IndexCollaborators) (project : ProjectContext)
    (input : string) (w : World) : World :=
  set_fs (delete (inputTargetIndexFile C (dir project) input)) w.

(** The collaborators of the index do not look at the cache file of
    [input]: they answer the same with and without it. *)
Definition ignore_cache (C : IndexCollaborators) (project : ProjectContext)
    (input : string) (m : FS) : Prop :=
  let inputFile := path.join (dir project) input in
  let indexFile := inputTargetIndexFile C (dir project) input in
  renderFormats C inputFile "all" project (delete indexFile m)
    = renderFormats C inputFile "all" project m
  ∧ ∀ engine, fileExecutionEngine C inputFile = Some engine →
      partitionedMarkdown engine inputFile (delete indexFile m)
        = partitionedMarkdown engine inputFile m.

(** [m] never changes the environment, and every event it adds to the
    trace satisfies [P], which may refer to that environment. *)
Definition emits {A} (P : Env → Event → Prop) (m : M A) : Prop :=
  ∀ w, env (final (m w)) = env w
       ∧ ∃ l, trace (final (m w)) = trace w ++ l ∧ Forall (P (env w)) l.

(** Events other than the calls to the renderer and to the hooks of the
    project type. *)
Definition plain (e : Event) : bool :=
  match e with
  | CalledRenderFiles _ _ _ _ | CalledPostRender _ _ _ | CalledPreRender _ => false
  | _ => true
  end.

(** What a run of [renderProject] on [context], [options] and [files]
    shows its collaborators: the renderer gets the always-execute set
    computed from the arguments, the post-render hook gets the
    incremental flag computed from the arguments, and both can read the
    project directory in [QUARTO_PROJECT_DIR]. *)
Definition as_published (context : ProjectContext) (options : RenderOptions)
    (files : option (list string)) (e : Event) : Prop :=
  match e with
  | CalledRenderFiles _ _ always projectDirEnv =>
      always = alwaysExecuteFiles options files
      ∧ projectDirEnv = Some (dir context)
  | CalledPostRender isIncremental _ projectDirEnv =>
      isIncremental = incremental files
      ∧ projectDirEnv = Some (dir context)
  | _ => True
  end.

(** [l] is a proper subset of the discovered inputs. *)
Definition proper_subset (l inputs : list string) : Prop :=
  l ⊆ inputs ∧ ¬ inputs ⊆ l.

(** The events a run added to the trace. *)
Definition new_events (w w' : World) (l : list Event) : Prop :=
  trace w' = trace w ++ l.

(** [p] lies inside the directory [d]. *)
Definition inside (d p : string) : Prop := ∃ r, p = d +:+ "/" +:+ r.

(* ================================================================== *)
(** * A sample project *)
(* ================================================================== *)

Module Sample.

Definition engine : ExecutionEngine :=
  mkExecutionEngine "markdown"
    (λ _ _, inr (JSON.Obj [("headingText", JSON.Text "Intro")])).

Definition html : JSON.Value :=
  JSON.Obj [("metadata", JSON.Obj [("title", JSON.Text "A")]);
            ("execute", JSON.Obj [])].

Definition index_collaborators : IndexCollaborators :=
  mkIndexCollaborators
    (λ _, Some engine)
    (λ _ _ _ _, inr [("html", html)])
    (λ dir p, path.join (path.join dir ".quarto") p)
    "title".

Definition settings : ProjectSettings :=
  mkProjectSettings (Some "default") (Some "_site") (Some "libs") None.

Definition project : ProjectContext :=
  mkProjectContext "/proj" ["markdown"]
    (mkProjectFiles ["/proj/a.qmd"; "/proj/b.qmd"] None)
    (Some (mkProjectConfig settings)).

Definition cache_file : string := "/proj/.quarto/index/a.qmd.json".

(** A cached entry for [a.qmd]. *)
Definition entry : JSON.Value :=
  JSON.Obj [("title", JSON.Text "A");
            ("markdown", JSON.Obj [("headingText", JSON.Text "Intro")]);
            ("formats", JSON.Obj [("html", html)])].

(** A project directory with [a.qmd], [_quarto.yml] and a cache file for
    [a.qmd], with the given time stamps and cache text. *)
Definition disk (inputMod indexMod configMod : option Z) (data : JSON.Source)
  : FS :=
  list_to_map
    [("/proj", Dir None);
     ("/proj/a.qmd", File inputMod (JSON.Malformed "# A"));
     ("/proj/_quarto.yml", File configMod (JSON.Malformed "project:"));
     (cache_file, File indexMod data)].

Definition world (m : FS) : World := mkWorld m ∅ "/proj" (Some 200) [].

End Sample.

Module SampleWorlds.

(** Cache time stamp 100, input 50, configuration 40, intact cache. *)
Definition fresh : World :=
  Sample.world (Sample.disk (Some 50) (Some 100) (Some 40)
                            (JSON.Serialized Sample.entry)).

(** Cache time stamp 100, input 150. *)
Definition stale : World :=
  Sample.world (Sample.disk (Some 150) (Some 100) (Some 40)
                            (JSON.Serialized Sample.entry)).

(** Fresh time stamps, but the text of the cache file is cut short. *)
Definition corrupt : World :=
  Sample.world (Sample.disk (Some 50) (Some 100) (Some 40)
                            (JSON.Malformed "{")).



(** The world after the entry of [a.qmd] has been regenerated from
    [w]. *)
Definition regenerated (w : World) : World :=
  mkWorld (<[Sample.cache_file := File (Some 200) (JSON.Serialized Sample.entry)]> (fs w))
          ∅ "/proj" (Some 200)
          [CalledRenderFormats "/proj/a.qmd"; CalledPartitionedMarkdown "/proj/a.qmd"].

End SampleWorlds.

(* ================================================================== *)
(** * A sample render *)
(* ================================================================== *)

Module SampleRender.

Definition stem_of (file : string) : option string :=
  if decide (file = "/proj/a.qmd") then Some "a"
  else if decide (file = "/proj/b.qmd") then Some "b"
  else None.

(** What the sample renderer reports for an input: an HTML file next to
    it, a supporting directory, and two declared resource files, of
    which [missing.png] is not on disk. *)
Definition rendered (stem : string) : RenderedFile :=
  mkRenderedFile ("/proj/" +:+ stem +:+ ".qmd") "" Sample.html
    (stem +:+ ".html") (Some [stem +:+ "_files"])
    (mkResourceFiles [] ["missing.png"; "logo.png"]) false.

Definition page : Node := File (Some 300) (JSON.Malformed "<html>").

(** What it leaves in the project directory. *)
Definition produced (stem : string) : list (string * Node) :=
  [("/proj/" +:+ stem +:+ ".html", page);
   ("/proj/" +:+ stem +:+ "_files", Dir (Some 300));
   ("/proj/" +:+ stem +:+ "_files/figure.png", File (Some 300) (JSON.Malformed "png"));
   ("/proj/libs", Dir (Some 300));
   ("/proj/libs/A", Dir (Some 300));
   ("/proj/libs/A/a.js", File (Some 300) (JSON.Malformed "js"))].

Definition write_all (l : list (string * Node)) (m : FS) : FS :=
  foldr (λ kv acc, <[kv.1 := kv.2]> acc) m l.

Definition renderFiles (files : list string) (_ : RenderOptions)
    (_ : option (list string)) (_ : option PandocRenderer)
    (_ : ProjectContext) : Collab RenderFilesResult :=
  λ _ m, let stems := omap stem_of files in
         (inr (mkRenderFilesResult (rendered <$> stems) None),
          write_all (mjoin (produced <$> stems)) m).

Definition copyResourceFile (_ src dst : string) : Collab unit :=
  λ _ m, (inr tt, match m !! src with
                  | Some n => <[dst := n]> m
                  | None => m
                  end).

Definition nothing {A} (a : A) : Collab A := λ _ m, (inr a, m).

Definition projType : ProjectType :=
  mkProjectType None (Some (λ _, nothing tt)) (Some (λ _ _ _, nothing tt))
                None None.

Definition collaborators : RenderCollaborators :=
  mkRenderCollaborators
    (λ _, projType)
    (λ _, nothing tt)
    renderFiles
    (λ _ _ _, nothing ([], []))
    copyResourceFile
    (λ _ _ _ _, nothing tt)
    (λ _ _ _ _, nothing tt)
    (λ _ _, nothing tt)
    "_freeze"
    "keep-md".

Definition options : RenderOptions := mkRenderOptions None None None.

(** The project before a render; the output directory holds what an
    earlier render left there. *)
Definition disk : FS :=
  list_to_map
    [("/proj", Dir None);
     ("/proj/a.qmd", File (Some 50) (JSON.Malformed "# A"));
     ("/proj/b.qmd", File (Some 50) (JSON.Malformed "# B"));
     ("/proj/_quarto.yml", File (Some 40) (JSON.Malformed "project:"));
     ("/proj/logo.png", File (Some 10) (JSON.Malformed "png"));
     ("/proj/_site", Dir (Some 60));
     ("/proj/_site/a_files", Dir (Some 60));
     ("/proj/_site/a_files/stale.png", File (Some 60) (JSON.Malformed "old"));
     ("/proj/_site/libs", Dir (Some 60));
     ("/proj/_site/libs/B", Dir (Some 60));
     ("/proj/_site/libs/B/b.js", File (Some 60) (JSON.Malformed "js"))].

Definition world : World := mkWorld disk ∅ "/proj" (Some 400) [].


(** The render of [a.qmd] alone, once [prepare] is through. *)
Definition prepared : Prepared :=
  mkPrepared projType "/proj" true (Some ["a.qmd"]) ["/proj/a.qmd"] options
             (Some "_site") (Some "/proj/_site") (Some "libs").

Definition prepared_world : World :=
  mkWorld disk ∅ "/proj" (Some 400) [CalledEnsureGitignore; CalledPreRender None].

(** The events of the render of [a.qmd] alone. *)
Definition events : list Event :=
  [CalledEnsureGitignore;
   CalledPreRender None;
   CalledRenderFiles ["/proj/a.qmd"] options (Some ["a.qmd"]) (Some "/proj");
   CalledCopyToProjectFreezer "libs" true true;
   CalledPruneProjectFreezerDir "libs" true;
   CalledPruneProjectFreezer true;
   CalledCopyResourceFile "/proj" "/proj/logo.png" "/proj/_site/logo.png";
   CalledPostRender true ["/proj/_site/a.html"] (Some "/proj")].

(** The world when the sample renderer has rendered [a.qmd] and nothing
    has been relocated yet. *)
Definition rendered_world : World :=
  mkWorld (write_all (produced "a") disk) {[kQuartoProjectDir := "/proj"]}
          "/proj" (Some 400)
          [CalledEnsureGitignore; CalledPreRender None;
           CalledRenderFiles ["/proj/a.qmd"] options (Some ["a.qmd"]) (Some "/proj")].

(** The result of the render of [a.qmd] alone. *)
Definition result_file : RenderResultFile :=
  mkRenderResultFile "/proj/a.qmd" "" Sample.html "a.html" (Some ["a_files"])
                     ["/proj/logo.png"].

Definition result : RenderResult :=
  mkRenderResult "/proj" (Some "_site") [result_file] None.

End SampleRender.

(* ================================================================== *)
(** * Vocabulary of the relocation statements *)
(* ================================================================== *)

(** No resource of [f] starts with one of the supporting directories of
    [f] (taken in the project directory). *)
Definition clear_of_supporting (projDir : string) (f : RenderResultFile) : Prop :=
  ∀ r sup s, r ∈ resourceFiles f → supporting f = Some sup → s ∈ sup →
             Str.startsWith r (path.join projDir s) = false.

(** The destination of a resource file in the output directory. *)
Definition resourceDest (projDir outputDirAbsolute file : string) : string :=
  posix.join [outputDirAbsolute; path.relative projDir file].


(** An absent directory has nothing below it. *)
Definition closed (m : FS) (d : string) : Prop :=
  m !! d = None → ∀ p, path.under d p = true → m !! p = None.

(** The directories [ensureDirSync] has to provide for [target]: none of
    them is a file, and none lies in the tree of [src] or [target]. *)
Definition way_clear (m : FS) (src target : string) : Prop :=
  ∀ k, k ∈ Tree.parents (S (String.length (path.dirname target)))
                        (path.dirname target) →
       Tree.is_file (m !! k) = false
       ∧ path.under target k = false
       ∧ path.under src k = false.

(** What lands at the destination: a copy gets a new time stamp, a moved
    entry keeps its own. *)
Definition placed (copy : bool) (t : option Z) (n : Node) : Node :=
  if copy then Tree.touch t n else n.

(** The entry [nm] of the directory [d]. *)
Definition sub (d nm : string) : string := d +:+ "/" +:+ nm.

(** The file system is ready for merging the entries of the library
    directory [src] into [dst] one at a time: no ancestor of an entry of
    [dst] is a file, and absent entries of [src] and [dst] have nothing
    below them. *)
Definition lib_ready (m : FS) (src dst : string) : Prop :=
  (∀ k, k ∈ Tree.parents (S (String.length dst)) dst →
        Tree.is_file (m !! k) = false)
  ∧ ∀ nm, Deno.is_name nm = true → closed m (sub dst nm) ∧ closed m (sub src nm).

(** The prefixes of [p] that end where a segment of [p] ends. *)
Fixpoint prefixes (p : string) : list string :=
  (if path.boundary p then [""] else [])
  ++ match p with
     | EmptyString => []
     | String c p' => String c <$> prefixes p'
     end.

(** Every entry has its ancestors: the file system is a tree. *)
Definition rooted (m : FS) : bool :=
  forallb (λ kn : string * Node,
             forallb (λ d, Str.is_empty d || bool_decide (is_Some (m !! d)))
                     (prefixes kn.1))
          (map_to_list m).

(* ================================================================== *)
(** * Vocabulary of the statement about the primary artifact *)
(* ================================================================== *)





Module SampleBlocked.

(** The sample project when an earlier run has left a directory where
    the output file of [a.qmd] goes. *)
Definition disk : FS :=
  <["/proj/_site/a.html/index.html" := File (Some 60) (JSON.Malformed "old")]>
    (<["/proj/_site/a.html" := Dir (Some 60)]> SampleRender.disk).

Definition world : World := mkWorld disk ∅ "/proj" (Some 400) [].

(** The renderer has rendered [a.qmd] there; nothing is relocated yet. *)
Definition rendered_world : World :=
  set_fs (λ _, SampleRender.write_all (SampleRender.produced "a") disk)
         SampleRender.rendered_world.

End SampleBlocked.

(* ================================================================== *)
(** * More of [project-shared.ts] *)
(* ================================================================== *)

Definition projectVarsFile (dir : string) : M (option string) :=
  find_existing ((λ file, path.join dir file) <$> ["_variables.yml"; "_variables.yaml"]).

Definition projectOutputDir (context : ProjectContext) : M string :=
  let outputDir :=
    match truthy_str (project_setting kProjectOutputDir context) with
    | Some outputDir => posix.join [dir context; outputDir]
    | None => dir context
    end in
  ex ← existsSync outputDir;
  if ex : bool then Deno.realPathSync outputDir else ret outputDir.

(** [pathWithForwardSlashes] is a function of [core/path.ts]. *)
Definition projectOffset (pathWithForwardSlashes : string → string)
    (context : ProjectContext) (input : string) : M string :=
  projDir ← Deno.realPathSync (dir context);
  inputDir ← Deno.realPathSync (path.dirname input);
  let offset := path.relative inputDir projDir in
  let offset := if Str.is_empty offset then "." else offset in
  ret (pathWithForwardSlashes offset).

(* ================================================================== *)
(** * More of [project-index.ts] *)
(* ================================================================== *)

(** What [resolveInputTarget] and [inputFileForOutputFile] take from
    [core/path.ts] and from the constants. *)
Record TargetCollaborators := mkTargetCollaborators {
  dirAndStem : string → string * string;
  pathWithForwardSlashes : string → string;
  kOutputFile : string;
}.

(** [Object.values(v)]: a [TypeError] on [undefined] and [null]; the
    characters of a string; nothing for a number or a boolean.  The keys
    [Object.keys(v)] lists are the keys of these values, in the same
    order. *)
Definition objectValues (v : option JSON.Value) : M (list JSON.Value) :=
  match v with
  | None | Some JSON.Null => throw (TypeError "Object.values")
  | Some (JSON.Obj props) => ret (props.*2)
  | Some (JSON.Arr items) => ret items
  | Some (JSON.Text s) =>
      ret ((λ c, JSON.Text (String c "")) <$> String.list_ascii_of_string s)
  | Some (JSON.Bool _) | Some (JSON.Num _) => ret []
  end.

(** [format.pandoc[key]]: a [TypeError] when [format] is [null] or has
    no [pandoc]. *)
Definition pandocSetting (key : string) (format : JSON.Value)
  : M (option JSON.Value) :=
  match format with
  | JSON.Null => throw (TypeError "format.pandoc")
  | _ =>
      match JSON.get "pandoc" format with
      | None | Some JSON.Null => throw (TypeError "format.pandoc")
      | Some pandoc => ret (JSON.get key pandoc)
      end
  end.

(** A path operand has to be a string. *)
Definition pathOperand (v : option JSON.Value) : M string :=
  match v with
  | Some (JSON.Text s) => ret s
  | _ => throw (TypeError "path")
  end.

(** [l.some(p)] for a predicate with effects. *)
Fixpoint someM {A} (p : A → M bool) (l : list A) : M bool :=
  match l with
  | [] => ret false
  | x :: l' =>
      b ← p x;
      if b : bool then ret true else someM p l'
  end.

Section ProjectIndexTargets.

Context (C : IndexCollaborators) (T : TargetCollaborators).



(** The test [inputFileForOutputFile] makes on one format of an
    input. *)
Definition hasOutput (outputDir output inputRelative : string)
    (format : JSON.Value) : M bool :=
  declared ← pandocSetting (kOutputFile T) format;
  if truthy_opt declared then
    outputFile ← pathOperand declared;
    let formatOutputPath :=
      posix.join [outputDir; path.dirname inputRelative; outputFile] in
    ret (bool_decide (output = formatOutputPath))
  else ret false.

(** The loop of [inputFileForOutputFile] over the inputs. *)
Fixpoint findInputFile (project : ProjectContext) (outputDir output : string)
    (files : list string) : M (option string) :=
  match files with
  | [] => ret None
  | file :: rest =>
      let inputRelative := path.relative (dir project) file in
      index ← inputTargetIndex C project (path.relative (dir project) file);
      found ← (if truthy_opt index then
                 formats ← objectValues (prop "formats" index);
                 someM (hasOutput outputDir output inputRelative) formats
               else ret false);
      if found : bool then ret (Some file)
      else findInputFile project outputDir output rest
  end.

Definition inputFileForOutputFile (project : ProjectContext) (output : string)
  : M (option string) :=
  (* compute output dir *)
  outputDir ← projectOutputDir project;
  (* full path to output (it's relative to output dir) *)
  let output := posix.join [outputDir; output] in
  findInputFile project outputDir output (files_input (context_files project)).

(** What [inputFileForOutputFile] has done when it gets to an input: it
    has looked up the index of every input [before] it, in their
    order. *)
Definition indexLookups (project : ProjectContext) (before : list string)
  : M unit :=
  forEach (λ file,
             inputTargetIndex C project (path.relative (dir project) file);;
             ret tt) before.

End ProjectIndexTargets.

(* ================================================================== *)
(** * Vocabulary of the further statements *)
(* ================================================================== *)

Definition preparation (e : Event) : bool :=
  match e with
  | CalledIncrementalRenderAll _ | CalledEnsureGitignore | CalledPreRender _ => true
  | _ => false
  end.

Definition relocation (e : Event) : bool :=
  match e with
  | Warning _ | CalledResolvePathGlobs _ _ | CalledCopyToProjectFreezer _ _ _
  | CalledPruneProjectFreezerDir _ _ | CalledPruneProjectFreezer _
  | CalledCopyResourceFile _ _ _ => true
  | _ => false
  end.

(** The entry of the result for a rendered file, before its resource
    files are known. *)
Definition tracked (rf : RenderedFile) (resources : list string) : RenderResultFile :=
  mkRenderResultFile (rf_input rf) (rf_markdown rf) (rf_format rf) (rf_file rf)
                     (rf_supporting rf) resources.

(** The path of the output [file] of a project, as the post-render hook
    gets it. *)
Definition outputPath (projDir : string) (outputDir : option string)
    (file : string) : string :=
  path.join projDir (match truthy_str outputDir with
                     | Some o => path.join o file
                     | None => file
                     end).

Definition outputOf (result : RenderResult) (f : RenderResultFile) : string :=
  outputPath (baseDir result) (result_outputDir result) (file f).

(** The path [renderProject] checks for a requested file. *)
Definition renderTarget (cwd file : string) : string :=
  if path.isAbsolute file then file else posix.join [cwd; file].

(** The flags of a caller that passed none. *)
Definition no_flags : RenderFlags := mkRenderFlags None None None None.

(** The index file of [input] is none of the files its time stamp is
    compared with. *)
Definition apart (C : IndexCollaborators) (project : ProjectContext)
    (input : string) : Prop :=
  let indexFile := inputTargetIndexFile C (dir project) input in
  indexFile ≠ path.join (dir project) input
  ∧ indexFile ≠ path.join (dir project) "_quarto.yml"
  ∧ indexFile ≠ path.join (dir project) "_quarto.yaml".

(** The one of a [.yml] and a [.yaml] file that is looked at. *)
Definition preferred (m : FS) (yml yaml : string) : option string :=
  match m !! yml, m !! yaml with
  | Some _, _ => Some yml
  | None, Some _ => Some yaml
  | None, None => None
  end.

(** [n] levels up. *)
Definition ups (n : nat) : string :=
  match n with
  | O => "."
  | S _ => path.unsegments (replicate n "..")
  end.

(** The output files the formats of an index entry declare. *)
Definition declaredOutputs (T : TargetCollaborators) (index : JSON.Value)
  : list string :=
  omap (λ format,
          match prop (kOutputFile T) (JSON.get "pandoc" format) with
          | Some (JSON.Text (String c o)) => Some (String c o)
          | _ => None
          end)
       (JSON.values (default JSON.Null (JSON.get "formats" index))).

(* ================================================================== *)
(** * Variants of the samples *)
(* ================================================================== *)

Module SampleVariants.

(** A project type that always asks for a render of everything. *)
Definition book : ProjectType :=
  mkProjectType (Some (λ _ _ _, SampleRender.nothing true))
                (Some (λ _, SampleRender.nothing tt))
                (Some (λ _ _ _, SampleRender.nothing tt))
                None None.

Definition book_collaborators : RenderCollaborators :=
  mkRenderCollaborators
    (λ _, book)
    (λ _, SampleRender.nothing tt)
    SampleRender.renderFiles
    (λ _ _ _, SampleRender.nothing ([], []))
    SampleRender.copyResourceFile
    (λ _ _ _ _, SampleRender.nothing tt)
    (λ _ _ _ _, SampleRender.nothing tt)
    (λ _ _, SampleRender.nothing tt)
    "_freeze"
    "keep-md".

(** The sample project without an output directory. *)
Definition flat : ProjectContext :=
  mkProjectContext "/proj" ["markdown"]
    (mkProjectFiles ["/proj/a.qmd"; "/proj/b.qmd"] None)
    (Some (mkProjectConfig (mkProjectSettings (Some "default") None None None))).

(** The sample project, executing in the project directory. *)
Definition in_project : ProjectContext :=
  mkProjectContext "/proj" ["markdown"]
    (mkProjectFiles ["/proj/a.qmd"; "/proj/b.qmd"] None)
    (Some (mkProjectConfig
             (mkProjectSettings (Some "default") (Some "_site") (Some "libs")
                                (Some "project")))).

(** The sample project with an output directory next to the project
    directory. *)
Definition outside : ProjectContext :=
  mkProjectContext "/proj" ["markdown"]
    (mkProjectFiles ["/proj/a.qmd"; "/proj/b.qmd"] None)
    (Some (mkProjectConfig
             (mkProjectSettings (Some "default") (Some "../docs") (Some "libs")
                                None))).

(** What the renderer is handed in a render of all of [in_project]. *)
Definition in_project_options : RenderOptions :=
  mkRenderOptions None (Some (mkRenderFlags (Some "/proj") (Some 0) None None))
                  None.

(** The results of the render of both inputs, with and without the
    output directory. *)
Definition both (resources : list string) : list RenderResultFile :=
  [tracked (SampleRender.rendered "a") resources;
   tracked (SampleRender.rendered "b") resources].

Definition full_result : RenderResult :=
  mkRenderResult "/proj" (Some "_site") (both ["/proj/logo.png"]) None.

Definition flat_result : RenderResult :=
  mkRenderResult "/proj" None (both []) None.

(** The world after a render of a file from the freezer. *)
Definition frozen_run : World :=
  final (renderProject SampleRender.collaborators Sample.project
           (set_useFreezer true SampleRender.options)
           (Some ["nowhere.qmd"]) SampleRender.world).

End SampleVariants.

Module SampleTargets.


(** A format that declares its output file. *)
Definition page : JSON.Value :=
  JSON.Obj [("metadata", JSON.Obj [("title", JSON.Text "A")]);
            ("pandoc", JSON.Obj [("output-file", JSON.Text "a.html")])].

Definition index_collaborators : IndexCollaborators :=
  mkIndexCollaborators
    (λ _, Some Sample.engine)
    (λ _ _ _ _, inr [("html", page)])
    (λ dir p, path.join (path.join dir ".quarto") p)
    "title".

Definition targets : TargetCollaborators :=
  mkTargetCollaborators (λ _, (".", "a")) id "output-file".

Definition entry : JSON.Value :=
  JSON.Obj [("title", JSON.Text "A");
            ("markdown", JSON.Obj [("headingText", JSON.Text "Intro")]);
            ("formats", JSON.Obj [("html", page)])].

End SampleTargets.

(* ================================================================== *)
(** * Facts about strings and paths *)
(* ================================================================== *)

Lemma Str_app_nil_l (s : string) : "" +:+ s = s.
Proof. reflexivity. Qed.

Lemma Str_app_cons (a : ascii) (s t : string) :
  String a s +:+ t = String a (s +:+ t).
Proof. reflexivity. Qed.

Lemma Str_strip_Some pre s r : Str.strip pre s = Some r ↔ s = pre +:+ r.
Proof.
  revert s; induction pre as [|a pre IH]; intros s; simpl.
  - rewrite Str_app_nil_l. split; [intros [= ->]|intros ->]; done.
  - rewrite Str_app_cons. destruct s as [|b s]; [split; [done|intros [=]]|].
    case_decide as Hab.
    + subst b. rewrite IH. split; [intros ->; done|].
      intros [= ->]; done.
    + split; [done|]. intros [= -> _]; done.
Qed.

Lemma Str_strip_app pre r : Str.strip pre (pre +:+ r) = Some r.
Proof. by apply Str_strip_Some. Qed.

Lemma Str_app_empty_r (s : string) : s +:+ "" = s.
Proof.
  induction s as [|a s IH]; [done|]. by rewrite Str_app_cons, IH.
Qed.

Lemma Str_app_assoc (a b c : string) : (a +:+ b) +:+ c = a +:+ (b +:+ c).
Proof.
  induction a as [|x a IH]; [done|]. by rewrite !Str_app_cons, IH.
Qed.

Lemma Str_length_app (a b : string) :
  String.length (a +:+ b) = (String.length a + String.length b)%nat.
Proof.
  induction a as [|x a IH]; [done|]. rewrite Str_app_cons; simpl. by rewrite IH.
Qed.

Lemma Str_startsWith_app s pre :
  Str.startsWith s pre = true ↔ ∃ r, s = pre +:+ r.
Proof.
  unfold Str.startsWith. destruct (Str.strip pre s) as [r|] eqn:E.
  - apply Str_strip_Some in E. split; eauto.
  - split; [done|]. intros [r Hr]. apply Str_strip_Some in Hr. congruence.
Qed.

(** Two prefixes of one string are comparable. *)
Lemma Str_app_eq_app (a b x y : string) :
  a +:+ x = b +:+ y →
  (∃ z, a = b +:+ z ∧ y = z +:+ x) ∨ (∃ z, b = a +:+ z ∧ x = z +:+ y).
Proof.
  revert b; induction a as [|c a IH]; intros b.
  - rewrite Str_app_nil_l. intros ->. right. exists b. done.
  - destruct b as [|d b].
    + rewrite Str_app_nil_l. intros <-. left. by exists (String c a).
    + rewrite !Str_app_cons. intros [= -> H].
      destruct (IH _ H) as [[z [-> ->]]|[z [-> ->]]].
      * left. by exists z.
      * right. by exists z.
Qed.

Lemma path_rel_Some d p r :
  path.rel d p = Some r ↔ p = d +:+ r ∧ path.boundary r = true.
Proof.
  unfold path.rel. destruct (Str.strip d p) as [r'|] eqn:E.
  - apply Str_strip_Some in E. subst p.
    destruct (path.boundary r') eqn:B.
    + split; [intros [= <-]; done|]. intros [H _].
      by apply (inj (String.app d)) in H as ->.
    + split; [done|]. intros [H B'].
      apply (inj (String.app d)) in H as ->. congruence.
  - split; [done|]. intros [-> _]. rewrite Str_strip_app in E. done.
Qed.

Lemma path_rel_app d r : path.boundary r = true → path.rel d (d +:+ r) = Some r.
Proof. intros. by apply path_rel_Some. Qed.

Lemma path_rel_self d : path.rel d d = Some "".
Proof. apply path_rel_Some. by rewrite Str_app_empty_r. Qed.

Lemma path_under_true d p :
  path.under d p = true ↔ ∃ r, p = d +:+ r ∧ path.boundary r = true.
Proof.
  unfold path.under. destruct (path.rel d p) as [r|] eqn:E.
  - apply path_rel_Some in E. split; eauto.
  - split; [done|]. intros [r Hr]. apply path_rel_Some in Hr. congruence.
Qed.

Lemma path_under_rel d p : path.under d p = true ↔ is_Some (path.rel d p).
Proof.
  unfold path.under. destruct (path.rel d p); split; try done; eauto.
Qed.

Lemma path_under_self d : path.under d d = true.
Proof. unfold path.under. by rewrite path_rel_self. Qed.

Lemma path_under_length d p :
  path.under d p = true → (String.length d ≤ String.length p)%nat.
Proof.
  intros [r [-> _]]%path_under_true. rewrite Str_length_app. lia.
Qed.

(** A path under a directory starts with it, as a string. *)
Lemma path_under_startsWith d p :
  path.under d p = true → Str.startsWith p d = true.
Proof.
  intros [r [-> _]]%path_under_true. apply Str_startsWith_app. eauto.
Qed.

Lemma path_inside_under d p : inside d p → path.under d p = true.
Proof.
  intros [r ->]. apply path_under_true. by exists ("/" +:+ r).
Qed.

Lemma path_boundary_app r s :
  path.boundary r = true → path.boundary s = true →
  path.boundary (r +:+ s) = true.
Proof. destruct r as [|c r]; [done|]. intros H _. exact H. Qed.

Lemma path_under_trans a b c :
  path.under a b = true → path.under b c = true → path.under a c = true.
Proof.
  intros [r [-> Hr]]%path_under_true [s [-> Hs]]%path_under_true.
  apply path_under_true. exists (r +:+ s). split; [by rewrite Str_app_assoc|].
  by apply path_boundary_app.
Qed.

Lemma path_under_antisym a b :
  path.under a b = true → path.under b a = true → a = b.
Proof.
  intros Hab Hba. pose proof (path_under_length _ _ Hab).
  pose proof (path_under_length _ _ Hba).
  apply path_under_true in Hab as [r [-> _]].
  rewrite Str_length_app in *. destruct r; [by rewrite Str_app_empty_r|].
  simpl in *. lia.
Qed.

(** Two trees that share a path are nested. *)
Lemma path_under_nested a b p :
  path.under a p = true → path.under b p = true →
  path.under a b = true ∨ path.under b a = true.
Proof.
  intros [r [-> Hr]]%path_under_true [s [Hp Hs]]%path_under_true.
  destruct (Str_app_eq_app _ _ _ _ Hp) as [[z [-> ->]]|[z [-> ->]]].
  - right. apply path_under_true. exists z. split; [done|].
    destruct z; [done|]. exact Hs.
  - left. apply path_under_true. exists z. split; [done|].
    destruct z; [done|]. exact Hr.
Qed.

(** Trees that are not nested are disjoint. *)
Lemma path_under_disjoint a b p :
  path.under a b = false → path.under b a = false →
  path.under a p = true → path.under b p = false.
Proof.
  intros Hab Hba Hap. destruct (path.under b p) eqn:Hbp; [|done].
  destruct (path_under_nested _ _ _ Hap Hbp); congruence.
Qed.

Lemma path_split_last_app s d b :
  path.split_last s = Some (d, b) → s = d +:+ "/" +:+ b.
Proof.
  revert d b; induction s as [|c s IH]; intros d b; simpl; [done|].
  destruct (path.split_last s) as [[d' b']|].
  - intros [= <- <-]. rewrite Str_app_cons. f_equal. by apply IH.
  - case_decide; [|done]. intros [= <- <-]. by subst c.
Qed.

Lemma path_dirname_length s :
  (1 < String.length s)%nat →
  (String.length (path.dirname s) < String.length s)%nat.
Proof.
  intros Hs. unfold path.dirname.
  destruct (path.split_last s) as [[d b]|] eqn:E.
  - apply path_split_last_app in E. subst s.
    rewrite !Str_length_app in *. change (String.length "/") with 1%nat in *.
    destruct d as [|c d]; cbn [String.length] in *; lia.
  - cbn [String.length]. lia.
Qed.

(** ** Normal forms *)

Lemma unsegments_cons x y l :
  path.unsegments (x :: y :: l) = x +:+ "/" +:+ path.unsegments (y :: l).
Proof.
  unfold path.unsegments. cbn [fold_left]. revert x y.
  induction l as [|z l IH]; intros x y; [done|].
  cbn [fold_left]. rewrite <- IH. f_equal. by rewrite !Str_app_assoc.
Qed.

Lemma String_rev_app_acc s acc :
  String.rev_app s acc = String.rev_app s "" +:+ acc.
Proof.
  revert acc. induction s as [|c s IH]; intros acc; [done|].
  cbn [String.rev_app]. rewrite (IH (String c acc)), (IH (String c "")).
  by rewrite Str_app_assoc.
Qed.

Lemma String_rev_cons c s : String.rev (String c s) = String.rev s +:+ String c "".
Proof. unfold String.rev. cbn [String.rev_app]. apply String_rev_app_acc. Qed.

Lemma segments_go_cons cur s :
  ∃ x l, path.segments_go cur s = x :: l.
Proof.
  revert cur. induction s as [|c s IH]; intros cur; simpl; [eauto|].
  case_decide; eauto.
Qed.

(** Joining the segments of a path gives the path back. *)
Lemma unsegments_segments_go s cur :
  path.unsegments (path.segments_go cur s) = String.rev cur +:+ s.
Proof.
  revert cur. induction s as [|c s IH]; intros cur; cbn [path.segments_go].
  - simpl. by rewrite Str_app_empty_r.
  - case_decide as Hc.
    + subst c. destruct (segments_go_cons "" s) as (x & l & E).
      rewrite E, unsegments_cons, <- E, IH. done.
    + rewrite IH, String_rev_cons, Str_app_assoc. done.
Qed.

Lemma segments_go_app cur p rest :
  path.segments_go cur (p +:+ "/" +:+ rest)
  = path.segments_go cur p ++ path.segments_go "" rest.
Proof.
  revert cur. induction p as [|c p IH]; intros cur.
  - rewrite Str_app_nil_l. simpl. by destruct (decide ("/"%char = "/"%char)).
  - rewrite Str_app_cons. simpl. case_decide; [|apply IH].
    by rewrite IH.
Qed.

Lemma fold_step_tidy allow segs res :
  forallb (λ s, negb (bool_decide (s = "")) && negb (bool_decide (s = "."))
                && negb (bool_decide (s = ".."))) segs = true →
  fold_left (posix.step allow) segs res = rev segs ++ res.
Proof.
  revert res. induction segs as [|s segs IH]; intros res; [done|].
  cbn [forallb fold_left]. intros [[[H1 H2]%andb_prop H3]%andb_prop H]%andb_prop.
  rewrite IH by done. unfold posix.step.
  apply negb_true_iff in H1, H2, H3. rewrite H1, H2, H3. simpl.
  by rewrite <- app_assoc.
Qed.

Lemma trailingSeparator_last s cur :
  posix.trailingSeparator s = true → last (path.segments_go cur s) = Some "".
Proof.
  revert cur. induction s as [|c s IH]; intros cur; [done|].
  destruct s as [|d r].
  - simpl. intros ->%bool_decide_eq_true. by rewrite decide_True.
  - intros H. change (posix.trailingSeparator (String d r) = true) in H.
    remember (String d r) as s' eqn:Es.
    cbn [path.segments_go]. case_decide.
    + destruct (segments_go_cons "" s') as (x & l & E).
      rewrite E. cbn [last]. rewrite <- E. by apply IH.
    + by apply IH.
Qed.

Lemma tidy_no_trailingSeparator s :
  posix.tidy s = true → posix.trailingSeparator s = false.
Proof.
  intros Ht. destruct (posix.trailingSeparator s) eqn:E; [|done].
  apply (trailingSeparator_last s "") in E. unfold posix.tidy in Ht.
  rewrite forallb_forall in Ht. apply last_Some_elem_of in E.
  apply list_elem_of_In, Ht in E. done.
Qed.

Lemma tidy_nonempty s : posix.tidy s = true → s ≠ "".
Proof. by intros H ->. Qed.

Lemma trailingSeparator_app a b :
  b ≠ "" → posix.trailingSeparator (a +:+ b) = posix.trailingSeparator b.
Proof.
  intros Hb. induction a as [|c a IH]; [done|].
  rewrite Str_app_cons. cbn [posix.trailingSeparator].
  destruct (a +:+ b) eqn:E; [|done].
  destruct a; [|done]. by rewrite Str_app_nil_l in E.
Qed.

(** On operands in normal form [join] is concatenation. *)
Lemma posix_join_tidy a b :
  posix.tidy_abs a = true → posix.tidy b = true →
  posix.join [a; b] = a +:+ "/" +:+ b.
Proof.
  intros Ha Hb. destruct a as [|c a']; [done|].
  simpl in Ha.
  destruct (decide (c = "/"%char)) as [->|Hc];
    [|by destruct c as [[] [] [] [] [] [] [] []]].
  pose proof (tidy_nonempty _ Hb) as Hbne.
  unfold posix.join. cbn [filter list_filter].
  rewrite !decide_True by done.
  change (path.unsegments [String "/" a'; b]) with (String "/" a' +:+ "/" +:+ b).
  unfold posix.normalize. rewrite Str_app_cons. cbn [Str.is_empty path.isAbsolute negb].
  rewrite andb_false_r.
  assert (posix.normalizeString (String "/" (a' +:+ "/" +:+ b)) false
          = a' +:+ "/" +:+ b) as ->.
  { unfold posix.normalizeString. cbn [path.segments_go].
    rewrite decide_True by done. cbn [fold_left]. unfold posix.step at 2.
    cbn [bool_decide decide_rel orb].
    rewrite (bool_decide_eq_true_2 (String.rev "" = "")) by done. cbn [orb].
    rewrite segments_go_app.
    rewrite fold_step_tidy by (unfold posix.tidy in *; rewrite forallb_app; by rewrite Ha, Hb).
    rewrite app_nil_r, rev_involutive, <- segments_go_app.
    by rewrite unsegments_segments_go. }
  change (String "/" (a' +:+ "/" +:+ b)) with ("/" +:+ (a' +:+ "/" +:+ b)).
  rewrite <- !Str_app_assoc.
  rewrite trailingSeparator_app by done.
  rewrite tidy_no_trailingSeparator by done. by rewrite andb_false_r.
Qed.

(** On an absolute path and a relative path in normal form the
    two-operand [path.join] is the [join] of the std library. *)
Lemma path_join_posix a b :
  posix.tidy_abs a = true → posix.tidy b = true →
  path.join a b = posix.join [a; b].
Proof.
  intros Ha Hb. rewrite posix_join_tidy by done. unfold path.join.
  assert (path.is_dot b = false) as ->.
  { destruct b as [|c [|c' b]]; [done| |by destruct c as [[] [] [] [] [] [] [] []]].
    destruct c as [[] [] [] [] [] [] [] []]; try done. }
  destruct a as [|c a]; [done|]. simpl in Ha.
  by destruct c as [[] [] [] [] [] [] [] []], a.
Qed.

(* ================================================================== *)
(** * Facts about file-system trees *)
(* ================================================================== *)

Lemma Tree_remove_lookup d (m : FS) p :
  Tree.remove d m !! p = if path.under d p then None else m !! p.
Proof.
  unfold Tree.remove. destruct (path.under d p) eqn:U.
  - apply map_lookup_filter_None. right. intros n _. simpl. congruence.
  - destruct (m !! p) as [n|] eqn:E.
    + apply map_lookup_filter_Some. done.
    + apply map_lookup_filter_None. by left.
Qed.

Lemma Tree_rebase_lookup stamp src dst (m : FS) p :
  Tree.rebase stamp src dst m !! p =
  match path.rel dst p with
  | Some r => stamp <$> m !! (src +:+ r)
  | None => None
  end.
Proof.
  unfold Tree.rebase. revert p.
  apply (map_fold_weak_ind (λ acc m, ∀ p, acc !! p =
     match path.rel dst p with
     | Some r => stamp <$> m !! (src +:+ r) | None => None end)).
  - intros p. rewrite lookup_empty. destruct (path.rel dst p); [|done].
    by rewrite lookup_empty.
  - intros k n m' acc Hk IH p.
    destruct (path.rel src k) as [r0|] eqn:Ek.
    + apply path_rel_Some in Ek as [-> B0].
      destruct (path.rel dst p) as [r|] eqn:Ep.
      * apply path_rel_Some in Ep as [-> B].
        destruct (decide (r0 = r)) as [->|Hne].
        -- by rewrite !lookup_insert_eq.
        -- rewrite !lookup_insert_ne.
           ++ rewrite IH. by rewrite path_rel_app.
           ++ intros H. by apply (inj (String.app src)) in H.
           ++ intros H. by apply (inj (String.app dst)) in H.
      * rewrite lookup_insert_ne; [by rewrite IH, Ep|].
        intros <-. by rewrite path_rel_app in Ep.
    + rewrite IH. destruct (path.rel dst p) as [r|] eqn:Ep; [|done].
      rewrite lookup_insert_ne; [done|].
      intros ->. apply path_rel_Some in Ep as [_ ?].
      by rewrite path_rel_app in Ek.
Qed.

Lemma Tree_parents_length fuel d k :
  k ∈ Tree.parents fuel d → (String.length k ≤ String.length d)%nat.
Proof.
  revert d; induction fuel as [|n IH]; intros d; simpl; [by intros ?%elem_of_nil|].
  intros [->|H]%elem_of_cons; [done|].
  destruct (path.split_last d) as [[p b]|] eqn:E; [|by apply elem_of_nil in H].
  destruct (Str.is_empty p); [by apply elem_of_nil in H|].
  apply IH in H. apply path_split_last_app in E. subst d.
  rewrite Str_length_app. lia.
Qed.

Lemma Tree_mkdirs_lookup_notin t l (m : FS) p :
  p ∉ l → Tree.mkdirs t l m !! p = m !! p.
Proof.
  induction l as [|k l IH]; simpl; [done|].
  intros [Hne Hl]%not_elem_of_cons.
  destruct (Tree.mkdirs t l m !! k); [by apply IH|].
  rewrite lookup_insert_ne; [by apply IH|done].
Qed.

Lemma Tree_mkdirs_lookup_Some t l (m : FS) p n :
  m !! p = Some n → Tree.mkdirs t l m !! p = Some n.
Proof.
  intros Hp. induction l as [|k l IH]; simpl; [done|].
  destruct (Tree.mkdirs t l m !! k) eqn:E; [done|].
  rewrite lookup_insert_ne; [done|]. intros ->. congruence.
Qed.

(* ================================================================== *)
(** * Running computations *)
(* ================================================================== *)

Ltac munfold :=
  unfold mbind, M_bind, fmap, M_fmap, mret, M_ret, bind, ret, throw,
    try_catch in *.

Lemma bind_run {A B} (m : M A) (k : A → M B) w :
  (m ≫= k) w = match m w with Ok a w' => k a w' | Throw e w' => Throw e w' end.
Proof. reflexivity. Qed.

Lemma find_existing_run l w :
  find_existing l w = Ok (List.find (λ p, bool_decide (is_Some (fs w !! p))) l) w.
Proof.
  induction l as [|p l IH]; simpl; [done|].
  munfold. unfold existsSync at 1. destruct (bool_decide _); [done|apply IH].
Qed.

Lemma projectConfigFile_run dir w :
  projectConfigFile dir w = Ok (configFile (fs w) dir) w.
Proof. apply find_existing_run. Qed.

Lemma configFile_exists (m : FS) dir f :
  configFile m dir = Some f → is_Some (m !! f).
Proof.
  unfold configFile. intros H. apply find_some in H as [_ H].
  by apply bool_decide_eq_true in H.
Qed.

Section IndexFacts.

Context (C : IndexCollaborators).

(** [readInputTargetIndex], step by step. *)
Lemma readInputTargetIndex_run projectDir input w :
  readInputTargetIndex C projectDir input w =
  match fs w !! inputTargetIndexFile C projectDir input with
  | None => Ok None w
  | Some idx =>
      match fs w !! path.join projectDir input with
      | None => Throw (NotFound (path.join projectDir input)) w
      | Some inp =>
          if upToDate (Deno.mtime (Deno.info inp)) (Deno.mtime (Deno.info idx))
                      (projMod_of (fs w) projectDir)
          then match idx with
               | File _ data =>
                   match JSON.parse data with
                   | Some v => Ok (Some v) w
                   | None => Ok None w
                   end
               | Dir _ => Ok None w
               end
          else Ok None w
      end
  end.
Proof.
  unfold readInputTargetIndex. rewrite bind_run. unfold existsSync at 1.
  destruct (fs w !! inputTargetIndexFile C projectDir input) as [idx|] eqn:Eidx.
  2: { rewrite bool_decide_eq_false_2; [done|]. by intros [? ?]. }
  rewrite bool_decide_eq_true_2 by eauto.
  munfold. unfold Deno.statSync at 1.
  destruct (fs w !! path.join projectDir input) as [inp|] eqn:Einp; [|done].
  unfold Deno.statSync at 1. rewrite Eidx.
  rewrite projectConfigFile_run. unfold projMod_of, upToDate.
  destruct (configFile (fs w) projectDir) as [f|] eqn:Ecfg.
  - destruct (configFile_exists _ _ _ Ecfg) as [n Hn].
    unfold Deno.statSync, mtime_at. rewrite Hn. simpl.
    destruct (_ && _ && _ && _); [|done].
    unfold Deno.readTextFileSync. rewrite Eidx.
    destruct idx as [t data|t]; [|done]. by destruct (JSON.parse data).
  - simpl. destruct (_ && _ && _ && _); [|done].
    unfold Deno.readTextFileSync. rewrite Eidx.
    destruct idx as [t data|t]; [|done]. by destruct (JSON.parse data).
Qed.

(** The freshness test, in terms of the time stamps. *)
Lemma upToDate_true inputMod indexMod projMod :
  upToDate inputMod indexMod projMod = true ↔
  ∃ i x, inputMod = Some i ∧ indexMod = Some x ∧ i ≤ x
         ∧ (∀ p, projMod = ConfigMod (Some p) → p ≤ x).
Proof.
  unfold upToDate, date_ge.
  destruct inputMod as [i|], indexMod as [x|]; simpl;
    try (split; [done|intros (?&?&?&?&?); congruence]).
  split.
  - intros [H1 H2]%andb_prop. apply Z.leb_le in H1.
    exists i, x. repeat split; [done|]. intros p ->. simpl in H2.
    by apply Z.leb_le in H2.
  - intros (i'&x'&[= <-]&[= <-]&Hle&Hp). apply andb_true_intro. split.
    + by apply Z.leb_le.
    + destruct projMod as [|[p|]]; simpl; [done| |done].
      apply Z.leb_le. by apply Hp.
Qed.

(** When [readInputTargetIndex] hands out a value. *)
Lemma readInputTargetIndex_Some projectDir input w v w' :
  readInputTargetIndex C projectDir input w = Ok (Some v) w' ↔
  w' = w ∧ cached C (fs w) projectDir input v.
Proof.
  rewrite readInputTargetIndex_run. unfold cached, mtime_at.
  destruct (fs w !! inputTargetIndexFile C projectDir input) as [idx|] eqn:Eidx.
  2: { split; [done|]. intros (_&?&?&?&?&_). done. }
  destruct (fs w !! path.join projectDir input) as [inp|] eqn:Einp.
  2: { split; [done|]. intros (_&?&?&?&_&?&_). done. }
  destruct (upToDate _ _ _) eqn:Eup.
  - apply upToDate_true in Eup as (i&x&Hi&Hx&Hle&Hp).
    destruct idx as [t data|t]; simpl in *.
    + subst t. destruct (JSON.parse data) as [v'|] eqn:Ep.
      * split.
        -- intros [= <- <-]. split; [done|]. exists x, i, data.
           rewrite Hi. repeat split; try done.
           intros f p Hf Hm. apply Hp. unfold projMod_of. rewrite Hf.
           unfold mtime_at. by rewrite Hm.
        -- intros (-> & x' & i' & data' & [= <- <-] & _ & _ & _ & Hv).
           congruence.
      * split; [done|]. intros (_ & x' & i' & data' & [= <- <-] & _ & _ & _ & Hv).
        congruence.
    + split; [done|]. intros (_&?&?&?&?&_). done.
  - split; [done|].
    intros (_ & x & i & data & [= ->] & Hi & Hle & Hp & _). simpl in *.
    assert (upToDate (Deno.mtime (Deno.info inp)) (Some x)
              (projMod_of (fs w) projectDir) = true) as Hup; [|congruence].
    apply upToDate_true. exists i, x. repeat split; try done.
    + by injection Hi.
    + intros p. unfold projMod_of.
      destruct (configFile (fs w) projectDir) as [f|] eqn:Ef; [|done].
      intros [= Hm]. apply (Hp f p eq_refl). unfold mtime_at in *.
      destruct (fs w !! f); simpl in *; [|done]. by rewrite Hm.
Qed.

End IndexFacts.

(* ================================================================== *)
(** * The index cache ([readInputTargetIndex], [inputTargetIndex]) *)
(* ================================================================== *)

Section IndexCache.

Context (C : IndexCollaborators).

Lemma readInputTargetIndex_missing projectDir input w :
  fs w !! inputTargetIndexFile C projectDir input = None →
  readInputTargetIndex C projectDir input w = Ok None w.
Proof. intros H. by rewrite readInputTargetIndex_run, H. Qed.

(** With the input on disk the cache lookup never throws and never
    changes the world. *)
Lemma readInputTargetIndex_total projectDir input w :
  is_Some (fs w !! path.join projectDir input) →
  ∃ r, readInputTargetIndex C projectDir input w = Ok r w.
Proof.
  intros [inp Hinp]. rewrite readInputTargetIndex_run, Hinp.
  destruct (fs w !! inputTargetIndexFile C projectDir input) as [[t data|t]|];
    [| |eauto]; destruct (upToDate _ _ _); eauto.
  destruct (JSON.parse data); eauto.
Qed.

Lemma inputTargetIndex_run project input w engine :
  indexable C (fs w) project input engine →
  inputTargetIndex C project input w =
  match readInputTargetIndex C (dir project) input w with
  | Ok targetIndex w' =>
      if truthy_opt targetIndex then Ok targetIndex w'
      else indexInput C project input (path.join (dir project) input) engine w'
  | Throw e w' => Throw e w'
  end.
Proof.
  intros [Hfile Heng]. unfold inputTargetIndex. rewrite bind_run.
  unfold existsSync at 1.
  destruct (fs w !! path.join (dir project) input) as [[t data|t]|] eqn:E;
    try done.
  rewrite bool_decide_eq_true_2 by eauto.
  rewrite bind_run. munfold. unfold Deno.statSync at 1. rewrite E. simpl.
  rewrite Heng. destruct (readInputTargetIndex _ _ _ _) as [a w'|]; [|done].
  by destruct (truthy_opt a).
Qed.

(** A truthy cached entry is returned as it is: nothing is regenerated,
    nothing is written. *)
Lemma inputTargetIndex_reuse project input w engine v :
  indexable C (fs w) project input engine →
  cached C (fs w) (dir project) input v →
  JSON.truthy v = true →
  inputTargetIndex C project input w = Ok (Some v) w.
Proof.
  intros Hi Hc Ht. rewrite (inputTargetIndex_run _ _ _ _ Hi).
  assert (readInputTargetIndex C (dir project) input w = Ok (Some v) w) as ->.
  { by apply readInputTargetIndex_Some. }
  simpl. by rewrite Ht.
Qed.

(** Without a truthy cached entry the index is built anew. *)
Lemma inputTargetIndex_regenerate project input w engine :
  indexable C (fs w) project input engine →
  (∀ v, cached C (fs w) (dir project) input v → JSON.truthy v = false) →
  inputTargetIndex C project input w =
  indexInput C project input (path.join (dir project) input) engine w.
Proof.
  intros Hi Hc. rewrite (inputTargetIndex_run _ _ _ _ Hi).
  destruct (readInputTargetIndex_total (dir project) input w) as [r Hr].
  { destruct Hi as [Hf _]. destruct (fs w !! _); [eauto|done]. }
  rewrite Hr. destruct r as [v|]; [|done].
  apply readInputTargetIndex_Some in Hr as [_ Hv]. simpl. by rewrite (Hc v Hv).
Qed.

(** Regeneration asks the collaborators and persists what it returns. *)
Lemma indexInput_run project input engine w formats markdown :
  renderFormats C (path.join (dir project) input) "all" project (fs w)
    = inr formats →
  partitionedMarkdown engine (path.join (dir project) input) (fs w)
    = inr markdown →
  Tree.is_dir (fs w !! inputTargetIndexFile C (dir project) input) = false →
  indexInput C project input (path.join (dir project) input) engine w =
  Ok (Some (indexEntry C formats markdown))
     (mkWorld
        (<[inputTargetIndexFile C (dir project) input :=
             File (clock w) (JSON.stringify (indexEntry C formats markdown))]> (fs w))
        (env w) (cwd w) (clock w)
        (trace w ++ [CalledRenderFormats (path.join (dir project) input);
                     CalledPartitionedMarkdown (path.join (dir project) input)])).
Proof.
  intros Hf Hm Hd. unfold indexInput. rewrite bind_run. unfold read at 1.
  rewrite Hf. rewrite bind_run. unfold read at 1. simpl. rewrite Hm.
  munfold. unfold Deno.writeTextFileSync. simpl.
  destruct (fs w !! inputTargetIndexFile C (dir project) input) as [[?|?]|];
    try done; unfold set_fs, add_event; simpl; by rewrite <- app_assoc.
Qed.

End IndexCache.

Section IndexClaims.

Context (C : IndexCollaborators).

(** Every way [indexInput] can go. *)
Lemma indexInput_cases project input engine w :
  indexInput C project input (path.join (dir project) input) engine w =
  let inputFile := path.join (dir project) input in
  let indexFile := inputTargetIndexFile C (dir project) input in
  let w1 := add_event (CalledRenderFormats inputFile) w in
  let w2 := add_event (CalledPartitionedMarkdown inputFile) w1 in
  match renderFormats C inputFile "all" project (fs w) with
  | inl e => Throw e w1
  | inr formats =>
      match partitionedMarkdown engine inputFile (fs w) with
      | inl e => Throw e w2
      | inr markdown =>
          match fs w !! indexFile with
          | Some (Dir _) => Throw (IsADirectory indexFile) w2
          | _ =>
              Ok (Some (indexEntry C formats markdown))
                 (set_fs (insert indexFile
                            (File (clock w)
                               (JSON.stringify (indexEntry C formats markdown))))
                         w2)
          end
      end
  end.
Proof.
  unfold indexInput. rewrite bind_run. unfold read at 1.
  destruct (renderFormats C _ _ _ _) as [e|formats]; [done|].
  rewrite bind_run. unfold read at 1. simpl.
  destruct (partitionedMarkdown engine _ _) as [e|markdown]; [done|].
  munfold. unfold Deno.writeTextFileSync. simpl.
  by destruct (fs w !! inputTargetIndexFile C (dir project) input) as [[?|?]|].
Qed.

Lemma inputTargetIndex_not_indexable project input w :
  (∀ engine, ¬ indexable C (fs w) project input engine) →
  inputTargetIndex C project input w = Ok None w.
Proof.
  intros H. unfold inputTargetIndex. rewrite bind_run. unfold existsSync at 1.
  destruct (fs w !! path.join (dir project) input) as [[t data|t]|] eqn:E.
  - rewrite bool_decide_eq_true_2 by eauto. rewrite bind_run. munfold.
    unfold Deno.statSync. rewrite E. simpl.
    destruct (fileExecutionEngine C _) as [engine|] eqn:Eng; [|done].
    destruct (H engine). split; [by rewrite E|done].
  - rewrite bool_decide_eq_true_2 by eauto. rewrite bind_run. munfold.
    unfold Deno.statSync. by rewrite E.
  - rewrite bool_decide_eq_false_2; [done|]. by intros [? ?].
Qed.

(** C1 (as amended).  [readInputTargetIndex] hands out a value exactly
    when it is cached: the cache file is a regular file whose reported
    time stamp is not older than the reported time stamp of the input
    nor than the reported time stamp of the project configuration file
    (if there is one and it reports a time stamp), and the text of the
    cache file deserialises to that value.  [inputTargetIndex] returns a
    truthy cached value as it is, leaving the world untouched; without
    one it takes the regeneration path, which asks the collaborators
    and writes the new entry to the cache file.  Where the cache file
    deserialises and the configuration file reports its time stamp,
    being cached is the time-stamp condition of the specification. *)
Theorem readInputTargetIndex_reuses_iff_cached
    (project : ProjectContext) (input : string) (w : World)
    (engine : ExecutionEngine) :
  indexable C (fs w) project input engine →
  (∀ v w', readInputTargetIndex C (dir project) input w = Ok (Some v) w'
           ↔ w' = w ∧ cached C (fs w) (dir project) input v)
  ∧ (∀ v, cached C (fs w) (dir project) input v → JSON.truthy v = true →
          inputTargetIndex C project input w = Ok (Some v) w)
  ∧ ((∀ v, cached C (fs w) (dir project) input v → JSON.truthy v = false) →
     inputTargetIndex C project input w
       = indexInput C project input (path.join (dir project) input) engine w
     ∧ ∀ formats markdown,
         renderFormats C (path.join (dir project) input) "all" project (fs w)
           = inr formats →
         partitionedMarkdown engine (path.join (dir project) input) (fs w)
           = inr markdown →
         Tree.is_dir (fs w !! inputTargetIndexFile C (dir project) input) = false →
         ∃ w', inputTargetIndex C project input w
                 = Ok (Some (indexEntry C formats markdown)) w'
               ∧ fs w' !! inputTargetIndexFile C (dir project) input
                 = Some (File (clock w)
                           (JSON.stringify (indexEntry C formats markdown)))
               ∧ new_events w w'
                   [CalledRenderFormats (path.join (dir project) input);
                    CalledPartitionedMarkdown (path.join (dir project) input)])
  ∧ (∀ t data v,
       fs w !! inputTargetIndexFile C (dir project) input = Some (File t data) →
       JSON.parse data = Some v →
       (∀ f, configFile (fs w) (dir project) = Some f →
             ∃ p, mtime_at (fs w) f = Some (Some p)) →
       cached C (fs w) (dir project) input v
       ↔ timestamps_valid C (fs w) (dir project) input).
Proof.
  intros Hi. split; [|split; [|split]].
  - intros v w'. apply readInputTargetIndex_Some.
  - intros v Hv Ht. by eapply inputTargetIndex_reuse.
  - intros Hnone. split; [by apply inputTargetIndex_regenerate|].
    intros formats markdown Hf Hm Hd.
    rewrite (inputTargetIndex_regenerate _ _ _ _ _ Hi Hnone).
    rewrite (indexInput_run _ _ _ _ _ _ _ Hf Hm Hd).
    eexists. split; [done|]. simpl. split; [by rewrite lookup_insert_eq|done].
  - intros t data v Hidx Hparse Hcfg. unfold cached, timestamps_valid, mtime_at.
    rewrite Hidx. simpl. split.
    + intros (x & i & data' & [= -> <-] & Hin & Hle & Hp & _).
      exists x, i. repeat split; try done.
      intros f Hf. destruct (Hcfg f Hf) as [p Hp']. exists p. split; [done|].
      by apply (Hp f p).
    + intros (x & i & [= ->] & Hin & Hle & Hp). exists x, i, data.
      repeat split; try done. intros f p Hf Hm.
      destruct (Hp f Hf) as (p' & Hp' & ?). unfold mtime_at in *. congruence.
Qed.


(** C7.  A cache file whose text does not deserialise is a cache miss:
    as long as the collaborators do not look at the cache file,
    [inputTargetIndex] returns and throws exactly what it returns and
    throws when the cache file is missing, with the same calls to the
    collaborators; the lookup in the cache answers [undefined] instead
    of throwing the failed parse.  When [inputTargetIndex] returns an
    entry, the entry has been written to the cache file and the world is
    the one reached from the missing cache file. *)
Theorem corrupt_cache_behaves_as_missing
    (project : ProjectContext) (input : string) (w : World)
    (t : option Z) (data : JSON.Source) :
  fs w !! inputTargetIndexFile C (dir project) input = Some (File t data) →
  JSON.parse data = None →
  inputTargetIndexFile C (dir project) input ≠ path.join (dir project) input →
  ignore_cache C project input (fs w) →
  returned (inputTargetIndex C project input w)
    = returned (inputTargetIndex C project input (without_cache C project input w))
  ∧ thrown (inputTargetIndex C project input w)
    = thrown (inputTargetIndex C project input (without_cache C project input w))
  ∧ trace (final (inputTargetIndex C project input w))
    = trace (final (inputTargetIndex C project input
                      (without_cache C project input w)))
  ∧ (is_Some (fs w !! path.join (dir project) input) →
     readInputTargetIndex C (dir project) input w = Ok None w)
  ∧ (∀ index,
       returned (inputTargetIndex C project input w) = Some (Some index) →
       final (inputTargetIndex C project input w)
         = final (inputTargetIndex C project input
                    (without_cache C project input w))
       ∧ fs (final (inputTargetIndex C project input w))
           !! inputTargetIndexFile C (dir project) input
         = Some (File (clock w) (JSON.stringify index))).
Proof.
  intros Hidx Hparse Hne [Hrf Hpm].
  assert (is_Some (fs w !! path.join (dir project) input) →
          readInputTargetIndex C (dir project) input w = Ok None w) as Hread.
  { intros [inp Hinp]. rewrite readInputTargetIndex_run, Hidx, Hinp, Hparse.
    by destruct (upToDate _ _ _). }
  set (inputFile := path.join (dir project) input) in *.
  set (indexFile := inputTargetIndexFile C (dir project) input) in *.
  set (w0 := without_cache C project input w).
  assert (fs w0 !! inputFile = fs w !! inputFile) as Hin0.
  { unfold w0, without_cache. simpl. by apply lookup_delete_ne. }
  assert (fs w0 !! indexFile = None) as Hidx0.
  { unfold w0, without_cache. simpl. apply lookup_delete_eq. }
  destruct (Tree.is_file (fs w !! inputFile)) eqn:Hfile;
    [destruct (fileExecutionEngine C inputFile) as [engine|] eqn:Heng|].
  - (* the input is indexable: both runs regenerate *)
    assert (indexable C (fs w) project input engine) as Hi by done.
    assert (indexable C (fs w0) project input engine) as Hi0.
    { split; [|done]. fold inputFile. by rewrite Hin0. }
    rewrite (inputTargetIndex_regenerate C _ _ _ _ Hi).
    2: { intros v (x & i & data' & Hidx' & _ & _ & _ & Hv).
         fold indexFile in Hidx'. congruence. }
    rewrite (inputTargetIndex_regenerate C _ _ _ _ Hi0).
    2: { intros v (x & i & data' & Hidx' & _). fold indexFile in Hidx'.
         congruence. }
    rewrite !indexInput_cases. fold inputFile indexFile. cbv zeta.
    replace (fs w0) with (delete indexFile (fs w)) by done.
    rewrite Hrf, (Hpm engine eq_refl), lookup_delete_eq, Hidx.
    destruct (renderFormats C inputFile "all" project (fs w)) as [e|formats].
    { simpl. repeat split; try done. }
    destruct (partitionedMarkdown engine inputFile (fs w)) as [e|markdown].
    { simpl. repeat split; try done. }
    simpl. repeat split; try done.
    + injection H as <-.
      unfold set_fs, add_event, w0, without_cache, set_fs. simpl.
      f_equal. by rewrite insert_delete_eq.
    + injection H as <-. by rewrite lookup_insert_eq.
  - (* no engine claims the input *)
    rewrite !inputTargetIndex_not_indexable; [done| |].
    + intros engine [_ ?]. unfold inputFile in *. congruence.
    + intros engine [_ ?]. unfold inputFile in *. congruence.
  - (* the input is missing or a directory *)
    rewrite !inputTargetIndex_not_indexable; [done| |].
    + intros engine [? _]. unfold inputFile in *. congruence.
    + intros engine [? _]. unfold inputFile in *. congruence.
Qed.

End IndexClaims.

(** ** The examples of the specification, and the claim as stated *)

Lemma sample_indexable w :
  Tree.is_file (fs w !! "/proj/a.qmd") = true →
  indexable Sample.index_collaborators (fs w) Sample.project "a.qmd" Sample.engine.
Proof. intros H. split; [exact H|reflexivity]. Qed.

(** Cache 100, input 50, configuration 40: reused, nothing regenerated;
    cache 100, input 150: regenerated and written back. *)
Lemma readInputTargetIndex_reuses_iff_cached_witness :
  inputTargetIndex Sample.index_collaborators Sample.project "a.qmd"
    SampleWorlds.fresh = Ok (Some Sample.entry) SampleWorlds.fresh
  ∧ inputTargetIndex Sample.index_collaborators Sample.project "a.qmd"
      SampleWorlds.stale
    = indexInput Sample.index_collaborators Sample.project "a.qmd" "/proj/a.qmd"
        Sample.engine SampleWorlds.stale.
Proof.
  split.
  - refine (proj1 (proj2 (readInputTargetIndex_reuses_iff_cached
              Sample.index_collaborators Sample.project "a.qmd"
              SampleWorlds.fresh Sample.engine _)) Sample.entry _ _).
    + apply sample_indexable. vm_compute. reflexivity.
    + exists 100, 50, (JSON.Serialized Sample.entry).
      split; [vm_compute; reflexivity|]. split; [vm_compute; reflexivity|].
      split; [lia|]. split; [|reflexivity].
      intros f p Hf Hm. vm_compute in Hf. injection Hf as <-.
      vm_compute in Hm. injection Hm as <-. lia.
    + reflexivity.
  - refine (proj1 (proj1 (proj2 (proj2 (readInputTargetIndex_reuses_iff_cached
              Sample.index_collaborators Sample.project "a.qmd"
              SampleWorlds.stale Sample.engine _))) _)).
    + apply sample_indexable. vm_compute. reflexivity.
    + intros v (x & i & data & Hidx & Hin & Hle & _).
      vm_compute in Hidx. injection Hidx as <- _.
      vm_compute in Hin. injection Hin as <-. lia.
Defined.

Example stale_cache_is_regenerated :
  inputTargetIndex Sample.index_collaborators Sample.project "a.qmd"
    SampleWorlds.stale
  = Ok (Some Sample.entry) (SampleWorlds.regenerated SampleWorlds.stale).
Proof. vm_compute. reflexivity. Qed.

(** C1 as stated fails: with fresh time stamps (cache 100, input 50,
    configuration 40) but a cache file that does not deserialise, the
    time-stamp condition holds and still no entry is handed out; the
    entry is regenerated. *)
Lemma fresh_timestamps_do_not_imply_reuse :
  timestamps_valid Sample.index_collaborators (fs SampleWorlds.corrupt)
    "/proj" "a.qmd"
  ∧ readInputTargetIndex Sample.index_collaborators "/proj" "a.qmd"
      SampleWorlds.corrupt = Ok None SampleWorlds.corrupt
  ∧ inputTargetIndex Sample.index_collaborators Sample.project "a.qmd"
      SampleWorlds.corrupt
    = Ok (Some Sample.entry) (SampleWorlds.regenerated SampleWorlds.corrupt)
  ∧ ¬ ((∃ v, readInputTargetIndex Sample.index_collaborators "/proj" "a.qmd"
               SampleWorlds.corrupt = Ok (Some v) SampleWorlds.corrupt)
       ↔ timestamps_valid Sample.index_collaborators (fs SampleWorlds.corrupt)
           "/proj" "a.qmd").
Proof.
  assert (timestamps_valid Sample.index_collaborators (fs SampleWorlds.corrupt)
            "/proj" "a.qmd") as Hvalid.
  { exists 100, 50. split; [vm_compute; reflexivity|].
    split; [vm_compute; reflexivity|]. split; [lia|].
    intros f Hf. vm_compute in Hf. injection Hf as <-. exists 40.
    split; [vm_compute; reflexivity|lia]. }
  split; [exact Hvalid|]. split; [vm_compute; reflexivity|].
  split; [vm_compute; reflexivity|].
  intros [_ H]. destruct (H Hvalid) as [v Hv]. vm_compute in Hv. discriminate.
Qed.


Lemma corrupt_cache_behaves_as_missing_witness :
  returned (inputTargetIndex Sample.index_collaborators Sample.project "a.qmd"
              SampleWorlds.corrupt)
  = returned (inputTargetIndex Sample.index_collaborators Sample.project "a.qmd"
                (without_cache Sample.index_collaborators Sample.project "a.qmd"
                   SampleWorlds.corrupt))
  ∧ returned (inputTargetIndex Sample.index_collaborators Sample.project "a.qmd"
                SampleWorlds.corrupt) = Some (Some Sample.entry).
Proof.
  split.
  - refine (proj1 (corrupt_cache_behaves_as_missing
              Sample.index_collaborators Sample.project "a.qmd"
              SampleWorlds.corrupt (Some 100) (JSON.Malformed "{") _ _ _ _)).
    + vm_compute. reflexivity.
    + reflexivity.
    + vm_compute. discriminate.
    + split; [reflexivity|]. intros engine Heng. injection Heng as <-. reflexivity.
  - vm_compute. reflexivity.
Defined.

(* ================================================================== *)
(** * Events and the environment along a run *)
(* ================================================================== *)

Lemma bind_Ok {A B} (m : M A) (k : A → M B) w r w' :
  (m ≫= k) w = Ok r w' → ∃ a w1, m w = Ok a w1 ∧ k a w1 = Ok r w'.
Proof.
  rewrite bind_run. destruct (m w) as [a w1|e w1]; [eauto|done].
Qed.

Lemma bind_Throw {A B} (m : M A) (k : A → M B) w e w' :
  (m ≫= k) w = Throw e w' →
  m w = Throw e w' ∨ ∃ a w1, m w = Ok a w1 ∧ k a w1 = Throw e w'.
Proof.
  rewrite bind_run. destruct (m w) as [a w1|e1 w1]; [eauto|].
  intros [= -> ->]. by left.
Qed.

Lemma fmap_Ok {A B} (f : A → B) (m : M A) w r w' :
  (f <$> m) w = Ok r w' → ∃ a, m w = Ok a w' ∧ r = f a.
Proof.
  unfold fmap, M_fmap, bind, ret. destruct (m w) as [a w1|e w1]; [|done].
  intros [= <- <-]. eauto.
Qed.

Section Emits.

Context (P : Env → Event → Prop).

Lemma emits_silent {A} (m : M A) :
  (∀ w, env (final (m w)) = env w ∧ trace (final (m w)) = trace w) →
  emits P m.
Proof.
  intros H w. destruct (H w) as [He Ht]. split; [done|].
  exists []. by rewrite app_nil_r.
Qed.

Lemma emits_ret {A} (a : A) : emits P (ret a).
Proof. by apply emits_silent. Qed.

Lemma emits_throw {A} (e : Error) : emits P (throw (A:=A) e).
Proof. by apply emits_silent. Qed.

Lemma emits_bind {A B} (m : M A) (k : A → M B) :
  emits P m → (∀ a, emits P (k a)) → emits P (m ≫= k).
Proof.
  intros Hm Hk w. rewrite bind_run. destruct (Hm w) as [He (l & Ht & Hl)].
  destruct (m w) as [a w1|e w1]; simpl in *.
  - destruct (Hk a w1) as [He' (l' & Ht' & Hl')]. split; [congruence|].
    exists (l ++ l'). rewrite Ht', Ht, app_assoc. split; [done|].
    apply Forall_app. rewrite He in Hl'. done.
  - split; [done|]. eauto.
Qed.

Lemma emits_fmap {A B} (f : A → B) (m : M A) : emits P m → emits P (f <$> m).
Proof.
  intros Hm. apply (emits_bind m (λ a, ret (f a))); [done|].
  intros a. apply emits_ret.
Qed.

Lemma emits_log e : (∀ E, P E e) → emits P (log e).
Proof.
  intros H w. split; [done|]. exists [e]. split; [done|].
  apply Forall_singleton, H.
Qed.

Lemma emits_call {A} e (c : Collab A) : (∀ E, P E e) → emits P (call e c).
Proof.
  intros H w. unfold call. destruct (c (env w) (fs w)) as [[err|a] m]; simpl;
    (split; [done|]; exists [e]; split; [done|apply Forall_singleton, H]).
Qed.

Lemma emits_call_env {A} (e : option string → Event) (c : Collab A) :
  (∀ E, P E (e (E !! kQuartoProjectDir))) → emits P (call_env e c).
Proof.
  intros H w. unfold call_env, call.
  destruct (c (env w) (fs w)) as [[err|a] m]; simpl;
    (split; [done|]; eexists [_]; split; [done|apply Forall_singleton, H]).
Qed.

Lemma emits_read {A} e (r : Reader A) : (∀ E, P E e) → emits P (read e r).
Proof.
  intros H w. unfold read. destruct (r (fs w)) as [err|a]; simpl;
    (split; [done|]; exists [e]; split; [done|apply Forall_singleton, H]).
Qed.

Lemma emits_existsSync p : emits P (existsSync p).
Proof. by apply emits_silent. Qed.

Lemma emits_statSync p : emits P (Deno.statSync p).
Proof.
  apply emits_silent. intros w. unfold Deno.statSync. by destruct (fs w !! p).
Qed.

Lemma emits_realPathSync p : emits P (Deno.realPathSync p).
Proof.
  apply emits_silent. intros w. unfold Deno.realPathSync. by destruct (fs w !! p).
Qed.

Lemma emits_cwd : emits P Deno.cwd.
Proof. by apply emits_silent. Qed.

Lemma emits_removeSync p : emits P (Deno.removeSync p).
Proof.
  apply emits_silent. intros w. unfold Deno.removeSync. by destruct (fs w !! p).
Qed.

Lemma emits_renameSync src dst : emits P (Deno.renameSync src dst).
Proof.
  apply emits_silent. intros w. unfold Deno.renameSync.
  destruct (fs w !! src) as [n|]; [|done]. case_decide; [done|].
  destruct (path.under src dst); [done|].
  destruct n, (fs w !! dst) as [[?|?]|]; try done.
  by destruct (Tree.has_children dst (fs w)).
Qed.

Lemma emits_readDirSync d : emits P (Deno.readDirSync d).
Proof.
  apply emits_silent. intros w. unfold Deno.readDirSync.
  by destruct (fs w !! d) as [[?|?]|].
Qed.

Lemma emits_ensureDirSync d : emits P (ensureDirSync d).
Proof.
  apply emits_silent. intros w. unfold ensureDirSync. cbv zeta.
  by destruct (existsb _ _).
Qed.

Lemma emits_copySync src dst : emits P (copySync src dst).
Proof.
  apply emits_silent. intros w. unfold copySync.
  destruct (fs w !! src); [|done]. destruct (path.under src dst); [done|].
  by destruct (fs w !! dst).
Qed.

Lemma emits_forEach {A} (body : A → M unit) l :
  (∀ x, emits P (body x)) → emits P (forEach body l).
Proof.
  intros H. induction l as [|x l IH]; simpl; [apply emits_ret|].
  apply (emits_bind (body x) (λ _, forEach body l)); [apply H|done].
Qed.

Lemma emits_mapM {A B} (f : A → M B) l :
  (∀ x, emits P (f x)) → emits P (mapM f l).
Proof.
  intros H. induction l as [|x l IH]; simpl; [apply emits_ret|].
  apply (emits_bind (f x)); [apply H|]. intros y.
  apply (emits_bind (mapM f l)); [done|]. intros ys. apply emits_ret.
Qed.

Lemma emits_filterM {A} (p : A → M bool) l :
  (∀ x, emits P (p x)) → emits P (filterM p l).
Proof.
  intros H. induction l as [|x l IH]; simpl; [apply emits_ret|].
  apply emits_bind; [apply H|]. intros b.
  apply emits_bind; [done|]. intros ys. apply emits_ret.
Qed.

Lemma emits_foldM {A S} (body : S → A → M S) s l :
  (∀ s x, emits P (body s x)) → emits P (foldM body s l).
Proof.
  intros H. revert s. induction l as [|x l IH]; intros s; simpl;
    [apply emits_ret|].
  apply (emits_bind (body s x)); [apply H|]. intros s'. apply IH.
Qed.

End Emits.

(** Steps through a computation built from the operations above. *)
Ltac emits_step :=
  lazymatch goal with
  | |- emits _ (_ ≫= _) => apply emits_bind; [|intros ?]
  | |- emits _ (bind _ _) => apply emits_bind; [|intros ?]
  | |- emits _ (_ <$> _) => apply emits_fmap
  | |- emits _ (ret _) => apply emits_ret
  | |- emits _ (throw _) => apply emits_throw
  | |- emits _ (existsSync _) => apply emits_existsSync
  | |- emits _ (ensureDirSync _) => apply emits_ensureDirSync
  | |- emits _ (copySync _ _) => apply emits_copySync
  | |- emits _ (Deno.statSync _) => apply emits_statSync
  | |- emits _ (Deno.realPathSync _) => apply emits_realPathSync
  | |- emits _ Deno.cwd => apply emits_cwd
  | |- emits _ (Deno.removeSync _) => apply emits_removeSync
  | |- emits _ (Deno.renameSync _ _) => apply emits_renameSync
  | |- emits _ (Deno.readDirSync _) => apply emits_readDirSync
  | |- emits _ (forEach _ _) => apply emits_forEach; intros ?
  | |- emits _ (mapM _ _) => apply emits_mapM; intros ?
  | |- emits _ (filterM _ _) => apply emits_filterM; intros ?
  | |- emits _ (foldM _ _ _) => apply emits_foldM; intros ? ?
  | |- emits _ (if ?b then _ else _) => destruct b
  | |- emits _ (match ?o with Some _ => _ | None => _ end) => destruct o
  | |- emits _ (let '(_, _) := ?x in _) => destruct x
  end.

(* ================================================================== *)
(** * The shape of a run of [renderProject] *)
(* ================================================================== *)

Ltac inv_bind H :=
  let a := fresh "a" in
  let w1 := fresh "w" in
  let H1 := fresh "Hstep" in
  apply bind_Ok in H as (a & w1 & H1 & H).

Section RenderRun.

Context (C : RenderCollaborators).

(** [renderProject] is its preparation followed by the guarded render. *)
Lemma renderProject_run context options files w :
  renderProject C context options files w =
  match prepare C context options files w with
  | Ok p w1 =>
      try_finally (renderAndRelocate C context p)
                  (Deno.env_delete kQuartoProjectDir)
                  (set_env (insert kQuartoProjectDir (p_projDir p)) w1)
  | Throw e w1 => Throw e w1
  end.
Proof.
  unfold renderProject. rewrite bind_run.
  by destruct (prepare C context options files w).
Qed.

(** What the preparation settles. *)
Lemma prepare_Ok context options files w p w1 :
  prepare C context options files w = Ok p w1 →
  p_projType p = projectType C (project_setting kProjectType context)
  ∧ p_projDir p = dir context
  ∧ p_incremental p = incremental files
  ∧ p_alwaysExecuteFiles p = alwaysExecuteFiles options files
  ∧ p_outputDir p = project_setting kProjectOutputDir context
  ∧ p_outputDirAbsolute p
    = (λ o, path.join (dir context) o)
        <$> truthy_str (project_setting kProjectOutputDir context)
  ∧ p_libDir p = project_setting kProjectLibDir context.
Proof.
  unfold prepare. intros H.
  inv_bind H. unfold Deno.realPathSync in Hstep.
  destruct (fs w !! dir context); [|done]. injection Hstep as <- <-.
  inv_bind H. clear Hstep. inv_bind H. clear Hstep. destruct a0 as [files' options'].
  inv_bind H. clear Hstep. inv_bind H. clear Hstep. inv_bind H. clear Hstep.
  unfold ret in H. injection H as <- <-. done.
Qed.

Section Events.

Context (P : Env → Event → Prop).
Hypothesis Hplain : ∀ E e, plain e = true → P E e.

Lemma emits_relocateDir projDir out d copy :
  emits P (relocateDir projDir out d copy).
Proof. unfold relocateDir. repeat emits_step. Qed.

Lemma emits_keepFiles rf : emits P (keepFiles C rf).
Proof.
  unfold keepFiles. destruct (JSON.get _ _) as [[]|]; repeat emits_step.
Qed.

Lemma emits_resultFiles resourceDir declared :
  emits P (resultFiles resourceDir declared).
Proof. unfold resultFiles. repeat emits_step. Qed.

Lemma emits_relocateRenderedFile projDir out st rf :
  emits P (relocateRenderedFile C projDir out st rf).
Proof.
  unfold relocateRenderedFile. destruct st as [keep results].
  emits_step; [emits_step|]. emits_step; [emits_step|].
  emits_step; [apply emits_keepFiles|].
  emits_step.
  { destruct (rf_supporting rf); [|emits_step].
    emits_step. unfold copyDir, moveDir.
    destruct a1; apply emits_relocateDir. }
  emits_step.
  { destruct (0 <? _)%nat; [|emits_step]. apply emits_call; intros ?; by apply Hplain. }
  emits_step; [|emits_step].
  destruct (negb _); [|emits_step].
  emits_step; [apply emits_resultFiles|emits_step].
Qed.

Lemma emits_freezeLibDir context libDir formatLibDirs inc hidden :
  emits P (freezeLibDir C context libDir formatLibDirs inc hidden).
Proof.
  unfold freezeLibDir.
  emits_step; [apply emits_call; intros ?; by apply Hplain|].
  emits_step; apply emits_call; intros ?; by apply Hplain.
Qed.

Lemma emits_relocateLibDir projDir out libDir libDirFull inc keep :
  emits P (relocateLibDir projDir out libDir libDirFull inc keep).
Proof.
  unfold relocateLibDir, copyDir, moveDir. destruct inc.
  - emits_step; [emits_step|]. emits_step.
    + emits_step. destruct (Deno.entry_isDirectory _); [|emits_step].
      destruct keep; apply emits_relocateDir.
    + destruct (negb keep); emits_step.
  - destruct keep; apply emits_relocateDir.
Qed.

Lemma emits_copyResource context projDir out f :
  emits P (copyResource C context projDir out f).
Proof.
  unfold copyResource. emits_step; [emits_step|]. destruct a.
  - emits_step; [emits_step|]. destruct (Deno.isFile _); [|emits_step].
    apply emits_call; intros ?; by apply Hplain.
  - emits_step; [emits_step|]. destruct (negb _); [|emits_step].
    apply emits_log; intros ?; by apply Hplain.
Qed.

Lemma emits_relocateOutputs context options projType projDir out libDir inc frs :
  emits P (relocateOutputs C context options projType projDir out libDir inc frs).
Proof.
  unfold relocateOutputs.
  emits_step; [emits_step; apply emits_relocateRenderedFile|].
  destruct a as [keep results].
  emits_step.
  { destruct (truthy_str libDir); [|emits_step].
    emits_step; [emits_step|]. destruct a; [|emits_step].
    emits_step; [apply emits_freezeLibDir|].
    emits_step; [emits_step|].
    emits_step; [|apply emits_relocateLibDir].
    destruct a0; [apply emits_freezeLibDir|emits_step]. }
  emits_step; [|emits_step].
  emits_step. apply emits_copyResource.
Qed.

Lemma emits_renderAndRelocate context p :
  (∀ E, P E (CalledRenderFiles (p_files p) (p_options p)
               (p_alwaysExecuteFiles p) (E !! kQuartoProjectDir))) →
  (∀ E outputs, P E (CalledPostRender (p_incremental p) outputs
                       (E !! kQuartoProjectDir))) →
  emits P (renderAndRelocate C context p).
Proof.
  intros Hrender Hpost. unfold renderAndRelocate.
  emits_step; [by apply emits_call_env|].
  emits_step.
  { destruct (p_outputDirAbsolute p); [apply emits_relocateOutputs|emits_step]. }
  emits_step; [|emits_step].
  destruct (postRender _); [|emits_step].
  apply emits_call_env. intros E. apply Hpost.
Qed.

Lemma emits_normalizeTarget f : emits P (normalizeTarget f).
Proof. unfold normalizeTarget. repeat emits_step. Qed.

Lemma emits_prepare context options files :
  (∀ E, P E (CalledPreRender (E !! kQuartoProjectDir))) →
  emits P (prepare C context options files).
Proof.
  intros Hpre. unfold prepare.
  set (projType := projectType C (project_setting kProjectType context)).
  emits_step; [emits_step|].
  emits_step.
  { destruct (alwaysExecuteFiles options files), files; try (by emits_step).
    emits_step. emits_step. apply emits_normalizeTarget. }
  emits_step.
  { destruct a0, (alwaysExecuteFiles options files),
      (incrementalRenderAll projType); try (by emits_step).
    emits_step; [apply emits_call; intros ?; by apply Hplain|].
    destruct a0; emits_step. }
  destruct a1 as [files' options'].
  emits_step; [apply emits_call; intros ?; by apply Hplain|].
  emits_step.
  { destruct (preRender projType); [|emits_step]. by apply emits_call_env. }
  emits_step; [|emits_step].
  destruct (truthy_str (project_setting kProjectOutputDir context));
    simpl; emits_step.
Qed.

End Events.

End RenderRun.

Section RenderEvents.

Context (C : RenderCollaborators).

Lemma try_finally_trace {A} (m : M A) cleanup w :
  (∀ w', trace (cleanup w') = trace w') →
  trace (final (try_finally m cleanup w)) = trace (final (m w)).
Proof. intros H. unfold try_finally. destruct (m w); simpl; apply H. Qed.

(** The calls a run of [renderProject] makes to the renderer and to the
    post-render hook. *)
Lemma renderProject_events context options files w :
  ∃ l, trace (final (renderProject C context options files w)) = trace w ++ l
       ∧ Forall (as_published context options files) l.
Proof.
  rewrite renderProject_run.
  destruct (emits_prepare C
              (λ _ e, as_published context options files e ∧
                      ∀ f o a x, e ≠ CalledRenderFiles f o a x)
              (λ _ e, ltac:(by destruct e))
              context options files
              (λ _, ltac:(done)) w) as [_ (l1 & Ht1 & Hl1)].
  destruct (prepare C context options files w) as [p w1|e w1] eqn:Hprep.
  - apply prepare_Ok in Hprep as (_ & Hdir & Hinc & Halw & _).
    rewrite try_finally_trace by done.
    destruct (emits_renderAndRelocate C
                (λ E e, E !! kQuartoProjectDir = Some (dir context) →
                        as_published context options files e)
                (λ _ e, ltac:(by destruct e)) context p) with
      (w := set_env (insert kQuartoProjectDir (p_projDir p)) w1)
      as [_ (l2 & Ht2 & Hl2)].
    { intros E HE. simpl. by rewrite Halw, HE. }
    { intros E outs HE. simpl. by rewrite Hinc, HE. }
    exists (l1 ++ l2). simpl in *. rewrite Ht2, Ht1, app_assoc. split; [done|].
    apply Forall_app. split.
    + eapply Forall_impl; [exact Hl1|]. by intros e [? _].
    + eapply Forall_impl; [exact Hl2|]. intros e He. apply He.
      rewrite Hdir. apply lookup_insert_eq.
  - exists l1. split; [done|]. eapply Forall_impl; [exact Hl1|]. by intros ? [? _].
Qed.

(** Once the preparation is through, the renderer is called. *)
Lemma renderProject_calls_renderFiles context options files w p w1 :
  prepare C context options files w = Ok p w1 →
  ∃ l, trace (final (renderProject C context options files w))
       = trace w1
         ++ CalledRenderFiles (p_files p) (p_options p)
              (alwaysExecuteFiles options files) (Some (dir context)) :: l.
Proof.
  intros Hprep. rewrite renderProject_run, Hprep.
  apply prepare_Ok in Hprep as (_ & Hdir & _ & Halw & _).
  rewrite try_finally_trace by done.
  unfold renderAndRelocate. rewrite bind_run. unfold call_env at 1.
  set (w2 := set_env _ w1).
  assert (env w2 !! kQuartoProjectDir = Some (dir context)) as ->.
  { unfold w2. simpl. rewrite Hdir. apply lookup_insert_eq. }
  rewrite Halw. unfold call.
  destruct (renderFiles C _ _ _ _ _ _ _) as [[err|frs] m]; simpl; [by eexists []|].
  match goal with
  | |- context [final (?k ?w)] =>
      assert (emits (λ _ _, True) k) as Hk; [|destruct (Hk w) as [_ (l & -> & _)]]
  end.
  { emits_step.
    - destruct (p_outputDirAbsolute p); [|emits_step].
      by apply emits_relocateOutputs.
    - emits_step; [|emits_step]. destruct (postRender _); [|emits_step].
      by apply emits_call_env. }
  simpl. rewrite <- app_assoc. by eexists.
Qed.


End RenderEvents.

(* ================================================================== *)
(** * Incremental mode, always-execute files, the published project
      directory *)
(* ================================================================== *)

Lemma new_events_inj w w' l1 l2 :
  new_events w w' l1 → trace w' = trace w ++ l2 → l1 = l2.
Proof. unfold new_events. intros -> H. by apply app_inv_head in H. Qed.

(** C2 (as amended).  A render is incremental exactly when the caller
    supplies a [files] list, whatever the list holds: the flag computed
    from the arguments, and the flag every call of the post-render hook
    receives, is true if and only if [files] is given. *)
Theorem incremental_iff_files_supplied
    (C : RenderCollaborators) (context : ProjectContext)
    (options : RenderOptions) (files : option (list string)) (w : World) :
  (incremental files = true ↔ ∃ l, files = Some l)
  ∧ ∀ l isIncremental outputs projectDirEnv,
      new_events w (final (renderProject C context options files w)) l →
      CalledPostRender isIncremental outputs projectDirEnv ∈ l →
      (isIncremental = true ↔ ∃ l, files = Some l).
Proof.
  assert (incremental files = true ↔ ∃ l, files = Some l) as Hinc.
  { destruct files; simpl; split; eauto; [done|by intros [? ?]]. }
  split; [exact Hinc|].
  intros l i outs e Hl Hin.
  destruct (renderProject_events C context options files w) as (l' & Ht & Hall).
  rewrite <- (new_events_inj _ _ _ _ Hl Ht) in Hall.
  rewrite Forall_forall in Hall. destruct (Hall _ Hin) as [-> _]. exact Hinc.
Qed.

Lemma sample_render_events :
  new_events SampleRender.world
    (final (renderProject SampleRender.collaborators Sample.project
              SampleRender.options (Some ["a.qmd"]) SampleRender.world))
    SampleRender.events.
Proof. vm_compute. reflexivity. Qed.

Lemma incremental_iff_files_supplied_witness :
  CalledPostRender true ["/proj/_site/a.html"] (Some "/proj")
    ∈ SampleRender.events
  ∧ (true = true ↔ ∃ l, Some ["a.qmd"] = Some l).
Proof.
  assert (CalledPostRender true ["/proj/_site/a.html"] (Some "/proj")
            ∈ SampleRender.events) as Hin.
  { unfold SampleRender.events. do 7 apply list_elem_of_further.
    apply list_elem_of_here. }
  split; [exact Hin|].
  exact (proj2 (incremental_iff_files_supplied SampleRender.collaborators
                  Sample.project SampleRender.options (Some ["a.qmd"])
                  SampleRender.world)
           SampleRender.events true ["/proj/_site/a.html"] (Some "/proj")
           sample_render_events Hin).
Defined.

(** C2 as stated fails: passing the complete input set explicitly is an
    incremental render, although the list is not a proper subset of the
    inputs; the post-render hook is told so. *)
Lemma full_input_set_is_incremental :
  incremental (Some (files_input (context_files Sample.project))) = true
  ∧ ¬ proper_subset (files_input (context_files Sample.project))
                    (files_input (context_files Sample.project))
  ∧ last (trace (final (renderProject SampleRender.collaborators Sample.project
                          SampleRender.options
                          (Some (files_input (context_files Sample.project)))
                          SampleRender.world)))
    = Some (CalledPostRender true ["/proj/_site/a.html"; "/proj/_site/b.html"]
              (Some "/proj")).
Proof.
  split; [reflexivity|]. split; [|vm_compute; reflexivity].
  intros [_ H]. by apply H.
Qed.

(** C3.  In an incremental render whose caller did not set
    [useFreezer], the always-execute set is the requested list itself:
    every call to the renderer receives exactly the requested files as
    its always-execute argument (so no other file is marked), and the
    renderer is called as soon as the preparation is through. *)
Theorem requested_files_always_execute
    (C : RenderCollaborators) (context : ProjectContext)
    (options : RenderOptions) (requested : list string) (w : World) :
  truthy_bool (useFreezer options) = false →
  alwaysExecuteFiles options (Some requested) = Some requested
  ∧ (∀ l rendered o always projectDirEnv,
       new_events w (final (renderProject C context options (Some requested) w)) l →
       CalledRenderFiles rendered o always projectDirEnv ∈ l →
       always = Some requested)
  ∧ (∀ p w1,
       prepare C context options (Some requested) w = Ok p w1 →
       ∃ l, new_events w1
              (final (renderProject C context options (Some requested) w))
              (CalledRenderFiles (p_files p) (p_options p) (Some requested)
                                 (Some (dir context)) :: l)).
Proof.
  intros Hfreezer.
  assert (alwaysExecuteFiles options (Some requested) = Some requested) as Halw.
  { unfold alwaysExecuteFiles. simpl. by rewrite Hfreezer. }
  split; [exact Halw|]. split.
  - intros l rendered o always e Hl Hin.
    destruct (renderProject_events C context options (Some requested) w)
      as (l' & Ht & Hall).
    rewrite <- (new_events_inj _ _ _ _ Hl Ht) in Hall.
    rewrite Forall_forall in Hall. destruct (Hall _ Hin) as [-> _]. exact Halw.
  - intros p w1 Hprep.
    destruct (renderProject_calls_renderFiles C _ _ _ _ _ _ Hprep) as [l Hl].
    exists l. unfold new_events. by rewrite Hl, Halw.
Qed.

(** Inputs [a.qmd] and [b.qmd], explicit subset [a.qmd], no freezer:
    the renderer is called with [a.qmd] as the always-execute set, which
    does not contain [b.qmd]. *)
Lemma requested_files_always_execute_witness :
  (∃ l, new_events SampleRender.prepared_world
          (final (renderProject SampleRender.collaborators Sample.project
                    SampleRender.options (Some ["a.qmd"]) SampleRender.world))
          (CalledRenderFiles ["/proj/a.qmd"] SampleRender.options
             (Some ["a.qmd"]) (Some "/proj") :: l))
  ∧ "b.qmd" ∉ ["a.qmd"].
Proof.
  split.
  - refine (proj2 (proj2 (requested_files_always_execute
              SampleRender.collaborators Sample.project SampleRender.options
              ["a.qmd"] SampleRender.world _))
              SampleRender.prepared SampleRender.prepared_world _).
    + reflexivity.
    + vm_compute. reflexivity.
  - intros H. apply list_elem_of_singleton in H. discriminate.
Defined.




(* ================================================================== *)
(** * Resource files of the result *)
(* ================================================================== *)

Lemma foldM_Ok_inv {A S} (I : S → Prop) (body : S → A → M S) l :
  (∀ s x w r w', I s → body s x w = Ok r w' → I r) →
  ∀ s w r w', I s → foldM body s l w = Ok r w' → I r.
Proof.
  intros Hbody. induction l as [|x l IH]; intros s w r w' Hs H; simpl in H.
  - unfold ret in H. by injection H as <- _.
  - change (bind ?m ?k) with (m ≫= k) in H. inv_bind H. eauto.
Qed.

Lemma try_finally_Ok {A} (m : M A) cleanup w r w' :
  try_finally m cleanup w = Ok r w' → ∃ w1, m w = Ok r w1 ∧ w' = cleanup w1.
Proof.
  unfold try_finally. destruct (m w) as [a w1|e w1]; [|done].
  intros [= <- <-]. eauto.
Qed.

Section Resources.

Context (C : RenderCollaborators).

Lemma keepResource_true projDir exclude sup_opt r :
  keepResource projDir exclude sup_opt r = true →
  (r ∉ exclude)
  ∧ ∀ sup s, sup_opt = Some sup → s ∈ sup →
             Str.startsWith r (path.join projDir s) = false.
Proof.
  unfold keepResource. case_bool_decide as Hex; [done|].
  destruct sup_opt as [sup|]; [|by intros _; split].
  destruct (existsb _ sup) eqn:E; [done|]. intros _. split; [done|].
  intros sup' s [= <-] Hs.
  destruct (Str.startsWith r (path.join projDir s)) eqn:Es; [|done].
  assert (existsb (λ support, Str.startsWith r (path.join projDir support)) sup
          = true); [|congruence].
  apply existsb_exists. exists s. split; [by apply list_elem_of_In|done].
Qed.

(** What relocating one rendered file adds to the result. *)
Lemma relocateRenderedFile_Ok projDir out keep results rf w keep' results' w' :
  relocateRenderedFile C projDir out (keep, results) rf w
    = Ok (keep', results') w' →
  ∃ rs, results' = results ++
          [mkRenderResultFile (rf_input rf) (rf_markdown rf) (rf_format rf)
             (rf_file rf) (rf_supporting rf) rs]
        ∧ ∀ r, r ∈ rs → ∃ exclude,
            keepResource projDir exclude (rf_supporting rf) r = true.
Proof.
  unfold relocateRenderedFile. intros H.
  do 6 (inv_bind H; clear Hstep). unfold ret in H. injection H as <- <- <-.
  eexists. split; [done|]. intros r Hr.
  apply list_elem_of_filter in Hr as [Hr _]. eauto.
Qed.

Lemma relocated_clear_of_supporting projDir out rfs w keep results w' :
  foldM (relocateRenderedFile C projDir out) (false, []) rfs w
    = Ok (keep, results) w' →
  Forall (clear_of_supporting projDir) results.
Proof.
  apply (foldM_Ok_inv (λ st, Forall (clear_of_supporting projDir) st.2)
           (relocateRenderedFile C projDir out) rfs); [|by apply Forall_nil].
  intros [k rs] rf w0 [k' rs'] w0' Hinv Hstep. simpl in *.
  apply relocateRenderedFile_Ok in Hstep as (l & -> & Hl).
  apply Forall_app. split; [done|]. apply Forall_singleton.
  intros r sup s Hr Hsup Hs. simpl in *. destruct (Hl r Hr) as [exclude Hk].
  apply keepResource_true in Hk as [_ Hk]. by eapply Hk.
Qed.

Lemma filterOutputFiles_elem projDir results f :
  f ∈ filterOutputFiles projDir results →
  ∃ g, g ∈ results ∧ file f = file g ∧ supporting f = supporting g
       ∧ ∀ r, r ∈ resourceFiles f →
              r ∈ resourceFiles g
              ∧ (r ∉ (λ result, path.join projDir (file result)) <$> results).
Proof.
  unfold filterOutputFiles. intros (g & -> & Hg)%list_elem_of_fmap.
  exists g. repeat split; try done; simpl in *;
    by apply list_elem_of_filter in H as [? ?].
Qed.

Lemma filterOutputFiles_files projDir results :
  file <$> filterOutputFiles projDir results = file <$> results.
Proof.
  unfold filterOutputFiles. rewrite <- list_fmap_compose. by apply list_fmap_ext.
Qed.

(** What the relocation returns. *)
Lemma relocateOutputs_Ok context options projType projDir out libDir inc frs
    w results w' :
  relocateOutputs C context options projType projDir out libDir inc frs w
    = Ok results w' →
  ∃ results0, results = filterOutputFiles projDir results0
              ∧ Forall (clear_of_supporting projDir) results0.
Proof.
  unfold relocateOutputs. intros H. inv_bind H. destruct a as [keep results0].
  apply relocated_clear_of_supporting in Hstep.
  do 2 (inv_bind H; clear Hstep0). unfold ret in H. injection H as <- <-.
  eauto.
Qed.

(** C5.  No resource file of an entry of the result is the (in-project)
    output file of an entry of the same result, and none starts with,
    equals or lies inside a supporting directory of its own entry. *)
Theorem resources_exclude_outputs_and_supporting
    (context : ProjectContext) (options : RenderOptions)
    (files : option (list string)) (w : World)
    (result : RenderResult) (w' : World) :
  renderProject C context options files w = Ok result w' →
  ∀ f r, f ∈ result_files result → r ∈ resourceFiles f →
    (∀ g, g ∈ result_files result → r ≠ path.join (baseDir result) (file g))
    ∧ (∀ sup s, supporting f = Some sup → s ∈ sup →
         Str.startsWith r (path.join (baseDir result) s) = false
         ∧ r ≠ path.join (baseDir result) s
         ∧ ¬ inside (path.join (baseDir result) s) r).
Proof.
  rewrite renderProject_run.
  destruct (prepare C context options files w) as [p w1|]; [|done].
  intros (w2 & H & _)%try_finally_Ok. unfold renderAndRelocate in H.
  inv_bind H. clear Hstep. inv_bind H. inv_bind H. clear Hstep0.
  unfold ret in H. injection H as <- _. simpl.
  destruct (p_outputDirAbsolute p) as [out|].
  - apply relocateOutputs_Ok in Hstep as (results0 & -> & Hclear).
    intros f r Hf Hr.
    destruct (filterOutputFiles_elem _ _ _ Hf) as (g & Hg & Hfile & Hsup & Hres).
    destruct (Hres r Hr) as [Hrg Hout]. split.
    + intros g' Hg' ->. apply Hout.
      apply list_elem_of_fmap in Hg' as Hg''.
      assert (file g' ∈ file <$> results0) as Hin.
      { rewrite <- (filterOutputFiles_files (p_projDir p)).
        by apply list_elem_of_fmap_2. }
      apply list_elem_of_fmap in Hin as (g0 & Hg0 & Hin).
      apply list_elem_of_fmap. exists g0. by rewrite Hg0.
    + intros sup s Hs Hin. rewrite Hsup in Hs.
      rewrite Forall_forall in Hclear.
      pose proof (Hclear g Hg r sup s Hrg Hs Hin) as Hstart.
      split; [done|]. split.
      * intros ->. rewrite (proj2 (Str_startsWith_app _ _)) in Hstart; [done|].
        exists "". by rewrite Str_app_empty_r.
      * intros Hins. apply path_inside_under, path_under_startsWith in Hins.
        congruence.
  - unfold ret in Hstep. injection Hstep as <- _.
    intros f r (g & -> & _)%list_elem_of_fmap Hr. simpl in Hr.
    by apply elem_of_nil in Hr.
Qed.

End Resources.

Lemma resources_exclude_outputs_and_supporting_witness :
  (∀ g, g ∈ [SampleRender.result_file] →
        "/proj/logo.png" ≠ path.join "/proj" (file g))
  ∧ (∀ sup s, Some ["a_files"] = Some sup → s ∈ sup →
       Str.startsWith "/proj/logo.png" (path.join "/proj" s) = false
       ∧ "/proj/logo.png" ≠ path.join "/proj" s
       ∧ ¬ inside (path.join "/proj" s) "/proj/logo.png").
Proof.
  refine (resources_exclude_outputs_and_supporting SampleRender.collaborators
            Sample.project SampleRender.options (Some ["a.qmd"])
            SampleRender.world SampleRender.result
            (final (renderProject SampleRender.collaborators Sample.project
                      SampleRender.options (Some ["a.qmd"]) SampleRender.world))
            _ SampleRender.result_file "/proj/logo.png" _ _).
  - vm_compute. reflexivity.
  - apply list_elem_of_here.
  - apply list_elem_of_here.
Defined.

(* ================================================================== *)
(** * Missing and existing resource files *)
(* ================================================================== *)

Section CopyResources.

Context (C : RenderCollaborators).









End CopyResources.

(** A resource outside the project directory is copied outside the
    output directory. *)
Example resource_outside_project_lands_outside_output :
  resourceDest "/proj" "/proj/_site" "/elsewhere/x.png" = "/proj/elsewhere/x.png".
Proof. vm_compute. reflexivity. Qed.



(* ================================================================== *)
(** * Relocation of directories and of the primary artifact *)
(* ================================================================== *)

Lemma ensureDirSync_Ok d w :
  (∀ k, k ∈ Tree.parents (S (String.length d)) d → Tree.is_file (fs w !! k) = false) →
  ensureDirSync d w
  = Ok tt (set_fs (Tree.mkdirs (clock w) (Tree.parents (S (String.length d)) d)) w).
Proof.
  intros H. unfold ensureDirSync. cbv zeta.
  destruct (existsb _ _) eqn:E; [|done].
  apply existsb_exists in E as (k & Hk & Hf). apply list_elem_of_In in Hk.
  rewrite (H k Hk) in Hf. done.
Qed.

Lemma renamed_lookup_dst src dst (m : FS) r :
  path.boundary r = true →
  Deno.renamed src dst m !! (dst +:+ r) = m !! (src +:+ r).
Proof.
  intros Hr. unfold Deno.renamed. rewrite lookup_union, Tree_rebase_lookup.
  rewrite path_rel_app by done. rewrite Tree_remove_lookup.
  rewrite (proj2 (path_under_true dst (dst +:+ r))) by eauto.
  rewrite option_fmap_id. by destruct (m !! (src +:+ r)).
Qed.

Lemma renamed_lookup_other src dst (m : FS) q :
  path.under dst q = false →
  Deno.renamed src dst m !! q = if path.under src q then None else m !! q.
Proof.
  intros Hq. unfold Deno.renamed. rewrite lookup_union, Tree_rebase_lookup.
  unfold path.under in Hq. destruct (path.rel dst q) eqn:E; [done|].
  rewrite !Tree_remove_lookup. unfold path.under at 1. rewrite E.
  rewrite (left_id None _). done.
Qed.

Lemma copied_lookup_dst t src dst (m : FS) r :
  path.boundary r = true →
  m !! (dst +:+ r) = None →
  copied t src dst m !! (dst +:+ r) = Tree.touch t <$> m !! (src +:+ r).
Proof.
  intros Hr Hnone. unfold copied. rewrite lookup_union, Tree_rebase_lookup.
  rewrite path_rel_app by done. rewrite Hnone.
  by destruct (m !! (src +:+ r)).
Qed.

Lemma copied_lookup_other t src dst (m : FS) q :
  path.under dst q = false → copied t src dst m !! q = m !! q.
Proof.
  intros Hq. unfold copied. rewrite lookup_union, Tree_rebase_lookup.
  unfold path.under in Hq. destruct (path.rel dst q) eqn:E; [done|].
  by rewrite (left_id None _).
Qed.

Lemma Tree_mkdirs_lookup_in t l (m : FS) q :
  q ∈ l → m !! q = None → Tree.mkdirs t l m !! q = Some (Dir t).
Proof.
  intros Hin Hq. induction l as [|k l IH]; simpl.
  - by apply elem_of_nil in Hin.
  - destruct (decide (k = q)) as [->|Hne].
    + destruct (Tree.mkdirs t l m !! q) as [x|] eqn:E.
      * destruct (decide (q ∈ l)) as [Hl|Hl]; [rewrite E; by apply IH|].
        rewrite Tree_mkdirs_lookup_notin in E by done. congruence.
      * by rewrite lookup_insert_eq.
    + apply elem_of_cons in Hin as [->|Hin]; [done|].
      destruct (Tree.mkdirs t l m !! k); [by apply IH|].
      rewrite lookup_insert_ne by done. by apply IH.
Qed.

Lemma under_app d r : path.boundary r = true → path.under d (d +:+ r) = true.
Proof. intros. apply path_under_true. eauto. Qed.

(** In non-nested trees, nothing below one lies below the other. *)
Lemma disjoint_app a b r :
  path.under a b = false → path.under b a = false →
  path.boundary r = true → path.under a (b +:+ r) = false.
Proof.
  intros Hab Hba Hr.
  apply (path_under_disjoint b a); [done|done|by apply under_app].
Qed.

#[local] Arguments Tree.parents : simpl never.

(** What [relocateDir] does to the file system, when the source and the
    target tree are not nested and the way to the target is clear. *)
Lemma relocateDir_lookup projDir out dir copy w :
  path.under (path.join projDir dir) (path.join out dir) = false →
  path.under (path.join out dir) (path.join projDir dir) = false →
  closed (fs w) (path.join out dir) →
  closed (fs w) (path.join projDir dir) →
  way_clear (fs w) (path.join projDir dir) (path.join out dir) →
  ∃ m', relocateDir projDir out dir copy w = Ok tt (set_fs (λ _, m') w)
    ∧ (∀ r, path.boundary r = true →
         m' !! (path.join out dir +:+ r)
         = placed copy (clock w) <$> fs w !! (path.join projDir dir +:+ r))
    ∧ (∀ r, path.boundary r = true →
         m' !! (path.join projDir dir +:+ r)
         = if copy then fs w !! (path.join projDir dir +:+ r) else None)
    ∧ (∀ q, path.under (path.join out dir) q = false →
            path.under (path.join projDir dir) q = false →
            (m' !! q = fs w !! q
             ∨ (fs w !! q = None ∧ m' !! q = Some (Dir (clock w))
                ∧ q ∈ Tree.parents
                        (S (String.length (path.dirname (path.join out dir))))
                        (path.dirname (path.join out dir))))).
Proof.
  set (target := path.join out dir). set (src := path.join projDir dir).
  intros Hst Hts Hct Hcs Hway.
  set (ps := Tree.parents (S (String.length (path.dirname target)))
                          (path.dirname target)) in *.
  (* after the removal of the target tree *)
  set (m1 := if bool_decide (is_Some (fs w !! target))
             then Tree.remove target (fs w) else fs w).
  assert (∀ q, m1 !! q = if path.under target q then None else fs w !! q) as Hm1.
  { intros q. unfold m1. case_bool_decide as Hex.
    - apply Tree_remove_lookup.
    - destruct (path.under target q) eqn:Hq; [|done]. apply Hct; [|done].
      destruct (fs w !! target); [destruct Hex; eauto|done]. }
  assert (∀ r, path.boundary r = true → m1 !! (src +:+ r) = fs w !! (src +:+ r))
    as Hm1src.
  { intros r Hr. by rewrite Hm1, (disjoint_app target src r). }
  assert (m1 !! src = fs w !! src) as Hm1s.
  { rewrite <- (Str_app_empty_r src). by apply Hm1src. }
  assert (∀ r, path.boundary r = true → m1 !! (target +:+ r) = None) as Hm1t.
  { intros r Hr. by rewrite Hm1, under_app. }
  assert (relocateDir projDir out dir copy w =
          (ex ← existsSync src;
           if ex : bool then
             ensureDirSync (path.dirname target);;
             if copy then copySync src target else Deno.renameSync src target
           else ret tt) (set_fs (λ _, m1) w)) as ->.
  { unfold relocateDir. fold target src. rewrite bind_run.
    unfold existsSync at 1. unfold m1. case_bool_decide as Hex.
    - rewrite bind_run. unfold Deno.removeSync.
      destruct (fs w !! target); [done|]. by destruct Hex.
    - rewrite bind_run. unfold ret, set_fs. by destruct w. }
  rewrite bind_run. unfold existsSync at 1. simpl. rewrite Hm1s.
  destruct (fs w !! src) as [n|] eqn:Hsrc.
  2: { (* nothing to place *)
    rewrite bool_decide_eq_false_2 by (by intros [? ?]).
    exists m1. split; [done|]. split; [|split].
    - intros r Hr. rewrite Hm1t by done.
      rewrite (Hcs Hsrc (src +:+ r)); [done|by apply under_app].
    - intros r Hr. rewrite Hm1src by done.
      rewrite (Hcs Hsrc (src +:+ r)); [by destruct copy|by apply under_app].
    - intros q Hq _. left. by rewrite Hm1, Hq. }
  rewrite bool_decide_eq_true_2 by eauto.
  rewrite bind_run, ensureDirSync_Ok; simpl.
  2: { intros k Hk. destruct (Hway k Hk) as (Hf & Hkt & _). by rewrite Hm1, Hkt. }
  fold ps. set (m2 := Tree.mkdirs (clock w) ps m1).
  assert (∀ q, q ∉ ps → m2 !! q = m1 !! q) as Hm2.
  { intros q Hq. by apply Tree_mkdirs_lookup_notin. }
  assert (∀ r, path.boundary r = true → src +:+ r ∉ ps) as Hps_src.
  { intros r Hr Hin. destruct (Hway _ Hin) as (_ & _ & Hu).
    by rewrite under_app in Hu. }
  assert (∀ r, path.boundary r = true → target +:+ r ∉ ps) as Hps_tgt.
  { intros r Hr Hin. destruct (Hway _ Hin) as (_ & Hu & _).
    by rewrite under_app in Hu. }
  assert (m2 !! src = Some n) as Hm2s.
  { apply Tree_mkdirs_lookup_Some. by rewrite Hm1s. }
  assert (m2 !! target = None) as Hm2t.
  { rewrite <- (Str_app_empty_r target). rewrite Hm2 by (by apply Hps_tgt).
    by apply Hm1t. }
  assert (∀ q, path.under target q = false →
               m2 !! q = fs w !! q
               ∨ (fs w !! q = None ∧ m2 !! q = Some (Dir (clock w)) ∧ q ∈ ps))
    as Hm2other.
  { intros q Hq. destruct (decide (q ∈ ps)) as [Hin|Hnin].
    - destruct (fs w !! q) as [nq|] eqn:Eq.
      + left. apply Tree_mkdirs_lookup_Some. by rewrite Hm1, Hq.
      + right. split; [done|]. split; [|done].
        apply Tree_mkdirs_lookup_in; [done|]. by rewrite Hm1, Hq.
    - left. by rewrite Hm2, Hm1, Hq. }
  change (set_fs (Tree.mkdirs (clock w) ps) (set_fs (λ _, m1) w))
    with (set_fs (λ _, m2) w).
  destruct copy.
  - (* copy *)
    unfold copySync. change (fs (set_fs (λ _, m2) w)) with m2.
    rewrite Hm2s, Hst, Hm2t.
    exists (copied (clock w) src target m2). split; [done|]. split; [|split].
    + intros r Hr. rewrite copied_lookup_dst; [|done|].
      * rewrite Hm2 by (by apply Hps_src). by rewrite Hm1src.
      * rewrite Hm2 by (by apply Hps_tgt). by apply Hm1t.
    + intros r Hr. rewrite copied_lookup_other by (by apply disjoint_app).
      rewrite Hm2 by (by apply Hps_src). by rewrite Hm1src.
    + intros q Hq _. rewrite copied_lookup_other by done. by apply Hm2other.
  - (* move *)
    unfold Deno.renameSync. change (fs (set_fs (λ _, m2) w)) with m2.
    rewrite Hm2s, Hst, Hm2t.
    rewrite decide_False.
    2: { intros Heq. rewrite <- Heq, path_under_self in Hst. done. }
    exists (Deno.renamed src target m2).
    split; [by destruct n|]. split; [|split].
    + intros r Hr. rewrite renamed_lookup_dst by done.
      rewrite Hm2 by (by apply Hps_src). rewrite Hm1src by done.
      by destruct (fs w !! (src +:+ r)).
    + intros r Hr. rewrite renamed_lookup_other by (by apply disjoint_app).
      by rewrite under_app.
    + intros q Hq Hqs. rewrite renamed_lookup_other by done. rewrite Hqs.
      by apply Hm2other.
Qed.


(** ** What a computation keeps *)

Section Preserves.

Context (I : FS → Prop).












End Preserves.



Section Artifact.

Context (C : RenderCollaborators).





End Artifact.





(** With the output directory ["."] the supporting directory of a
    rendered file does not survive the relocation. *)
Example output_dir_dot_removes_supporting_directory :
  ∃ w', relocateDir "/proj" (path.join "/proj" ".") "a_files" false
          SampleRender.rendered_world = Ok tt w'
    ∧ fs SampleRender.rendered_world !! "/proj/a_files/figure.png"
      = Some (File (Some 300) (JSON.Malformed "png"))
    ∧ fs w' !! "/proj/a_files/figure.png" = None
    ∧ fs w' !! "/proj/a_files" = None.
Proof. eexists. split; [vm_compute; reflexivity|]. repeat split. Qed.

(* ================================================================== *)
(** * Entries of a directory *)
(* ================================================================== *)

Lemma path_is_dot_sub d nm : path.is_dot (sub d nm) = false.
Proof.
  unfold sub. destruct d as [|c d]; [done|]. rewrite Str_app_cons.
  destruct d as [|c' d]; simpl; by destruct c as [[] [] [] [] [] [] [] []].
Qed.

Lemma path_join_plain a b :
  path.is_dot a = false → path.is_dot b = false → path.join a b = sub a b.
Proof. intros Ha Hb. unfold path.join. by rewrite Ha, Hb. Qed.

Lemma sub_sub a b c : sub a (sub b c) = sub (sub a b) c.
Proof. unfold sub. by rewrite !Str_app_assoc. Qed.

Lemma sub_app d nm r : sub d nm +:+ r = d +:+ ("/" +:+ nm +:+ r).
Proof. unfold sub. by rewrite !Str_app_assoc. Qed.

Lemma is_name_true nm :
  Deno.is_name nm = true → path.is_dot nm = false ∧ path.has_sep nm = false.
Proof.
  unfold Deno.is_name. intros [[H1 _]%andb_prop H2]%andb_prop.
  split; by apply negb_true_iff.
Qed.

Lemma path_split_last_None nm : path.has_sep nm = false → path.split_last nm = None.
Proof.
  induction nm as [|c nm IH]; simpl; [done|].
  case_decide; [done|]. intros Hnm. by rewrite IH.
Qed.

Lemma path_split_last_sub d nm :
  path.has_sep nm = false → path.split_last (sub d nm) = Some (d, nm).
Proof.
  intros Hnm. unfold sub. induction d as [|c d IH].
  - rewrite Str_app_nil_l. change ("/" +:+ nm) with (String "/"%char nm).
    simpl. by rewrite path_split_last_None.
  - rewrite Str_app_cons. simpl. by rewrite IH.
Qed.

Lemma path_dirname_sub d nm :
  d ≠ "" → path.has_sep nm = false → path.dirname (sub d nm) = d.
Proof.
  intros Hd Hnm. unfold path.dirname. rewrite path_split_last_sub by done.
  by destruct d.
Qed.

Lemma under_sub d nm : path.under d (sub d nm) = true.
Proof. apply path_under_true. by exists ("/" +:+ nm). Qed.

(** Names are determined by what starts with them. *)
Lemma names_app_inj A B r s :
  path.has_sep A = false → path.has_sep B = false →
  path.boundary r = true → path.boundary s = true →
  A +:+ r = B +:+ s → A = B.
Proof.
  revert B. induction A as [|a A IH]; intros B HA HB Hr Hs.
  - rewrite Str_app_nil_l. destruct B as [|b B]; [done|].
    rewrite Str_app_cons. intros ->. simpl in Hr, HB.
    destruct (decide (b = "/"%char)) as [->|Hb]; [done|].
    by destruct b as [[] [] [] [] [] [] [] []].
  - destruct B as [|b B].
    + rewrite Str_app_nil_l, Str_app_cons. intros <-. simpl in Hs, HA.
      destruct (decide (a = "/"%char)) as [->|Ha]; [done|].
      by destruct a as [[] [] [] [] [] [] [] []].
    + rewrite !Str_app_cons. intros [= -> H]. f_equal.
      simpl in HA, HB. case_decide; [done|]. by apply (IH B).
Qed.

(** Different entries of one directory are disjoint trees. *)
Lemma under_sibling d A B r :
  path.has_sep A = false → path.has_sep B = false → A ≠ B →
  path.boundary r = true → path.under (sub d A) (sub d B +:+ r) = false.
Proof.
  intros HA HB Hne Hr.
  destruct (path.under (sub d A) (sub d B +:+ r)) eqn:E; [|done].
  apply path_under_true in E as (s & Hs & Hbs). rewrite !sub_app in Hs.
  apply (inj (String.app d)) in Hs.
  change ("/" +:+ ?x) with (String "/"%char x) in Hs. injection Hs as Hs.
  destruct Hne. symmetry. by apply (names_app_inj B A r s).
Qed.

(** Entries of two directories that are not nested are disjoint
    trees. *)
Lemma under_cross d e A B r :
  path.under d e = false → path.under e d = false →
  path.boundary r = true → path.under (sub d A) (sub e B +:+ r) = false.
Proof.
  intros Hde Hed Hr.
  destruct (path.under (sub d A) (sub e B +:+ r)) eqn:E; [|done].
  assert (path.under d (sub e B +:+ r) = true) as H1.
  { eapply path_under_trans; [apply under_sub|done]. }
  assert (path.under e (sub e B +:+ r) = true) as H2.
  { eapply path_under_trans; [apply under_sub|by apply under_app]. }
  destruct (path_under_nested _ _ _ H1 H2); congruence.
Qed.

Lemma parents_not_below fuel d nm k :
  k ∈ Tree.parents fuel d → path.under (sub d nm) k = false.
Proof.
  intros Hk%Tree_parents_length.
  destruct (path.under (sub d nm) k) eqn:E; [|done].
  apply path_under_length in E. unfold sub in E.
  rewrite !Str_length_app in E. simpl in E. lia.
Qed.

Lemma below_not_parent fuel d nm r :
  path.boundary r = true → sub d nm +:+ r ∉ Tree.parents fuel d.
Proof.
  intros Hr Hin. apply (parents_not_below _ _ nm) in Hin.
  by rewrite under_app in Hin.
Qed.

(** The names [readDirSync] lists are pairwise different. *)
Lemma child_Some d kn e :
  Deno.child d kn = Some e →
  Deno.is_name (Deno.name e) = true ∧ kn.1 = sub d (Deno.name e)
  ∧ Deno.entry_isDirectory e = Tree.is_dir (Some kn.2).
Proof.
  unfold Deno.child. destruct (path.rel d kn.1) as [r|] eqn:E; [|done].
  destruct r as [|c r]; [done|].
  destruct (decide (c = "/"%char)) as [->|Hc].
  2: { by destruct c as [[] [] [] [] [] [] [] []]. }
  destruct (Deno.is_name r) eqn:Hn; [|done]. intros [= <-]. simpl.
  apply path_rel_Some in E as [-> _]. done.
Qed.

Lemma child_names_NoDup d (l : list (string * Node)) :
  NoDup l.*1 → NoDup (Deno.name <$> omap (Deno.child d) l).
Proof.
  induction l as [|kn l IH]; simpl; [constructor|].
  intros [Hk Hl]%NoDup_cons. specialize (IH Hl).
  destruct (Deno.child d kn) as [e|] eqn:E; [|done]. simpl.
  apply NoDup_cons. split; [|done].
  intros (e' & He' & Hin)%list_elem_of_fmap.
  apply list_elem_of_omap in Hin as (kn' & Hin & E').
  apply child_Some in E as (_ & Hkn & _).
  apply child_Some in E' as (_ & Hkn' & _).
  apply Hk. rewrite Hkn, He', <- Hkn'. by apply list_elem_of_fmap_2.
Qed.

Lemma readDirSync_entries d (m : FS) e :
  e ∈ omap (Deno.child d) (map_to_list m) ↔
  Deno.is_name (Deno.name e) = true
  ∧ ∃ n, m !! sub d (Deno.name e) = Some n
         ∧ Deno.entry_isDirectory e = Tree.is_dir (Some n).
Proof.
  rewrite list_elem_of_omap. split.
  - intros ([k n] & Hin & E). apply elem_of_map_to_list in Hin.
    apply child_Some in E as (Hn & Hk & Hd). simpl in *. subst k. eauto.
  - intros (Hn & n & Hm & Hd). exists (sub d (Deno.name e), n).
    split; [by apply elem_of_map_to_list|].
    destruct e as [nm b]. simpl in *. unfold Deno.child. simpl. unfold sub.
    rewrite (path_rel_app d ("/" +:+ nm)) by done.
    change ("/" +:+ nm) with (String "/"%char nm). cbv iota beta.
    by rewrite Hn, Hd.
Qed.

(* ================================================================== *)
(** * Merging the library directory *)
(* ================================================================== *)

Lemma set_fs_id w : set_fs (λ _, fs w) w = w.
Proof. by destruct w. Qed.

Lemma sub_nonempty d nm : sub d nm ≠ "".
Proof. unfold sub. by destruct d. Qed.

Section LibraryMerge.

Context (projDir out libDir : string) (keep : bool).

Local Abbreviation Lsrc := (sub projDir libDir).
Local Abbreviation Lout := (sub out libDir).
Local Abbreviation ancestors := (Tree.parents (S (String.length Lout)) Lout).

Hypothesis Hproj : path.is_dot projDir = false.
Hypothesis Hout : path.is_dot out = false.
Hypothesis Hlib : path.is_dot libDir = false.
(** the source library directory is not inside the output library
    directory, and neither that one nor its ancestors are inside the
    source library directory *)
Hypothesis Hos : path.under Lout Lsrc = false.
Hypothesis Hanc : ∀ k, k ∈ ancestors → path.under Lsrc k = false.

Lemma Lout_outside : path.under Lsrc Lout = false.
Proof. apply Hanc. apply list_elem_of_here. Qed.


Lemma lib_dirs nm :
  Deno.is_name nm = true →
  path.join out (path.join libDir nm) = sub Lout nm
  ∧ path.join projDir (path.join libDir nm) = sub Lsrc nm.
Proof.
  intros [Hd _]%is_name_true.
  rewrite (path_join_plain libDir nm) by done.
  rewrite !path_join_plain by (done || apply path_is_dot_sub).
  by rewrite !sub_sub.
Qed.

Lemma below_src_not_ancestor nm r :
  path.boundary r = true → sub Lsrc nm +:+ r ∉ ancestors.
Proof.
  intros Hr Hin. apply Hanc in Hin.
  rewrite (path_under_trans Lsrc (sub Lsrc nm)) in Hin;
    [done|apply under_sub|by apply under_app].
Qed.

(** One entry of the library directory is relocated. *)
Lemma lib_step nm w :
  Deno.is_name nm = true →
  lib_ready (fs w) Lsrc Lout →
  ∃ m', relocateDir projDir out (path.join libDir nm) keep w
          = Ok tt (set_fs (λ _, m') w)
    ∧ lib_ready m' Lsrc Lout
    ∧ (∀ r, path.boundary r = true →
         m' !! (sub Lout nm +:+ r)
         = placed keep (clock w) <$> fs w !! (sub Lsrc nm +:+ r))
    ∧ (∀ r, path.boundary r = true →
         m' !! (sub Lsrc nm +:+ r)
         = if keep then fs w !! (sub Lsrc nm +:+ r) else None)
    ∧ (∀ q, path.under (sub Lout nm) q = false →
            path.under (sub Lsrc nm) q = false →
            q ∉ ancestors → m' !! q = fs w !! q).
Proof.
  intros Hnm [Hfiles Hclosed].
  destruct (is_name_true _ Hnm) as [Hdot Hsep].
  destruct (lib_dirs nm Hnm) as [Ht Hs].
  destruct (relocateDir_lookup projDir out (path.join libDir nm) keep w)
    as (m' & Hrun & Hdst & Hsrc & Hother).
  { rewrite Ht, Hs. rewrite <- (Str_app_empty_r (sub Lout nm)).
    apply under_cross; [apply Lout_outside|apply Hos|done]. }
  { rewrite Ht, Hs. rewrite <- (Str_app_empty_r (sub Lsrc nm)).
    apply under_cross; [apply Hos|apply Lout_outside|done]. }
  { rewrite Ht. by apply Hclosed. }
  { rewrite Hs. by apply Hclosed. }
  { rewrite Ht, Hs. intros k Hk.
    rewrite path_dirname_sub in Hk by (apply sub_nonempty || done).
    split; [by apply Hfiles|]. split; [by eapply parents_not_below|].
    destruct (path.under (sub Lsrc nm) k) eqn:E; [|done].
    rewrite <- (Hanc k Hk). symmetry.
    eapply path_under_trans; [apply under_sub|done]. }
  rewrite Ht, Hs in *.
  rewrite path_dirname_sub in Hother by (apply sub_nonempty || done).
  assert (∀ q, path.under (sub Lout nm) q = false →
               path.under (sub Lsrc nm) q = false →
               q ∉ ancestors → m' !! q = fs w !! q) as Hframe.
  { intros q H1 H2 Hq. destruct (Hother q H1 H2) as [?|(_ & _ & ?)]; done. }
  exists m'. split; [done|]. split; [|done].
  split.
  - intros k Hk. destruct (Hother k) as [->|(_ & -> & _)]; [| |by apply Hfiles|done].
    + by eapply parents_not_below.
    + destruct (path.under (sub Lsrc nm) k) eqn:E; [|done].
      rewrite <- (Hanc k Hk). symmetry.
      eapply path_under_trans; [apply under_sub|done].
  - intros nm' Hnm'. destruct (is_name_true _ Hnm') as [Hdot' Hsep'].
    destruct (Hclosed nm' Hnm') as [Hco Hcs].
    destruct (decide (nm' = nm)) as [->|Hne]; split.
    + (* the target itself *)
      intros Hnone p [r [-> Hr]]%path_under_true.
      rewrite Hdst by done.
      pose proof (Hdst "" eq_refl) as H0. rewrite !Str_app_empty_r, Hnone in H0.
      rewrite Hcs; [done| |by apply under_app].
      by destruct (fs w !! sub Lsrc nm).
    + (* the source itself *)
      intros Hnone p [r [-> Hr]]%path_under_true.
      rewrite Hsrc by done. destruct keep; [|done].
      pose proof (Hsrc "" eq_refl) as H0. rewrite !Str_app_empty_r, Hnone in H0.
      apply Hcs; [done|by apply under_app].
    + (* another entry of the output library directory *)
      intros Hnone p [r [-> Hr]]%path_under_true.
      rewrite Hframe.
      * apply Hco; [|by apply under_app]. rewrite <- Hnone. symmetry.
        rewrite <- (Str_app_empty_r (sub Lout nm')). apply Hframe.
        -- by apply under_sibling.
        -- apply under_cross; [apply Lout_outside|apply Hos|done].
        -- by apply below_not_parent.
      * by apply under_sibling.
      * apply under_cross; [apply Lout_outside|apply Hos|done].
      * by apply below_not_parent.
    + (* another entry of the source library directory *)
      intros Hnone p [r [-> Hr]]%path_under_true.
      rewrite Hframe.
      * apply Hcs; [|by apply under_app]. rewrite <- Hnone. symmetry.
        rewrite <- (Str_app_empty_r (sub Lsrc nm')). apply Hframe.
        -- apply under_cross; [apply Hos|apply Lout_outside|done].
        -- by apply under_sibling.
        -- by apply below_src_not_ancestor.
      * apply under_cross; [apply Hos|apply Lout_outside|done].
      * by apply under_sibling.
      * by apply below_src_not_ancestor.
Qed.

(** The loop over the entries of the library directory. *)
Lemma lib_loop (l : list Deno.DirEntry) w :
  Forall (λ e, Deno.is_name (Deno.name e) = true) l →
  NoDup (Deno.name <$> l) →
  lib_ready (fs w) Lsrc Lout →
  ∃ m', forEach (λ lib,
                   if Deno.entry_isDirectory lib then
                     if keep
                     then copyDir projDir out (path.join libDir (Deno.name lib))
                     else moveDir projDir out (path.join libDir (Deno.name lib))
                   else ret tt) l w
          = Ok tt (set_fs (λ _, m') w)
    ∧ (∀ e r, e ∈ l → Deno.entry_isDirectory e = true →
         path.boundary r = true →
         m' !! (sub Lout (Deno.name e) +:+ r)
         = placed keep (clock w) <$> fs w !! (sub Lsrc (Deno.name e) +:+ r))
    ∧ (∀ e r, e ∈ l → Deno.entry_isDirectory e = true →
         path.boundary r = true →
         m' !! (sub Lsrc (Deno.name e) +:+ r)
         = if keep then fs w !! (sub Lsrc (Deno.name e) +:+ r) else None)
    ∧ (∀ q, (∀ e, e ∈ l → Deno.entry_isDirectory e = true →
                  path.under (sub Lout (Deno.name e)) q = false
                  ∧ path.under (sub Lsrc (Deno.name e)) q = false) →
            q ∉ ancestors → m' !! q = fs w !! q).
Proof.
  revert w. induction l as [|e l IH]; intros w Hnames Hnd Hready.
  - exists (fs w). rewrite set_fs_id. split; [done|].
    split; [|split; [|done]]; intros e r Hin; by apply elem_of_nil in Hin.
  - apply Forall_cons in Hnames as [Hnm Hnames].
    rewrite fmap_cons in Hnd. apply NoDup_cons in Hnd as [Hfresh Hnd].
    assert (∀ e', e' ∈ l → Deno.name e' ≠ Deno.name e) as Hdiff.
    { intros e' Hin Heq. apply Hfresh. rewrite <- Heq.
      apply list_elem_of_fmap. by exists e'. }
    assert (∀ e', e' ∈ l →
              Deno.is_name (Deno.name e') = true) as Hnames'.
    { intros e' Hin. by eapply (proj1 (Forall_forall _ _) Hnames). }
    destruct (Deno.entry_isDirectory e) eqn:Hdir.
    + destruct (lib_step (Deno.name e) w Hnm Hready)
        as (m1 & Hrun & Hready1 & Hdst & Hsrc & Hframe).
      destruct (IH (set_fs (λ _, m1) w) Hnames Hnd Hready1)
        as (m' & Hloop & Hplaced & Hsource & Hrest).
      destruct (is_name_true _ Hnm) as [_ Hsep].
      assert (∀ e' r, e' ∈ l → path.boundary r = true →
                m1 !! (sub Lsrc (Deno.name e') +:+ r)
                = fs w !! (sub Lsrc (Deno.name e') +:+ r)) as Hkept.
      { intros e' r Hin Hr.
        destruct (is_name_true _ (Hnames' e' Hin)) as [_ Hsep'].
        apply Hframe.
        - apply under_cross; [apply Hos|apply Lout_outside|done].
        - apply under_sibling; [done|done| |done].
          intros Heq. by apply (Hdiff e' Hin).
        - by apply below_src_not_ancestor. }
      exists m'. split; [|split; [|split]].
      * cbn [forEach]. rewrite Hdir.
        assert ((if keep then copyDir projDir out (path.join libDir (Deno.name e))
                 else moveDir projDir out (path.join libDir (Deno.name e)))
                = relocateDir projDir out (path.join libDir (Deno.name e)) keep)
          as -> by (by destruct keep).
        unfold bind at 1. rewrite Hrun. cbn beta iota. rewrite Hloop.
        by destruct w.
      * intros e' r [->|Hin]%elem_of_cons Hd' Hr.
        -- rewrite Hrest; [by apply Hdst| |by apply below_not_parent].
           intros e'' Hin'' _.
           destruct (is_name_true _ (Hnames' e'' Hin'')) as [_ Hsep''].
           split.
           ++ apply under_sibling; [done|done|by apply Hdiff|done].
           ++ apply under_cross; [apply Lout_outside|apply Hos|done].
        -- rewrite (Hplaced e' r Hin Hd' Hr). cbn [fs set_fs clock].
           f_equal. by apply Hkept.
      * intros e' r [->|Hin]%elem_of_cons Hd' Hr.
        -- rewrite Hrest; [by apply Hsrc| |by apply below_src_not_ancestor].
           intros e'' Hin'' _.
           destruct (is_name_true _ (Hnames' e'' Hin'')) as [_ Hsep''].
           split.
           ++ apply under_cross; [apply Hos|apply Lout_outside|done].
           ++ apply under_sibling; [done|done|by apply Hdiff|done].
        -- rewrite (Hsource e' r Hin Hd' Hr). cbn [fs set_fs].
           destruct keep; [|done]. by apply Hkept.
      * intros q Hq Hanc'.
        rewrite Hrest; [|intros e' Hin Hd'; apply Hq; [by right|done]|done].
        cbn [fs set_fs].
        destruct (Hq e (list_elem_of_here _ _) Hdir) as [H1 H2].
        by apply Hframe.
    + destruct (IH w Hnames Hnd Hready)
        as (m' & Hloop & Hplaced & Hsource & Hrest).
      exists m'. split; [|split; [|split]].
      * cbn [forEach]. rewrite Hdir.
        unfold bind at 1. by unfold ret at 1.
      * intros e' r [->|Hin]%elem_of_cons Hd' Hr; [congruence|].
        by apply Hplaced.
      * intros e' r [->|Hin]%elem_of_cons Hd' Hr; [congruence|].
        by apply Hsource.
      * intros q Hq Hanc'. apply Hrest; [|done].
        intros e' Hin Hd'. apply Hq; [by right|done].
Qed.

End LibraryMerge.

Lemma prefixes_under d p : path.under d p = true → d ∈ prefixes p.
Proof.
  intros [r [-> Hr]]%path_under_true. induction d as [|c d IH].
  - rewrite Str_app_nil_l. destruct r; cbn [prefixes]; rewrite Hr;
      apply list_elem_of_here.
  - rewrite Str_app_cons. cbn [prefixes]. apply elem_of_app. right.
    apply list_elem_of_fmap. by exists d.
Qed.

(** In a tree, an absent directory has nothing below it. *)
Lemma rooted_closed (m : FS) d : rooted m = true → d ≠ "" → closed m d.
Proof.
  intros Hroot Hd Hnone p Hu. destruct (m !! p) as [n|] eqn:E; [|done].
  unfold rooted in Hroot. rewrite forallb_forall in Hroot.
  assert (In (p, n) (map_to_list m)) as Hin.
  { apply list_elem_of_In. by apply elem_of_map_to_list. }
  specialize (Hroot (p, n) Hin). rewrite forallb_forall in Hroot.
  assert (In d (prefixes p)) as Hpre.
  { apply list_elem_of_In. by apply prefixes_under. }
  specialize (Hroot d Hpre). apply orb_true_iff in Hroot as [H|H].
  - by destruct d.
  - apply bool_decide_eq_true in H. rewrite Hnone in H. by destruct H.
Qed.

(** C6.  The library directory [libDir] of a project whose source library
    directory exists is merged into the output directory.  In an
    incremental merge every subdirectory [A] of the source library
    directory is placed at the same name in the output library
    directory, moved or, when [keep] is set, copied, and every entry [B]
    of the output library directory that is no subdirectory of the
    source is left as it was.  In a full merge the output library
    directory becomes the source library directory as a whole, so an
    entry [B] that the source does not have is gone afterwards. *)
Theorem library_merge_incremental_or_full
    (projDir out libDir : string) (keep : bool) (w : World) :
  path.is_dot projDir = false →
  path.is_dot out = false →
  path.is_dot libDir = false →
  path.under (sub out libDir) (sub projDir libDir) = false →
  (∀ k, k ∈ Tree.parents (S (String.length (sub out libDir))) (sub out libDir) →
        path.under (sub projDir libDir) k = false) →
  Tree.is_dir (fs w !! sub projDir libDir) = true →
  (lib_ready (fs w) (sub projDir libDir) (sub out libDir) →
   ∃ w', relocateLibDir projDir out libDir (path.join projDir libDir)
           true keep w = Ok tt w'
     ∧ (∀ A r, Deno.is_name A = true →
          Tree.is_dir (fs w !! sub (sub projDir libDir) A) = true →
          path.boundary r = true →
          fs w' !! (sub (sub out libDir) A +:+ r)
          = placed keep (clock w) <$> fs w !! (sub (sub projDir libDir) A +:+ r)
          ∧ fs w' !! (sub (sub projDir libDir) A +:+ r)
            = if keep then fs w !! (sub (sub projDir libDir) A +:+ r) else None)
     ∧ (∀ B r, Deno.is_name B = true →
          Tree.is_dir (fs w !! sub (sub projDir libDir) B) = false →
          path.boundary r = true →
          fs w' !! (sub (sub out libDir) B +:+ r)
          = fs w !! (sub (sub out libDir) B +:+ r)))
  ∧ (closed (fs w) (sub out libDir) →
     way_clear (fs w) (sub projDir libDir) (sub out libDir) →
     ∃ w', relocateLibDir projDir out libDir (path.join projDir libDir)
             false keep w = Ok tt w'
       ∧ (∀ r, path.boundary r = true →
            fs w' !! (sub out libDir +:+ r)
            = placed keep (clock w) <$> fs w !! (sub projDir libDir +:+ r)
            ∧ fs w' !! (sub projDir libDir +:+ r)
              = if keep then fs w !! (sub projDir libDir +:+ r) else None)
       ∧ (∀ B r, path.boundary r = true →
            fs w !! (sub (sub projDir libDir) B +:+ r) = None →
            fs w' !! (sub (sub out libDir) B +:+ r) = None)).
Proof.
  intros Hproj Hout Hlib Hos Hanc Hdir.
  assert (path.under (sub projDir libDir) (sub out libDir) = false) as Hso.
  { apply Hanc. apply list_elem_of_here. }
  destruct (fs w !! sub projDir libDir) as [[|t]|] eqn:Hsrc; try done.
  split.
  - intros Hready.
    set (l := omap (Deno.child (sub projDir libDir)) (map_to_list (fs w))).
    destruct (lib_loop projDir out libDir keep Hproj Hout Hlib Hos Hanc l w)
      as (m' & Hloop & Hplaced & Hsource & Hrest); [| |done|].
    { apply Forall_forall. intros e He.
      by apply readDirSync_entries in He as [? _]. }
    { apply child_names_NoDup. apply NoDup_fst_map_to_list. }
    assert (∀ A, Deno.is_name A = true →
              Tree.is_dir (fs w !! sub (sub projDir libDir) A) = true →
              Deno.mkDirEntry A true ∈ l) as Hentry.
    { intros A HA HdA. apply readDirSync_entries. simpl. split; [done|].
      destruct (fs w !! sub (sub projDir libDir) A) as [n|]; [|done].
      by exists n. }
    assert (∀ B e, Tree.is_dir (fs w !! sub (sub projDir libDir) B) = false →
              e ∈ l → Deno.entry_isDirectory e = true →
              Deno.name e ≠ B ∧ path.has_sep (Deno.name e) = false) as Hnot.
    { intros B e HB [Hn (n & Hlook & Hd)]%readDirSync_entries He.
      split; [|by apply is_name_true in Hn as [_ ?]].
      intros <-. rewrite Hlook in HB. congruence. }
    assert (m' !! sub projDir libDir = Some (Dir t)) as Hkept.
    { rewrite <- Hsrc. apply Hrest.
      - intros e He _. split.
        + destruct (path.under (sub (sub out libDir) (Deno.name e))
                      (sub projDir libDir)) eqn:E; [|done].
          rewrite <- Hos. symmetry.
          eapply path_under_trans; [apply under_sub|done].
        + destruct (path.under (sub (sub projDir libDir) (Deno.name e))
                      (sub projDir libDir)) eqn:E; [|done].
          apply path_under_length in E. unfold sub in E.
          rewrite !Str_length_app in E. simpl in E. lia.
      - intros Hin. apply Hanc in Hin. by rewrite path_under_self in Hin. }
    exists (if keep then set_fs (λ _, m') w
            else set_fs (Tree.remove (sub projDir libDir)) (set_fs (λ _, m') w)).
    split; [|split].
    + unfold relocateLibDir. rewrite path_join_plain by done.
      rewrite bind_run. unfold Deno.readDirSync at 1. rewrite Hsrc.
      fold l. rewrite bind_run. cbn zeta. rewrite Hloop.
      destruct keep; [done|]. cbn [negb]. unfold Deno.removeSync.
      cbn [fs set_fs]. by rewrite Hkept.
    + intros A r HA HdA Hr.
      destruct (is_name_true _ HA) as [_ HsA].
      specialize (Hplaced _ r (Hentry A HA HdA) eq_refl Hr).
      specialize (Hsource _ r (Hentry A HA HdA) eq_refl Hr).
      cbn [Deno.name] in Hplaced, Hsource.
      destruct keep; cbn [fs set_fs]; [done|].
      assert (path.under (sub projDir libDir) (sub (sub out libDir) A +:+ r)
              = false) as H1.
      { rewrite sub_app. by apply disjoint_app. }
      assert (path.under (sub projDir libDir)
                         (sub (sub projDir libDir) A +:+ r) = true) as H2.
      { rewrite sub_app. by apply under_app. }
      by rewrite !Tree_remove_lookup, H1, H2.
    + intros B r HB HdB Hr.
      destruct (is_name_true _ HB) as [_ HsB].
      assert (m' !! (sub (sub out libDir) B +:+ r)
              = fs w !! (sub (sub out libDir) B +:+ r)) as Hsame.
      { apply Hrest; [|by apply below_not_parent].
        intros e He Hd. destruct (Hnot B e HdB He Hd) as [Hne Hse]. split.
        - by apply under_sibling.
        - by apply under_cross. }
      destruct keep; cbn [fs set_fs]; [done|].
      assert (path.under (sub projDir libDir) (sub (sub out libDir) B +:+ r)
              = false) as H1.
      { rewrite sub_app. by apply disjoint_app. }
      by rewrite Tree_remove_lookup, H1.
  - intros Hclosed Hway.
    destruct (relocateDir_lookup projDir out libDir keep w)
      as (m' & Hrun & Hdst & Hsrc' & _);
      rewrite ?path_join_plain by done; try done.
    { intros Hnone. congruence. }
    rewrite !path_join_plain in * by done.
    exists (set_fs (λ _, m') w). split; [|split].
    + unfold relocateLibDir, copyDir, moveDir. by destruct keep.
    + intros r Hr. split; [by apply Hdst|by apply Hsrc'].
    + intros B r Hr Hnone. rewrite sub_app, Hdst by done.
      by rewrite <- sub_app, Hnone.
Qed.

Ltac among Hk :=
  vm_compute in Hk;
  repeat (apply elem_of_cons in Hk as [->|Hk]);
  [..|by apply elem_of_nil in Hk].

(** After the render of [a.qmd] the project has the library [libs/A] and
    the output directory has the library [libs/B] of an earlier render:
    an incremental merge moves [A] and keeps [B], a full merge moves [A]
    and removes [B]. *)
Lemma library_merge_incremental_or_full_witness :
  (∃ w', relocateLibDir "/proj" "/proj/_site" "libs" "/proj/libs" true false
           SampleRender.rendered_world = Ok tt w'
     ∧ fs w' !! "/proj/_site/libs/A/a.js"
       = Some (File (Some 300) (JSON.Malformed "js"))
     ∧ fs w' !! "/proj/libs/A/a.js" = None
     ∧ fs w' !! "/proj/_site/libs/B/b.js"
       = Some (File (Some 60) (JSON.Malformed "js")))
  ∧ (∃ w', relocateLibDir "/proj" "/proj/_site" "libs" "/proj/libs" false false
             SampleRender.rendered_world = Ok tt w'
       ∧ fs w' !! "/proj/_site/libs/A/a.js"
         = Some (File (Some 300) (JSON.Malformed "js"))
       ∧ fs w' !! "/proj/libs/A/a.js" = None
       ∧ fs w' !! "/proj/_site/libs/B/b.js" = None).
Proof.
  destruct (library_merge_incremental_or_full "/proj" "/proj/_site" "libs"
              false SampleRender.rendered_world) as [Hinc Hfull].
  - vm_compute. reflexivity.
  - vm_compute. reflexivity.
  - vm_compute. reflexivity.
  - vm_compute. reflexivity.
  - intros k Hk. among Hk; vm_compute; reflexivity.
  - vm_compute. reflexivity.
  - split.
    + destruct Hinc as (w' & Hrun & HA & HB).
      { split.
        - intros k Hk. among Hk; vm_compute; reflexivity.
        - intros nm _. split; (apply rooted_closed;
            [vm_compute; reflexivity|apply sub_nonempty]). }
      exists w'. split; [exact Hrun|].
      assert (Tree.is_dir (fs SampleRender.rendered_world
                             !! sub (sub "/proj" "libs") "A") = true) as HdA.
      { vm_compute. reflexivity. }
      assert (Tree.is_dir (fs SampleRender.rendered_world
                             !! sub (sub "/proj" "libs") "B") = false) as HdB.
      { vm_compute. reflexivity. }
      destruct (HA "A" "/a.js" eq_refl HdA eq_refl) as [H1 H2].
      split; [|split].
      * etransitivity; [exact H1|]. vm_compute. reflexivity.
      * exact H2.
      * etransitivity; [exact (HB "B" "/b.js" eq_refl HdB eq_refl)|].
        vm_compute. reflexivity.
    + destruct Hfull as (w' & Hrun & Hall & Hgone).
      { intros H. vm_compute in H. discriminate. }
      { intros k Hk. among Hk; vm_compute; done. }
      exists w'. split; [exact Hrun|].
      destruct (Hall "/A/a.js" eq_refl) as [H1 H2].
      split; [|split].
      * etransitivity; [exact H1|]. vm_compute. reflexivity.
      * exact H2.
      * apply (Hgone "B" "/b.js" eq_refl). vm_compute. reflexivity.
Defined.

(* ================================================================== *)
(** * The stages of a render *)
(* ================================================================== *)

Section Stages.

Context (C : RenderCollaborators).

Lemma renderProject_Ok context options files w result w' :
  renderProject C context options files w = Ok result w' →
  ∃ p w1 frs w3 results w4 w5,
    prepare C context options files w = Ok p w1
    ∧ call_env (CalledRenderFiles (p_files p) (p_options p) (p_alwaysExecuteFiles p))
        (renderFiles C (p_files p) (p_options p) (p_alwaysExecuteFiles p)
           ((λ r, r (p_options p) context) <$> pandocRenderer (p_projType p))
           context)
        (set_env (insert kQuartoProjectDir (p_projDir p)) w1) = Ok frs w3
    ∧ match p_outputDirAbsolute p with
      | Some out =>
          relocateOutputs C context (p_options p) (p_projType p) (p_projDir p)
            out (p_libDir p) (p_incremental p) frs w3 = Ok results w4
      | None => results = (λ rf, tracked rf []) <$> frs_files frs ∧ w4 = w3
      end
    ∧ result = mkRenderResult (p_projDir p) (p_outputDir p) results (frs_error frs)
    ∧ match postRender (p_projType p) with
      | Some hook =>
          call_env (CalledPostRender (p_incremental p) (outputOf result <$> results))
            (hook context (p_incremental p)
               ((λ f, (outputOf result f, format f)) <$> results)) w4 = Ok tt w5
      | None => w5 = w4
      end
    ∧ w' = Deno.env_delete kQuartoProjectDir w5.
Proof.
  rewrite renderProject_run.
  destruct (prepare C context options files w) as [p w1|]; [|done].
  intros (w5 & H & ->)%try_finally_Ok. unfold renderAndRelocate in H.
  inv_bind H. rename a into frs, w0 into w3.
  inv_bind H. rename a into results, w0 into w4.
  inv_bind H. unfold ret in H. injection H as <- <-.
  exists p, w1, frs, w3, results, w4, w0.
  split; [done|]. split; [done|]. split.
  { destruct (p_outputDirAbsolute p); [done|].
    unfold ret in Hstep0. by injection Hstep0 as <- <-. }
  split; [done|].
  destruct (postRender (p_projType p)) as [hook|].
  - destruct a. rewrite <- Hstep1. unfold outputOf, outputPath. simpl.
    rewrite <- list_fmap_compose. done.
  - unfold ret in Hstep1. by injection Hstep1 as _ <-.
Qed.


Lemma emits_Ok {A} (P : Env → Event → Prop) (m : M A) w a w' :
  emits P m → m w = Ok a w' →
  env w' = env w ∧ ∃ l, trace w' = trace w ++ l ∧ Forall (P (env w)) l.
Proof. intros Hm Hrun. specialize (Hm w). by rewrite Hrun in Hm. Qed.

Lemma call_Ok {A} (e : Event) (c : Collab A) w a w' :
  call e c w = Ok a w' →
  ∃ m, c (env w) (fs w) = (inr a, m)
       ∧ w' = set_fs (λ _, m) (add_event e w).
Proof.
  unfold call. destruct (c (env w) (fs w)) as [[err|a'] m]; [done|].
  intros [= <- <-]. by exists m.
Qed.

Lemma call_env_Ok {A} (e : option string → Event) (c : Collab A) w a w' :
  call_env e c w = Ok a w' →
  ∃ m, c (env w) (fs w) = (inr a, m)
       ∧ w' = set_fs (λ _, m) (add_event (e (env w !! kQuartoProjectDir)) w).
Proof. unfold call_env. apply call_Ok. Qed.

Section StageEvents.

Context (P : Env → Event → Prop).

Section Relocation.

Hypothesis Hrel : ∀ E e, relocation e = true → P E e.

Lemma relocating_relocateRenderedFile projDir out st rf :
  emits P (relocateRenderedFile C projDir out st rf).
Proof.
  unfold relocateRenderedFile. destruct st as [keep results].
  emits_step; [emits_step|]. emits_step; [emits_step|].
  emits_step; [apply emits_keepFiles|].
  emits_step.
  { destruct (rf_supporting rf); [|emits_step].
    emits_step. unfold copyDir, moveDir.
    destruct a1; apply emits_relocateDir. }
  emits_step.
  { destruct (0 <? _)%nat; [|emits_step]. apply emits_call; intros ?; by apply Hrel. }
  emits_step; [|emits_step].
  destruct (negb _); [|emits_step].
  emits_step; [apply emits_resultFiles|emits_step].
Qed.

Lemma relocating_freezeLibDir context libDir formatLibDirs inc hidden :
  emits P (freezeLibDir C context libDir formatLibDirs inc hidden).
Proof.
  unfold freezeLibDir.
  emits_step; [apply emits_call; intros ?; by apply Hrel|].
  emits_step; apply emits_call; intros ?; by apply Hrel.
Qed.

Lemma relocating_copyResource context projDir out f :
  emits P (copyResource C context projDir out f).
Proof.
  unfold copyResource. emits_step; [emits_step|]. destruct a.
  - emits_step; [emits_step|]. destruct (Deno.isFile _); [|emits_step].
    apply emits_call; intros ?; by apply Hrel.
  - emits_step; [emits_step|]. destruct (negb _); [|emits_step].
    apply emits_log; intros ?; by apply Hrel.
Qed.

Lemma relocating_relocateOutputs context options projType projDir out libDir inc frs :
  emits P (relocateOutputs C context options projType projDir out libDir inc frs).
Proof.
  unfold relocateOutputs.
  emits_step; [emits_step; apply relocating_relocateRenderedFile|].
  destruct a as [keep results].
  emits_step.
  { destruct (truthy_str libDir); [|emits_step].
    emits_step; [emits_step|]. destruct a; [|emits_step].
    emits_step; [apply relocating_freezeLibDir|].
    emits_step; [emits_step|].
    emits_step; [|apply emits_relocateLibDir].
    destruct a0; [apply relocating_freezeLibDir|emits_step]. }
  emits_step; [|emits_step].
  emits_step. apply relocating_copyResource.
Qed.

End Relocation.

Section Preparation.

Hypothesis Hprep : ∀ E e, preparation e = true → P E e.

Lemma preparing_prepare context options files :
  emits P (prepare C context options files).
Proof.
  unfold prepare.
  set (projType := projectType C (project_setting kProjectType context)).
  emits_step; [emits_step|].
  emits_step.
  { destruct (alwaysExecuteFiles options files), files; try (by emits_step).
    emits_step. emits_step. apply emits_normalizeTarget. }
  emits_step.
  { destruct a0, (alwaysExecuteFiles options files),
      (incrementalRenderAll projType); try (by emits_step).
    emits_step; [apply emits_call; intros ?; by apply Hprep|].
    destruct a0; emits_step. }
  destruct a1 as [files' options'].
  emits_step; [apply emits_call; intros ?; by apply Hprep|].
  emits_step.
  { destruct (preRender projType); [|emits_step].
    apply emits_call_env. intros ?. by apply Hprep. }
  emits_step; [|emits_step].
  destruct (truthy_str (project_setting kProjectOutputDir context));
    simpl; emits_step.
Qed.

End Preparation.

End StageEvents.

(** The calls of a run that returns, in their order. *)
Lemma renderProject_shape context options files w result w' :
  renderProject C context options files w = Ok result w' →
  ∃ p w1 before after,
    prepare C context options files w = Ok p w1
    ∧ new_events w w1 before
    ∧ new_events w w'
        (before
         ++ CalledRenderFiles (p_files p) (p_options p)
              (alwaysExecuteFiles options files) (Some (dir context))
            :: after
         ++ match postRender (projectType C (project_setting kProjectType context)) with
            | Some _ => [CalledPostRender (incremental files)
                           (outputOf result <$> result_files result)
                           (Some (dir context))]
            | None => []
            end)
    ∧ Forall (λ e, preparation e = true) before
    ∧ Forall (λ e, relocation e = true) after
    ∧ (truthy_str (project_setting kProjectOutputDir context) = None → after = []).
Proof.
  intros (p & w1 & frs & w3 & results & w4 & w5 & Hprep & Hrender & Hreloc
          & -> & Hpost & ->)%renderProject_Ok.
  destruct (prepare_Ok _ _ _ _ _ _ _ Hprep)
    as (Htype & Hdir & Hinc & Halw & HoutDir & Hout & Hlib).
  destruct (emits_Ok _ _ _ _ _
              (preparing_prepare (λ _ e, preparation e = true)
                 (λ _ _ H, H) context options files) Hprep)
    as (Henv1 & before & Ht1 & Hbefore).
  apply call_env_Ok in Hrender as (m3 & _ & ->).
  assert (∃ after, trace w4
                   = trace w1 ++ [CalledRenderFiles (p_files p) (p_options p)
                        (alwaysExecuteFiles options files) (Some (dir context))]
                     ++ after
                   ∧ Forall (λ e, relocation e = true) after
                   ∧ (p_outputDirAbsolute p = None → after = []))
    as (after & Ht4 & Hafter & Hnone).
  { destruct (p_outputDirAbsolute p) as [out|].
    - destruct (emits_Ok _ _ _ _ _
                  (relocating_relocateOutputs (λ _ e, relocation e = true)
                     (λ _ _ H, H) context (p_options p) (p_projType p)
                     (p_projDir p) out (p_libDir p) (p_incremental p) frs) Hreloc)
        as (_ & after & Ht & Hafter).
      exists after. split; [|by split].
      rewrite Ht. simpl. rewrite Halw, Hdir, lookup_insert_eq.
      by rewrite <- app_assoc.
    - destruct Hreloc as [_ ->]. exists []. split; [|by split].
      simpl. by rewrite Halw, Hdir, lookup_insert_eq. }
  exists p, w1, before, after. split; [done|]. split; [done|].
  split; [|split; [done|split; [done|]]].
  - unfold new_events. rewrite <- Htype.
    destruct (postRender (p_projType p)) as [hook|].
    + apply call_env_Ok in Hpost as (m5 & _ & ->). simpl.
      assert (env w4 !! kQuartoProjectDir = Some (dir context)) as ->.
      { destruct (p_outputDirAbsolute p) as [out|].
        - destruct (emits_Ok _ _ _ _ _
                      (emits_relocateOutputs C (λ _ _, True) (λ _ _ _, I)
                         context (p_options p) (p_projType p)
                         (p_projDir p) out (p_libDir p) (p_incremental p) frs) Hreloc)
            as (-> & _). simpl. rewrite Hdir. apply lookup_insert_eq.
        - destruct Hreloc as [_ ->]. simpl. rewrite Hdir. apply lookup_insert_eq. }
      rewrite Ht4, Ht1, Hinc. simpl. by rewrite <- !app_assoc.
    + subst w5. simpl. rewrite Ht4, Ht1. simpl.
      by rewrite app_nil_r, <- !app_assoc.
  - intros Hno. apply Hnone. by rewrite Hout, Hno.
Qed.


Lemma normalizeTarget_run f w :
  normalizeTarget f w =
  match fs w !! renderTarget (cwd w) f with
  | Some _ => Ok (renderTarget (cwd w) f) w
  | None => Throw (JsError ("Render target does not exist: " +:+ f)) w
  end.
Proof.
  unfold normalizeTarget. rewrite bind_run. unfold Deno.cwd at 1.
  fold (renderTarget (cwd w) f). rewrite bind_run. unfold existsSync at 1.
  destruct (fs w !! renderTarget (cwd w) f) as [n|] eqn:E.
  - rewrite bool_decide_eq_true_2 by eauto. unfold Deno.realPathSync.
    by rewrite E.
  - rewrite bool_decide_eq_false_2; [done|]. by intros [? ?].
Qed.

Lemma mapM_normalizeTarget_Ok l w l' w' :
  mapM normalizeTarget l w = Ok l' w' →
  w' = w ∧ l' = renderTarget (cwd w) <$> l
  ∧ Forall (λ f, is_Some (fs w !! renderTarget (cwd w) f)) l.
Proof.
  revert l' w'. induction l as [|f l IH]; intros l' w' H; simpl in H.
  - unfold ret in H. by injection H as <- <-.
  - unfold bind in H. rewrite normalizeTarget_run in H.
    destruct (fs w !! renderTarget (cwd w) f) as [n|] eqn:E; [|done].
    destruct (mapM normalizeTarget l w) as [ys w2|] eqn:El; [|done].
    destruct (IH ys w2 eq_refl) as (-> & -> & Hall).
    unfold ret in H. injection H as <- <-.
    split; [done|]. split; [done|]. constructor; eauto.
Qed.

Lemma mapM_normalizeTarget_Throw before f after w :
  Forall (λ g, is_Some (fs w !! renderTarget (cwd w) g)) before →
  fs w !! renderTarget (cwd w) f = None →
  mapM normalizeTarget (before ++ f :: after) w
  = Throw (JsError ("Render target does not exist: " +:+ f)) w.
Proof.
  intros Hbefore Hf. induction Hbefore as [|g before [n Hg] _ IH]; simpl.
  - unfold bind. by rewrite normalizeTarget_run, Hf.
  - unfold bind at 1. rewrite normalizeTarget_run, Hg.
    unfold bind at 1. by rewrite IH.
Qed.

(** The options [renderProject] hands to the renderer for [n] files. *)
Lemma prepare_inv context options files w p w1 :
  prepare C context options files w = Ok p w1 →
  ∃ files1 files2 options2 w_b,
    match alwaysExecuteFiles options files, files with
    | Some _, Some l =>
        files1 = Some (renderTarget (cwd w) <$> l)
        ∧ Forall (λ f, is_Some (fs w !! renderTarget (cwd w) f)) l
    | _, _ => files1 = files
    end
    ∧ match files1, alwaysExecuteFiles options files,
            incrementalRenderAll
              (projectType C (project_setting kProjectType context)) with
      | Some l, Some _, Some hook =>
          ∃ all, call (CalledIncrementalRenderAll l) (hook context options l) w
                 = Ok all w_b
                 ∧ files2 = (if all : bool
                             then Some (files_input (context_files context))
                             else files1)
                 ∧ options2 = (if all : bool then set_useFreezer true options
                               else options)
      | _, _, _ => w_b = w ∧ files2 = files1 ∧ options2 = options
      end
    ∧ p_files p = default (files_input (context_files context)) files2
    ∧ useFreezer (p_options p) = useFreezer options2
    ∧ devServerReload (p_options p) = devServerReload options2
    ∧ flags (p_options p)
      = (let flags1 :=
           if bool_decide (flags options ≫= executeDir = None)
              && bool_decide (project_setting kProjectExecuteDir context
                              = Some "project")
           then let f := default no_flags (flags options) in
                Some (mkRenderFlags (Some (dir context)) (executeDaemon f)
                                    (flags_to f) (flags_quiet f))
           else flags options in
         match flags1 with
         | Some f =>
             if (1 <? length (p_files p))%nat
                && bool_decide (executeDaemon f = None)
             then Some (mkRenderFlags (executeDir f) (Some 0)
                                      (flags_to f) (flags_quiet f))
             else Some f
         | None => None
         end).
Proof.
  unfold prepare. intros H.
  set (projType := projectType C (project_setting kProjectType context)) in *.
  apply bind_Ok in H as (projDir & w0 & Hreal & H).
  unfold Deno.realPathSync in Hreal.
  destruct (fs w !! dir context); [|done]. injection Hreal as <- <-.
  apply bind_Ok in H as (files1 & w_a & Hnorm & H).
  apply bind_Ok in H as ([files2 options2] & w_b & Hquery & H).
  apply bind_Ok in H as (? & w_c & _ & H).
  apply bind_Ok in H as (? & w_d & _ & H).
  apply bind_Ok in H as (? & w_e & _ & H).
  unfold ret in H. injection H as <- <-.
  assert (w_a = w ∧
          match alwaysExecuteFiles options files, files with
          | Some _, Some l =>
              files1 = Some (renderTarget (cwd w) <$> l)
              ∧ Forall (λ f, is_Some (fs w !! renderTarget (cwd w) f)) l
          | _, _ => files1 = files
          end) as [-> Hfiles1].
  { destruct (alwaysExecuteFiles options files) as [always|], files as [l|];
      try (unfold ret in Hnorm; by injection Hnorm as <- <-).
    apply fmap_Ok in Hnorm as (l' & Hl & ->).
    by apply mapM_normalizeTarget_Ok in Hl as (-> & -> & ?). }
  assert (flags options2 = flags options) as Hfl.
  { destruct files1 as [l|], (alwaysExecuteFiles options files) as [always|],
      (incrementalRenderAll projType) as [hook|];
      try (unfold ret in Hquery; by injection Hquery as <- <- <-).
    apply bind_Ok in Hquery as (all & ? & _ & Hquery).
    destruct all; unfold ret in Hquery; by injection Hquery as <- <- <-. }
  exists files1, files2, options2, w_b. split; [done|]. split.
  { destruct files1 as [l|], (alwaysExecuteFiles options files) as [always|],
      (incrementalRenderAll projType) as [hook|];
      try (unfold ret in Hquery; by injection Hquery as <- <- <-).
    apply bind_Ok in Hquery as (all & ? & Hcall & Hquery). exists all.
    destruct all; unfold ret in Hquery; by injection Hquery as <- <- <-. }
  simpl. split; [done|]. rewrite Hfl. fold no_flags.
  destruct (bool_decide (flags options ≫= executeDir = None)
            && bool_decide (project_setting kProjectExecuteDir context
                            = Some "project")); simpl.
  - destruct (_ && _); simpl; done.
  - rewrite Hfl. destruct (flags options) as [f|]; simpl; [|done].
    destruct (_ && _); simpl; [done|]. by rewrite Hfl.
Qed.


(** The renderer's answer, entry by entry, in the result. *)
Lemma foldM_relocate_tracked projDir out rfs st w keep' results' w' :
  foldM (relocateRenderedFile C projDir out) st rfs w = Ok (keep', results') w' →
  ∃ new, results' = st.2 ++ new
         ∧ Forall2 (λ rf f, ∃ rs, f = tracked rf rs) rfs new.
Proof.
  revert st w. induction rfs as [|rf rfs IH]; intros [keep acc] w H; simpl in H.
  - unfold ret in H. injection H as <- <- <-. exists []. simpl.
    by rewrite app_nil_r.
  - change (bind ?m ?k) with (m ≫= k) in H.
    apply bind_Ok in H as ([keep1 acc1] & w1 & Hstep & H).
    apply relocateRenderedFile_Ok in Hstep as (rs & -> & _).
    apply IH in H as (new & -> & Hnew). simpl.
    exists (tracked rf rs :: new). rewrite <- app_assoc. split; [done|].
    constructor; [by exists rs|done].
Qed.

Lemma relocateOutputs_tracked context options projType projDir out libDir inc
    frs w results w' :
  relocateOutputs C context options projType projDir out libDir inc frs w
    = Ok results w' →
  Forall2 (λ rf f, ∃ rs, f = tracked rf rs) (frs_files frs) results.
Proof.
  unfold relocateOutputs. intros H.
  apply bind_Ok in H as ([keep results0] & w1 & Hfold & H).
  apply bind_Ok in H as (? & w2 & _ & H).
  apply bind_Ok in H as (? & w3 & _ & H).
  unfold ret in H. injection H as <- _.
  apply foldM_relocate_tracked in Hfold as (new & -> & Hnew). simpl.
  unfold filterOutputFiles.
  apply Forall2_fmap_r. eapply Forall2_impl; [exact Hnew|].
  intros rf f [rs ->]. by eexists.
Qed.


(** ** Every run, returning or not *)

Lemma staged_renderAndRelocate (P : Env → Event → Prop) context p :
  (∀ E e, relocation e = true → P E e) →
  (∀ E, P E (CalledRenderFiles (p_files p) (p_options p)
               (p_alwaysExecuteFiles p) (E !! kQuartoProjectDir))) →
  (∀ E outputs, P E (CalledPostRender (p_incremental p) outputs
                       (E !! kQuartoProjectDir))) →
  emits P (renderAndRelocate C context p).
Proof.
  intros Hrel Hrender Hpost. unfold renderAndRelocate.
  emits_step; [by apply emits_call_env|].
  emits_step.
  { destruct (p_outputDirAbsolute p); [by apply relocating_relocateOutputs|emits_step]. }
  emits_step; [|emits_step].
  destruct (postRender _); [|emits_step].
  apply emits_call_env. intros E. apply Hpost.
Qed.

Lemma renderProject_staged (Q : Event → Prop) context options files w :
  (∀ e, relocation e = true → Q e) →
  emits (λ _, Q) (prepare C context options files) →
  (∀ p w1, prepare C context options files w = Ok p w1 →
     Q (CalledRenderFiles (p_files p) (p_options p)
          (alwaysExecuteFiles options files) (Some (dir context)))
     ∧ ∀ outputs, Q (CalledPostRender (incremental files) outputs
                       (Some (dir context)))) →
  ∃ l, new_events w (final (renderProject C context options files w)) l
       ∧ Forall Q l.
Proof.
  intros Hrel Hprepare Hcalls. unfold new_events. rewrite renderProject_run.
  destruct (Hprepare w) as [_ (l1 & Ht1 & Hl1)].
  destruct (prepare C context options files w) as [p w1|e w1] eqn:Hprep;
    [|by exists l1].
  destruct (Hcalls p w1 eq_refl) as [Hrender Hpost].
  apply prepare_Ok in Hprep as (_ & Hdir & Hinc & Halw & _).
  rewrite try_finally_trace by done.
  destruct (staged_renderAndRelocate
              (λ E e, E !! kQuartoProjectDir = Some (dir context) → Q e)
              context p) with
    (w := set_env (insert kQuartoProjectDir (p_projDir p)) w1)
    as [_ (l2 & Ht2 & Hl2)].
  { intros E e He _. by apply Hrel. }
  { intros E HE. by rewrite Halw, HE. }
  { intros E outs HE. by rewrite Hinc, HE. }
  exists (l1 ++ l2). simpl in *. rewrite Ht2, Ht1, app_assoc. split; [done|].
  apply Forall_app. split; [done|].
  eapply Forall_impl; [exact Hl2|]. intros e He. apply He.
  rewrite Hdir. apply lookup_insert_eq.
Qed.

(** Without an always-execute set the preparation asks the project type
    nothing. *)
Lemma unforced_prepare (Q : Event → Prop) context options files :
  alwaysExecuteFiles options files = None →
  Q CalledEnsureGitignore → (∀ x, Q (CalledPreRender x)) →
  emits (λ _, Q) (prepare C context options files).
Proof.
  intros Hnone Hgit Hpre. unfold prepare. rewrite Hnone.
  set (projType := projectType C (project_setting kProjectType context)).
  emits_step; [emits_step|].
  emits_step; [emits_step|].
  emits_step.
  { destruct a0; emits_step. }
  destruct a1 as [files' options'].
  emits_step; [by apply emits_call|].
  emits_step.
  { destruct (preRender projType); [|emits_step]. by apply emits_call_env. }
  emits_step; [|emits_step].
  destruct (truthy_str (project_setting kProjectOutputDir context));
    simpl; emits_step.
Qed.


(** [.gitignore] is looked after in every preparation that gets
    through. *)
Lemma prepare_gitignore context options files w p w1 :
  prepare C context options files w = Ok p w1 →
  ∃ l0 l, trace w1 = trace w ++ l0 ++ CalledEnsureGitignore :: l.
Proof.
  unfold prepare. intros H.
  set (projType := projectType C (project_setting kProjectType context)) in *.
  apply bind_Ok in H as (projDir & w0 & Hreal & H).
  apply (emits_Ok (λ _ _, True)) in Hreal as (_ & la & Hta & _); [|emits_step].
  apply bind_Ok in H as (files1 & w_a & Hnorm & H).
  apply (emits_Ok (λ _ _, True)) in Hnorm as (_ & lb & Htb & _).
  2: { destruct (alwaysExecuteFiles options files), files; try (by emits_step).
       emits_step. emits_step. apply emits_normalizeTarget. }
  apply bind_Ok in H as ([files2 options2] & w_b & Hquery & H).
  apply (emits_Ok (λ _ _, True)) in Hquery as (_ & lc & Htc & _).
  2: { destruct files1, (alwaysExecuteFiles options files),
         (incrementalRenderAll projType); try (by emits_step).
       emits_step; [by apply emits_call|]. destruct a; emits_step. }
  apply bind_Ok in H as (? & w_c & Hgit & H).
  apply call_Ok in Hgit as (m & _ & ->).
  match type of H with
  | ?k _ = Ok _ _ =>
      apply (emits_Ok (λ _ _, True) k) in H as (_ & ld & Htd & _)
  end.
  2: { emits_step.
       { destruct (preRender projType); [|emits_step]. by apply emits_call_env. }
       emits_step; [|emits_step].
       destruct (truthy_str (project_setting kProjectOutputDir context));
         simpl; emits_step. }
  simpl in Htd. exists (la ++ lb ++ lc), ld.
  rewrite Htd, Htc, Htb, Hta. by rewrite <- !app_assoc.
Qed.

End Stages.

(* ================================================================== *)
(** * What a render shows its collaborators *)
(* ================================================================== *)

(** X1.  The order of the calls [renderProject] makes to [renderFiles],
    to [ensureGitignore], to the hooks [incrementalRenderAll],
    [preRender] and [postRender] of the project type, to
    [resolvePathGlobs], to [copyResourceFile] and to the three functions
    of the freezer, and of the warnings it logs.  In every run that
    returns, [renderFiles] is called exactly once; [ensureGitignore] is
    called before it, and so are [incrementalRenderAll] and [preRender]
    if they are called at all; the calls of [resolvePathGlobs], of the
    freezer and of [copyResourceFile] and the warnings come after it;
    and [postRender], if the project type has it, is called once and
    after all of these.  (The statement is about these calls, which are
    the ones the trace records.  [renderProject] also consults
    [pandocRenderer] and [formatLibDirs] of the project type, the first
    before [renderFiles] and the second during the relocation; here they
    are fields of the project type with a value and leave nothing in
    the trace.) *)
Theorem render_calls_in_order
    (C : RenderCollaborators) (context : ProjectContext)
    (options : RenderOptions) (files : option (list string))
    (w : World) (result : RenderResult) (w' : World) :
  renderProject C context options files w = Ok result w' →
  ∃ before rendered o always projectDirEnv after post,
    new_events w w'
      (before ++ CalledRenderFiles rendered o always projectDirEnv :: after ++ post)
    ∧ Forall (λ e, preparation e = true) before
    ∧ CalledEnsureGitignore ∈ before
    ∧ Forall (λ e, relocation e = true) after
    ∧ match postRender (projectType C (project_setting kProjectType context)) with
      | Some _ => ∃ isIncremental outputs projectDirEnv',
                    post = [CalledPostRender isIncremental outputs projectDirEnv']
      | None => post = []
      end.
Proof.
  intros Hrun.
  destruct (renderProject_shape C _ _ _ _ _ _ Hrun)
    as (p & w1 & before & after & Hprep & Hbefore1 & Hnew & Hbefore & Hafter & _).
  do 7 eexists. split; [exact Hnew|]. split; [done|]. split; [|split; [done|]].
  - destruct (prepare_gitignore C _ _ _ _ _ _ Hprep) as (l0 & l & Ht).
    rewrite Hbefore1 in Ht. apply app_inv_head in Ht as ->.
    apply elem_of_app. right. apply list_elem_of_here.
  - destruct (postRender _); eauto.
Qed.

Lemma render_calls_in_order_witness :
  ∃ before rendered o always projectDirEnv after post,
    new_events SampleRender.world
      (final (renderProject SampleRender.collaborators Sample.project
                SampleRender.options (Some ["a.qmd"]) SampleRender.world))
      (before ++ CalledRenderFiles rendered o always projectDirEnv :: after ++ post)
    ∧ Forall (λ e, preparation e = true) before
    ∧ CalledEnsureGitignore ∈ before
    ∧ Forall (λ e, relocation e = true) after
    ∧ match postRender (projectType SampleRender.collaborators
                          (project_setting kProjectType Sample.project)) with
      | Some _ => ∃ isIncremental outputs projectDirEnv',
                    post = [CalledPostRender isIncremental outputs projectDirEnv']
      | None => post = []
      end.
Proof.
  apply (render_calls_in_order SampleRender.collaborators Sample.project
           SampleRender.options (Some ["a.qmd"]) SampleRender.world
           SampleRender.result).
  vm_compute. reflexivity.
Defined.



(** X3.  A requested file that does not exist stops an incremental
    render before anything has happened.  The target of a requested
    file is the file itself when it is absolute, and otherwise the
    working directory joined with it, which puts it in normal form
    ([./a.qmd] is [a.qmd] of the working directory).  In a file system
    without symbolic links and with [useFreezer] unset: when the targets
    of the requested files up to [f] are absolute paths in normal form,
    those of the files before [f] are on disk and that of [f] is not,
    [renderProject] throws "Render target does not exist: " followed by
    [f] as it was requested, and the world is as it was: no
    collaborator has been called, nothing has been written. *)
Theorem missing_render_target_aborts
    (C : RenderCollaborators) (context : ProjectContext)
    (options : RenderOptions) (before : list string) (f : string)
    (after : list string) (w : World) :
  truthy_bool (useFreezer options) = false →
  is_Some (fs w !! dir context) →
  Forall (λ g, posix.tidy_abs (renderTarget (cwd w) g) = true
               ∧ is_Some (fs w !! renderTarget (cwd w) g)) before →
  posix.tidy_abs (renderTarget (cwd w) f) = true →
  fs w !! renderTarget (cwd w) f = None →
  renderProject C context options (Some (before ++ f :: after)) w
  = Throw (JsError ("Render target does not exist: " +:+ f)) w.
Proof.
  intros Hfreezer [n Hdir] Hbefore%Forall_and _ Hf.
  destruct Hbefore as [_ Hbefore].
  rewrite renderProject_run. unfold prepare.
  rewrite bind_run. unfold Deno.realPathSync at 1. rewrite Hdir.
  rewrite bind_run. unfold alwaysExecuteFiles. simpl. rewrite Hfreezer. simpl.
  unfold fmap, M_fmap. unfold bind at 1.
  by rewrite mapM_normalizeTarget_Throw.
Qed.

Lemma missing_render_target_aborts_witness :
  renderProject SampleRender.collaborators Sample.project SampleRender.options
    (Some (["./a.qmd"] ++ "sub/../missing.qmd" :: ["b.qmd"])) SampleRender.world
  = Throw (JsError ("Render target does not exist: " +:+ "sub/../missing.qmd"))
          SampleRender.world.
Proof.
  apply missing_render_target_aborts.
  - reflexivity.
  - vm_compute. eauto.
  - constructor; [|constructor]. vm_compute. eauto.
  - vm_compute. reflexivity.
  - vm_compute. reflexivity.
Defined.

(** A requested file with a [.] segment is the file it names. *)
Example dotted_target_is_rendered :
  returned (renderProject SampleRender.collaborators Sample.project
              SampleRender.options (Some ["./a.qmd"]) SampleRender.world)
  = Some SampleRender.result
  ∧ CalledRenderFiles ["/proj/a.qmd"] SampleRender.options (Some ["./a.qmd"])
      (Some "/proj")
    ∈ trace (final (renderProject SampleRender.collaborators Sample.project
                      SampleRender.options (Some ["./a.qmd"]) SampleRender.world)).
Proof.
  split; [vm_compute; reflexivity|].
  vm_compute. do 2 apply list_elem_of_further. apply list_elem_of_here.
Qed.

(** X4.  Without an always-execute set, that is when no [files] are
    given or [useFreezer] is set, [renderProject] never asks the
    project type whether to render everything, and the renderer gets
    the files as they were given (not normalised, not checked for
    existence), or all the inputs of the project when none were given,
    with [useFreezer] as the caller set it. *)
Theorem unforced_render_asks_nothing
    (C : RenderCollaborators) (context : ProjectContext)
    (options : RenderOptions) (files : option (list string)) (w : World) :
  alwaysExecuteFiles options files = None →
  ∀ l, new_events w (final (renderProject C context options files w)) l →
    (∀ asked, CalledIncrementalRenderAll asked ∉ l)
    ∧ (∀ rendered o always projectDirEnv,
         CalledRenderFiles rendered o always projectDirEnv ∈ l →
         rendered = default (files_input (context_files context)) files
         ∧ always = None
         ∧ useFreezer o = useFreezer options).
Proof.
  intros Hnone l Hl.
  destruct (renderProject_staged C
              (λ e, (∀ asked, e ≠ CalledIncrementalRenderAll asked)
                    ∧ ∀ rendered o always x,
                        e = CalledRenderFiles rendered o always x →
                        rendered = default (files_input (context_files context)) files
                        ∧ always = None
                        ∧ useFreezer o = useFreezer options)
              context options files w) as (l' & Hl' & Hall).
  - intros e He. by destruct e.
  - by apply unforced_prepare.
  - intros p w1 Hprep.
    destruct (prepare_inv C _ _ _ _ _ _ Hprep)
      as (files1 & files2 & options2 & w_b & Hnorm & Hquery & Hfiles & Hfreeze & _).
    rewrite Hnone in Hnorm, Hquery.
    assert (files1 = files) as -> by (by destruct files).
    assert (files2 = files ∧ options2 = options) as [-> ->].
    { destruct files; by destruct Hquery as (_ & -> & ->). }
    split; [|done]. split; [done|].
    intros ? ? ? ? [= <- <- <- _]. by rewrite Hnone.
  - rewrite (new_events_inj _ _ _ _ Hl Hl'). rewrite Forall_forall in Hall.
    split.
    + intros asked Hin. destruct (Hall _ Hin) as [Hne _]. by apply (Hne asked).
    + intros rendered o always e Hin. destruct (Hall _ Hin) as [_ H]. eauto.
Qed.

Lemma unforced_render_asks_nothing_witness :
  (∀ asked,
     CalledIncrementalRenderAll asked ∉ trace SampleVariants.frozen_run)
  ∧ (∀ rendered o always projectDirEnv,
       CalledRenderFiles rendered o always projectDirEnv
         ∈ trace SampleVariants.frozen_run →
       rendered = ["nowhere.qmd"] ∧ always = None
       ∧ useFreezer o = Some true).
Proof.
  apply (unforced_render_asks_nothing SampleRender.collaborators Sample.project
           (set_useFreezer true SampleRender.options) (Some ["nowhere.qmd"])
           SampleRender.world).
  - reflexivity.
  - by vm_compute.
Defined.

(** X5.  In an incremental render without [useFreezer] the project type
    is asked, with the targets of the requested files, whether
    everything has to be rendered.  If it says so, the renderer gets all
    the inputs of the project with [useFreezer] switched on; if not, it
    gets the targets and [useFreezer] as the caller set it.  Either way
    the always-execute set is the list as it was requested.  The target
    of a requested file is the file itself when it is absolute, and
    otherwise the working directory joined with it, in normal form; the
    statement is for a file system without symbolic links and for
    targets that are absolute paths in normal form, which are their own
    real paths. *)
Theorem project_type_can_widen_render
    (C : RenderCollaborators) (context : ProjectContext)
    (options : RenderOptions) (requested : list string) (w : World)
    (hook : ProjectContext → RenderOptions → list string → Collab bool)
    (all : bool) (m : FS) :
  truthy_bool (useFreezer options) = false →
  Forall (λ g, posix.tidy_abs (renderTarget (cwd w) g) = true) requested →
  incrementalRenderAll (projectType C (project_setting kProjectType context))
    = Some hook →
  hook context options (renderTarget (cwd w) <$> requested) (env w) (fs w)
    = (inr all, m) →
  ∀ l rendered o always projectDirEnv,
    new_events w (final (renderProject C context options (Some requested) w)) l →
    CalledRenderFiles rendered o always projectDirEnv ∈ l →
    rendered = (if all then files_input (context_files context)
                else renderTarget (cwd w) <$> requested)
    ∧ useFreezer o = (if all then Some true else useFreezer options)
    ∧ always = Some requested.
Proof.
  intros Hfreezer _ Hhook Hall l rendered o always e Hl Hin.
  assert (alwaysExecuteFiles options (Some requested) = Some requested) as Halw.
  { unfold alwaysExecuteFiles. simpl. by rewrite Hfreezer. }
  destruct (renderProject_staged C
              (λ e, ∀ rendered o always x,
                      e = CalledRenderFiles rendered o always x →
                      rendered = (if all then files_input (context_files context)
                                  else renderTarget (cwd w) <$> requested)
                      ∧ useFreezer o = (if all then Some true else useFreezer options)
                      ∧ always = Some requested)
              context options (Some requested) w) as (l' & Hl' & Hall').
  - intros e' He. by destruct e'.
  - apply preparing_prepare. intros _ e' He. by destruct e'.
  - intros p w1 Hprep.
    destruct (prepare_inv C _ _ _ _ _ _ Hprep)
      as (files1 & files2 & options2 & w_b & Hnorm & Hquery & Hfiles & Hfreeze & _).
    rewrite Halw in Hnorm, Hquery. destruct Hnorm as [-> _].
    rewrite Hhook in Hquery. destruct Hquery as (all' & Hcall & -> & ->).
    apply call_Ok in Hcall as (m' & Hcall & _).
    rewrite Hall in Hcall. injection Hcall as <- _.
    split; [|done]. intros ? ? ? ? [= <- <- <- _].
    rewrite Hfiles, Hfreeze, Halw. by destruct all.
  - rewrite (new_events_inj _ _ _ _ Hl Hl') in Hin. rewrite Forall_forall in Hall'.
    by apply (Hall' _ Hin rendered o always e).
Qed.

Lemma project_type_can_widen_render_witness :
  ["/proj/a.qmd"; "/proj/b.qmd"] = files_input (context_files Sample.project)
  ∧ Some true = Some true
  ∧ Some ["./a.qmd"] = Some ["./a.qmd"].
Proof.
  refine (project_type_can_widen_render SampleVariants.book_collaborators
            Sample.project SampleRender.options ["./a.qmd"] SampleRender.world
            (λ _ _ _, SampleRender.nothing true) true (fs SampleRender.world)
            _ _ _ _
            [CalledIncrementalRenderAll ["/proj/a.qmd"]; CalledEnsureGitignore;
             CalledPreRender None;
             CalledRenderFiles ["/proj/a.qmd"; "/proj/b.qmd"]
               (set_useFreezer true SampleRender.options)
               (Some ["./a.qmd"]) (Some "/proj");
             CalledCopyToProjectFreezer "libs" true true;
             CalledPruneProjectFreezerDir "libs" true;
             CalledPruneProjectFreezer true;
             CalledCopyResourceFile "/proj" "/proj/logo.png" "/proj/_site/logo.png";
             CalledPostRender true ["/proj/_site/a.html"; "/proj/_site/b.html"]
               (Some "/proj")]
            ["/proj/a.qmd"; "/proj/b.qmd"]
            (set_useFreezer true SampleRender.options)
            (Some ["./a.qmd"]) (Some "/proj") _ _).
  - reflexivity.
  - constructor; [|constructor]. vm_compute. reflexivity.
  - reflexivity.
  - reflexivity.
  - vm_compute. reflexivity.
  - do 3 apply list_elem_of_further. apply list_elem_of_here.
Defined.

(** X6.  The options the renderer gets differ from the caller's in two
    flags only.  [executeDir] becomes the project directory when the
    caller left it unset and the project asks for the execute directory
    ["project"]; this creates the flags if the caller passed none.
    [executeDaemon] becomes [0] when more than one file is rendered, the
    caller left it unset and there are flags by then; so a render of
    the whole project whose caller passed no flags, in a project that
    does not ask for the execute directory, hands on no flags at
    all. *)
Theorem execute_flags_for_renderer
    (C : RenderCollaborators) (context : ProjectContext)
    (options : RenderOptions) (files : option (list string)) (w : World)
    (l : list Event) (rendered : list string) (o : RenderOptions)
    (always : option (list string)) (projectDirEnv : option string) :
  new_events w (final (renderProject C context options files w)) l →
  CalledRenderFiles rendered o always projectDirEnv ∈ l →
  let inProject :=
    bool_decide (flags options ≫= executeDir = None)
    && bool_decide (project_setting kProjectExecuteDir context = Some "project") in
  (flags o ≫= executeDir)
  = (if inProject then Some (dir context) else flags options ≫= executeDir)
  ∧ (flags o = None ↔ flags options = None ∧ inProject = false)
  ∧ (∀ f, flags o = Some f →
       executeDaemon f
       = (if (1 <? length rendered)%nat
             && bool_decide (flags options ≫= executeDaemon = None)
          then Some 0 else flags options ≫= executeDaemon)
       ∧ flags_to f = flags options ≫= flags_to
       ∧ flags_quiet f = flags options ≫= flags_quiet).
Proof.
  intros Hl Hin inProject.
  destruct (renderProject_staged C
              (λ e, ∀ rendered o always x,
                      e = CalledRenderFiles rendered o always x →
                      flags o
                      = match (if inProject
                               then Some (mkRenderFlags (Some (dir context))
                                            (executeDaemon (default no_flags (flags options)))
                                            (flags_to (default no_flags (flags options)))
                                            (flags_quiet (default no_flags (flags options))))
                               else flags options) with
                        | Some f =>
                            if (1 <? length rendered)%nat
                               && bool_decide (executeDaemon f = None)
                            then Some (mkRenderFlags (executeDir f) (Some 0)
                                                     (flags_to f) (flags_quiet f))
                            else Some f
                        | None => None
                        end)
              context options files w) as (l' & Hl' & Hall).
  - intros e' He. by destruct e'.
  - apply preparing_prepare. intros _ e' He. by destruct e'.
  - intros p w1 Hprep.
    destruct (prepare_inv C _ _ _ _ _ _ Hprep)
      as (_ & _ & _ & _ & _ & _ & _ & _ & _ & Hflags).
    split; [|done]. by intros ? ? ? ? [= <- <- _ _].
  - rewrite (new_events_inj _ _ _ _ Hl Hl') in Hin. rewrite Forall_forall in Hall.
    specialize (Hall _ Hin rendered o always projectDirEnv eq_refl).
    rewrite Hall. clear Hall. unfold no_flags.
    destruct (flags options) as [f0|] eqn:Ef; simpl in *;
      destruct inProject eqn:Ein; simpl;
      try rewrite andb_true_r;
      repeat match goal with
             | |- context [if ?b then _ else _] => destruct b; simpl
             end;
      (split; [done|]);
      (split; [split; [done|by intros [? ?]]|]);
      first [by intros f [= <-]|by intros f [=]].
Qed.

(** X7.  In a project without an output directory (none configured, or
    the empty string) a render that returns has relocated nothing: no
    resource file was resolved or copied, the freezer was not touched,
    no warning was logged, and every entry of the result has an empty
    list of resource files. *)
Theorem no_output_dir_nothing_relocated
    (C : RenderCollaborators) (context : ProjectContext)
    (options : RenderOptions) (files : option (list string))
    (w : World) (result : RenderResult) (w' : World) :
  truthy_str (project_setting kProjectOutputDir context) = None →
  renderProject C context options files w = Ok result w' →
  (∀ l, new_events w w' l → Forall (λ e, relocation e = false) l)
  ∧ Forall (λ f, resourceFiles f = []) (result_files result).
Proof.
  intros Hno Hrun.
  destruct (renderProject_shape C _ _ _ _ _ _ Hrun)
    as (p & w1 & before & after & Hprep & _ & Hnew & Hbefore & _ & Hafter).
  rewrite (Hafter Hno) in Hnew. split.
  - intros l Hl. rewrite (new_events_inj _ _ _ _ Hl Hnew).
    apply Forall_app. split.
    + eapply Forall_impl; [exact Hbefore|]. intros e He. by destruct e.
    + constructor; [done|]. simpl. by destruct (postRender _); repeat constructor.
  - destruct (renderProject_Ok C _ _ _ _ _ _ Hrun)
      as (p' & w1' & frs & ? & results & ? & ? & Hprep' & _ & Hres & -> & _).
    rewrite Hprep in Hprep'. injection Hprep' as <- <-.
    apply prepare_Ok in Hprep as (_ & _ & _ & _ & _ & Hout & _).
    rewrite Hout, Hno in Hres. simpl in *. destruct Hres as [-> _].
    apply Forall_fmap. by apply Forall_true.
Qed.

(** X8.  The result of a render that returns follows the answer of the
    renderer in this run, that is the answer [renderFiles] gave to the
    files, options, always-execute set and renderer the preparation had
    settled, in the environment with [QUARTO_PROJECT_DIR] published and
    on the file system the preparation had left: the result has one
    entry for each rendered file of that answer, in the same order,
    with the same input, markdown, format, output file and supporting
    files; an error the renderer recorded is handed on in the result,
    not thrown; the base directory is the project directory and the
    output directory the configured one. *)
Theorem result_tracks_rendered_files
    (C : RenderCollaborators) (context : ProjectContext)
    (options : RenderOptions) (files : option (list string))
    (w : World) (result : RenderResult) (w' : World) :
  renderProject C context options files w = Ok result w' →
  ∃ p w1 frs m',
    prepare C context options files w = Ok p w1
    ∧ renderFiles C (p_files p) (p_options p) (p_alwaysExecuteFiles p)
        ((λ r, r (p_options p) context) <$> pandocRenderer (p_projType p))
        context (<[kQuartoProjectDir := p_projDir p]> (env w1)) (fs w1)
      = (inr frs, m')
    ∧ Forall2 (λ rf f, input f = rf_input rf ∧ markdown f = rf_markdown rf
                       ∧ format f = rf_format rf ∧ file f = rf_file rf
                       ∧ supporting f = rf_supporting rf)
              (frs_files frs) (result_files result)
    ∧ error result = frs_error frs
    ∧ baseDir result = dir context
    ∧ result_outputDir result = project_setting kProjectOutputDir context.
Proof.
  intros (p & w1 & frs & w3 & results & w4 & w5 & Hprep & Hrender & Hreloc
          & -> & _)%renderProject_Ok.
  pose proof Hprep as (_ & Hdir & _ & _ & HoutDir & _)%prepare_Ok.
  apply call_env_Ok in Hrender as (m' & Hrender & _).
  exists p, w1, frs, m'. split; [exact Hprep|]. split; [exact Hrender|]. simpl.
  split; [|by split].
  destruct (p_outputDirAbsolute p) as [out|].
  - apply relocateOutputs_tracked in Hreloc.
    eapply Forall2_impl; [exact Hreloc|]. by intros rf f [rs ->].
  - destruct Hreloc as [-> _]. apply Forall2_fmap_r, Forall_Forall2_diag.
    by apply Forall_true.
Qed.

Lemma execute_flags_for_renderer_witness :
  (flags SampleVariants.in_project_options ≫= executeDir) = Some "/proj"
  ∧ ∀ f, flags SampleVariants.in_project_options = Some f →
      executeDaemon f = Some 0.
Proof.
  destruct (execute_flags_for_renderer SampleRender.collaborators
              SampleVariants.in_project SampleRender.options None
              SampleRender.world
              [CalledEnsureGitignore; CalledPreRender None;
               CalledRenderFiles ["/proj/a.qmd"; "/proj/b.qmd"]
                 SampleVariants.in_project_options None (Some "/proj");
               CalledCopyToProjectFreezer "libs" true false;
               CalledPruneProjectFreezerDir "libs" true;
               CalledPruneProjectFreezer true;
               CalledCopyResourceFile "/proj" "/proj/logo.png"
                 "/proj/_site/logo.png";
               CalledPostRender false ["/proj/_site/a.html"; "/proj/_site/b.html"]
                 (Some "/proj")]
              ["/proj/a.qmd"; "/proj/b.qmd"]
              SampleVariants.in_project_options None (Some "/proj"))
    as (Hdir & _ & Hdaemon).
  - vm_compute. reflexivity.
  - do 2 apply list_elem_of_further. apply list_elem_of_here.
  - split; [exact Hdir|]. intros f Hf. by destruct (Hdaemon f Hf) as [-> _].
Defined.

Lemma no_output_dir_nothing_relocated_witness :
  Forall (λ f, resourceFiles f = []) (SampleVariants.both []).
Proof.
  refine (proj2 (no_output_dir_nothing_relocated SampleRender.collaborators
                   SampleVariants.flat SampleRender.options None
                   SampleRender.world SampleVariants.flat_result
                   (final (renderProject SampleRender.collaborators
                             SampleVariants.flat SampleRender.options None
                             SampleRender.world)) _ _)).
  - reflexivity.
  - vm_compute. reflexivity.
Defined.

Lemma result_tracks_rendered_files_witness :
  ∃ p w1 frs m',
    prepare SampleRender.collaborators Sample.project SampleRender.options
      None SampleRender.world = Ok p w1
    ∧ SampleRender.renderFiles (p_files p) (p_options p)
        (p_alwaysExecuteFiles p)
        ((λ r, r (p_options p) Sample.project) <$> pandocRenderer (p_projType p))
        Sample.project (<[kQuartoProjectDir := p_projDir p]> (env w1)) (fs w1)
      = (inr frs, m')
    ∧ Forall2 (λ rf f, input f = rf_input rf ∧ markdown f = rf_markdown rf
                       ∧ format f = rf_format rf ∧ file f = rf_file rf
                       ∧ supporting f = rf_supporting rf)
              (frs_files frs) (SampleVariants.both ["/proj/logo.png"])
    ∧ None = frs_error frs
    ∧ "/proj" = dir Sample.project
    ∧ Some "_site" = project_setting kProjectOutputDir Sample.project.
Proof.
  apply (result_tracks_rendered_files SampleRender.collaborators
           Sample.project SampleRender.options None SampleRender.world
           SampleVariants.full_result
           (final (renderProject SampleRender.collaborators Sample.project
                     SampleRender.options None SampleRender.world))).
  vm_compute. reflexivity.
Defined.

(* ================================================================== *)
(** * More about the index *)
(* ================================================================== *)

Section IndexMore.

Context (C : IndexCollaborators).

Lemma configFile_insert (m : FS) dir k n :
  k ≠ path.join dir "_quarto.yml" → k ≠ path.join dir "_quarto.yaml" →
  configFile (<[k := n]> m) dir = configFile m dir.
Proof.
  intros H1 H2. unfold configFile. simpl.
  rewrite !lookup_insert_ne by done. done.
Qed.

Lemma inputTargetIndex_cases project input w :
  (∃ engine, indexable C (fs w) project input engine
     ∧ ((∃ v, cached C (fs w) (dir project) input v ∧ JSON.truthy v = true
              ∧ inputTargetIndex C project input w = Ok (Some v) w)
        ∨ ((∀ v, cached C (fs w) (dir project) input v → JSON.truthy v = false)
           ∧ inputTargetIndex C project input w
             = indexInput C project input (path.join (dir project) input) engine w)))
  ∨ ((∀ engine, ¬ indexable C (fs w) project input engine)
     ∧ inputTargetIndex C project input w = Ok None w).
Proof.
  destruct (Tree.is_file (fs w !! path.join (dir project) input)) eqn:Hfile;
    [destruct (fileExecutionEngine C (path.join (dir project) input))
       as [engine|] eqn:Heng|].
  - left. exists engine. assert (indexable C (fs w) project input engine) as Hi by done.
    split; [done|].
    destruct (readInputTargetIndex_total C (dir project) input w) as [r Hr].
    { destruct (fs w !! _); [eauto|done]. }
    destruct r as [v|].
    + apply readInputTargetIndex_Some in Hr as [_ Hv].
      destruct (JSON.truthy v) eqn:Ht.
      * left. exists v. split; [done|]. split; [done|].
        by eapply inputTargetIndex_reuse.
      * right. split; [|apply inputTargetIndex_regenerate; [done|]];
          intros v' Hv'; destruct Hv as (x & i & d & Hx & _ & _ & _ & Hp);
          destruct Hv' as (x' & i' & d' & Hx' & _ & _ & _ & Hp'); congruence.
    + right.
      assert (∀ v, ¬ cached C (fs w) (dir project) input v) as Hnc.
      { intros v Hv.
        assert (readInputTargetIndex C (dir project) input w = Ok (Some v) w) as Hr'
          by (by apply readInputTargetIndex_Some). congruence. }
      split; [|apply inputTargetIndex_regenerate; [done|]];
        intros v Hv; by destruct (Hnc v).
  - right. assert (∀ engine, ¬ indexable C (fs w) project input engine) as Hn.
    { intros engine [_ ?]. congruence. }
    split; [done|]. by apply inputTargetIndex_not_indexable.
  - right. assert (∀ engine, ¬ indexable C (fs w) project input engine) as Hn.
    { intros engine [? _]. congruence. }
    split; [done|]. by apply inputTargetIndex_not_indexable.
Qed.




(** X11.  An entry [inputTargetIndex] has answered is answered again by
    the next call, from the cache.  If the index file is none of the
    files its time stamp is compared with, and the time stamp a write
    gets is not older than the reported time stamps of the input and of
    the project configuration file, then after a call that returned an
    entry a second call returns the same entry and leaves the world as
    the first call left it: it asks no collaborator and writes
    nothing. *)
Theorem second_lookup_hits_cache
    (project : ProjectContext) (input : string) (w : World)
    (now inputMod : Z) (v : JSON.Value) (w' : World) :
  apart C project input →
  clock w = Some now →
  mtime_at (fs w) (path.join (dir project) input) = Some (Some inputMod) →
  inputMod ≤ now →
  (∀ f projMod, configFile (fs w) (dir project) = Some f →
     mtime_at (fs w) f = Some (Some projMod) → projMod ≤ now) →
  inputTargetIndex C project input w = Ok (Some v) w' →
  inputTargetIndex C project input w' = Ok (Some v) w'.
Proof.
  intros (Hin & Hyml & Hyaml) Hclock Hmod Hle Hcfg Hrun.
  destruct (inputTargetIndex_cases project input w)
    as [(engine & Hi & [(v' & _ & _ & Hr)|[_ Hr]])|[Hn Hr]];
    rewrite Hr in Hrun; [congruence| |done].
  rewrite indexInput_cases in Hrun. cbv zeta in Hrun.
  destruct (renderFormats C _ _ _ _) as [|formats]; [done|].
  destruct (partitionedMarkdown engine _ _) as [|markdown]; [done|].
  set (indexFile := inputTargetIndexFile C (dir project) input) in *.
  set (entry := indexEntry C formats markdown) in *.
  assert (v = entry ∧
          w' = set_fs (insert indexFile (File (clock w) (JSON.stringify entry)))
                 (add_event (CalledPartitionedMarkdown (path.join (dir project) input))
                    (add_event (CalledRenderFormats (path.join (dir project) input)) w)))
    as [-> ->].
  { destruct (fs w !! indexFile) as [[]|]; [|done|]; by injection Hrun as <- <-. }
  destruct Hi as [Hfile Heng].
  apply (inputTargetIndex_reuse C project input _ engine entry).
  - split; [|done]. simpl. by rewrite lookup_insert_ne.
  - exists now, inputMod, (JSON.stringify entry). simpl. fold indexFile.
    rewrite lookup_insert_eq, Hclock. split; [done|].
    unfold mtime_at in *. rewrite lookup_insert_ne by done.
    split; [done|]. split; [done|]. split; [|done].
    intros f projMod Hf Hm. rewrite configFile_insert in Hf by done.
    assert (f ≠ indexFile) as Hne.
    { apply find_some in Hf as [Hf _]. simpl in Hf.
      destruct Hf as [<-|[<-|[]]]; done. }
    rewrite lookup_insert_ne in Hm by done. by apply (Hcfg f).
  - done.
Qed.

End IndexMore.

Lemma second_lookup_hits_cache_witness :
  inputTargetIndex Sample.index_collaborators Sample.project "a.qmd"
    (SampleWorlds.regenerated SampleWorlds.stale)
  = Ok (Some Sample.entry) (SampleWorlds.regenerated SampleWorlds.stale).
Proof.
  apply (second_lookup_hits_cache Sample.index_collaborators Sample.project
           "a.qmd" SampleWorlds.stale 200 150).
  - repeat split; vm_compute; discriminate.
  - reflexivity.
  - vm_compute. reflexivity.
  - lia.
  - intros f projMod Hf Hm. vm_compute in Hf. injection Hf as <-.
    vm_compute in Hm. injection Hm as <-. lia.
  - vm_compute. reflexivity.
Defined.


(* ================================================================== *)
(** * Project files and directories *)
(* ================================================================== *)

(** X12.  [projectConfigFile] and [projectVarsFile] never throw and
    leave the world alone.  Each answers the [.yml] file of its pair
    when that is on disk, whether or not the [.yaml] file is there too;
    the [.yaml] file when only that one is on disk; and [undefined] when
    neither is. *)
Theorem yml_is_preferred_to_yaml (dir : string) (w : World) :
  projectConfigFile dir w
  = Ok (preferred (fs w) (path.join dir "_quarto.yml")
                  (path.join dir "_quarto.yaml")) w
  ∧ projectVarsFile dir w
    = Ok (preferred (fs w) (path.join dir "_variables.yml")
                    (path.join dir "_variables.yaml")) w.
Proof.
  assert (∀ yml yaml,
            find_existing ((λ file, path.join dir file) <$> [yml; yaml]) w
            = Ok (preferred (fs w) (path.join dir yml) (path.join dir yaml)) w)
    as H.
  { intros yml yaml. rewrite find_existing_run. f_equal. unfold preferred. simpl.
    destruct (fs w !! path.join dir yml) as [n|] eqn:E1.
    { by rewrite bool_decide_eq_true_2 by eauto. }
    rewrite (bool_decide_eq_false_2 (is_Some None)) by (by intros [? ?]).
    destruct (fs w !! path.join dir yaml) as [n|] eqn:E2.
    { by rewrite bool_decide_eq_true_2 by eauto. }
    by rewrite bool_decide_eq_false_2 by (by intros [? ?]). }
  split; apply H.
Qed.

Lemma projectOutputDir_run (context : ProjectContext) (w : World) :
  projectOutputDir context w
  = Ok (match truthy_str (project_setting kProjectOutputDir context) with
        | Some configured => posix.join [dir context; configured]
        | None => dir context
        end) w.
Proof.
  unfold projectOutputDir. cbv zeta. rewrite bind_run. unfold existsSync at 1.
  case_bool_decide as Hex; [|done].
  unfold Deno.realPathSync. by destruct Hex as [n ->].
Qed.

(** X13.  [projectOutputDir] never throws, whether or not the output
    directory has been created yet, and leaves the world alone.  In a
    file system without symbolic links and for a project directory that
    is an absolute path in normal form, it answers the project
    directory itself when no output directory is configured or the
    configured one is the empty string, and otherwise the project
    directory joined with the configured one, in normal form: a plain
    relative path is appended, and [..] leads out of the project
    directory.  This is for a configured directory whose join with the
    project directory neither ends in a separator nor is the root;
    the answer is then an absolute path in normal form, which is its
    own real path. *)
Theorem projectOutputDir_is_total (context : ProjectContext) (w : World) :
  posix.tidy_abs (dir context) = true →
  (∀ configured, project_setting kProjectOutputDir context = Some configured →
     configured ≠ "" →
     posix.tidy_abs (posix.join [dir context; configured]) = true) →
  ∃ outputDir,
    projectOutputDir context w = Ok outputDir w
    ∧ posix.tidy_abs outputDir = true
    ∧ (∀ configured, project_setting kProjectOutputDir context = Some configured →
         configured ≠ "" → outputDir = posix.join [dir context; configured])
    ∧ (∀ configured, project_setting kProjectOutputDir context = Some configured →
         posix.tidy configured = true →
         outputDir = dir context +:+ "/" +:+ configured)
    ∧ (project_setting kProjectOutputDir context = None
       ∨ project_setting kProjectOutputDir context = Some "" →
       outputDir = dir context).
Proof.
  intros Hdir Hjoin. eexists. split; [apply projectOutputDir_run|].
  split; [|split; [|split]].
  - destruct (project_setting kProjectOutputDir context) as [[|c o]|]; simpl;
      [done| |done]. by apply Hjoin.
  - intros configured -> Hne. by destruct configured.
  - intros configured -> Ht. rewrite <- posix_join_tidy by done.
    destruct configured; [|done]. by apply tidy_nonempty in Ht.
  - by intros [->| ->].
Qed.

Lemma projectOutputDir_is_total_witness :
  (∃ outputDir,
     projectOutputDir Sample.project SampleRender.world
     = Ok outputDir SampleRender.world
     ∧ outputDir = "/proj" +:+ "/" +:+ "_site")
  ∧ ∃ outputDir,
      projectOutputDir SampleVariants.outside SampleRender.world
      = Ok outputDir SampleRender.world
      ∧ outputDir = posix.join ["/proj"; "../docs"]
      ∧ outputDir = "/docs".
Proof.
  split.
  - destruct (projectOutputDir_is_total Sample.project SampleRender.world)
      as (outputDir & Hrun & _ & _ & Hplain & _).
    + vm_compute. reflexivity.
    + intros configured [= <-] _. vm_compute. reflexivity.
    + exists outputDir. split; [exact Hrun|]. apply Hplain; [reflexivity|].
      vm_compute. reflexivity.
  - destruct (projectOutputDir_is_total SampleVariants.outside SampleRender.world)
      as (outputDir & Hrun & _ & Hjoin & _).
    + vm_compute. reflexivity.
    + intros configured [= <-] _. vm_compute. reflexivity.
    + exists outputDir. split; [exact Hrun|].
      pose proof (Hjoin "../docs" eq_refl ltac:(discriminate)) as ->.
      split; [reflexivity|]. vm_compute. reflexivity.
Defined.

Lemma path_segments_go_app cur p rest :
  path.segments_go cur (p +:+ String "/" rest)
  = path.segments_go cur p ++ path.segments_go "" rest.
Proof.
  revert cur. induction p as [|c p IH]; intros cur.
  - rewrite Str_app_nil_l. simpl. by destruct (decide ("/"%char = "/"%char)).
  - rewrite Str_app_cons. simpl. case_decide; [|apply IH].
    by rewrite IH.
Qed.

Lemma path_segments_app p rest :
  path.segments (p +:+ "/" +:+ rest) = path.segments p ++ path.segments rest.
Proof.
  unfold path.segments.
  change ("/" +:+ rest) with (String "/" rest).
  by rewrite path_segments_go_app, filter_app.
Qed.

Lemma path_drop_common_app a b : path.drop_common (a ++ b) a = (b, []).
Proof.
  induction a as [|x a IH]; simpl; [by destruct b|]. by rewrite decide_True.
Qed.

Lemma path_relative_up p sub :
  path.relative (p +:+ "/" +:+ sub) p
  = path.unsegments (replicate (length (path.segments sub)) "..").
Proof.
  unfold path.relative.
  assert (path.rel (p +:+ "/" +:+ sub) p = None) as ->.
  { unfold path.rel. destruct (Str.strip _ _) as [r|] eqn:E; [|done].
    apply Str_strip_Some in E. apply (f_equal String.length) in E.
    rewrite !Str_length_app in E. simpl in E. lia. }
  rewrite path_segments_app, path_drop_common_app, app_nil_r.
  f_equal. induction (path.segments sub); simpl; [done|]. by f_equal.
Qed.

Lemma projectOffset_run pathWithForwardSlashes context input w :
  projectOffset pathWithForwardSlashes context input w =
  match fs w !! dir context, fs w !! path.dirname input with
  | None, _ => Throw (NotFound (dir context)) w
  | Some _, None => Throw (NotFound (path.dirname input)) w
  | Some _, Some _ =>
      Ok (pathWithForwardSlashes
            (if Str.is_empty (path.relative (path.dirname input) (dir context))
             then "."
             else path.relative (path.dirname input) (dir context))) w
  end.
Proof.
  unfold projectOffset. rewrite bind_run. unfold Deno.realPathSync at 1.
  destruct (fs w !! dir context); [|done].
  rewrite bind_run. unfold Deno.realPathSync.
  by destruct (fs w !! path.dirname input).
Qed.

Lemma path_unsegments_nonempty x l : Str.is_empty (path.unsegments (x :: l)) = false
  ∨ x = "".
Proof.
  destruct x as [|c x]; [by right|]. left. simpl.
  assert (∀ l' c' acc', Str.is_empty
            (fold_left (λ acc y : string, acc +:+ "/" +:+ y) l' (String c' acc'))
          = false) as H.
  { induction l' as [|y l' IH]; intros c' acc'; simpl; [done|].
    rewrite Str_app_cons. apply IH. }
  apply H.
Qed.

(** X14.  [projectOffset] answers the way from the directory of an
    input up to the project directory: ["."] for an input that lies in
    the project directory itself, and one [".."] for each segment the
    directory of the input lies below it, joined by ["/"]; the answer
    goes through [pathWithForwardSlashes].  It throws when the project
    directory or the directory of the input is not on disk.  This is
    for a file system without symbolic links, a project directory and
    an input that are absolute paths in normal form, and an input that
    does not lie in the root directory: such a directory, when it is on
    disk, is its own real path. *)
Theorem projectOffset_climbs_to_project
    (pathWithForwardSlashes : string → string)
    (context : ProjectContext) (input : string) (w : World) :
  posix.tidy_abs (dir context) = true →
  posix.tidy_abs input = true →
  posix.tidy_abs (path.dirname input) = true →
  (fs w !! dir context = None →
   projectOffset pathWithForwardSlashes context input w
   = Throw (NotFound (dir context)) w)
  ∧ (is_Some (fs w !! dir context) → fs w !! path.dirname input = None →
     projectOffset pathWithForwardSlashes context input w
     = Throw (NotFound (path.dirname input)) w)
  ∧ (is_Some (fs w !! dir context) → path.dirname input = dir context →
     projectOffset pathWithForwardSlashes context input w
     = Ok (pathWithForwardSlashes ".") w)
  ∧ (∀ sub, is_Some (fs w !! path.dirname input) →
       is_Some (fs w !! dir context) →
       path.dirname input = dir context +:+ "/" +:+ sub →
       projectOffset pathWithForwardSlashes context input w
       = Ok (pathWithForwardSlashes (ups (length (path.segments sub)))) w).
Proof.
  intros _ _ _.
  rewrite projectOffset_run. split; [by intros ->|]. split; [|split].
  - by intros [n ->] ->.
  - intros [n Hd] Hin. rewrite Hin, Hd. unfold path.relative.
    by rewrite path_rel_self.
  - intros sub [n' Hin] [n Hd] Hsub. rewrite Hd, Hin. do 2 f_equal.
    rewrite Hsub, path_relative_up. unfold ups.
    destruct (path.segments sub) as [|x l]; [done|].
    change (replicate (length (x :: l)) "..")
      with (".." :: replicate (length l) "..").
    by destruct (path_unsegments_nonempty ".." (replicate (length l) ".."))
      as [->|?].
Qed.

Lemma projectOffset_climbs_to_project_witness :
  projectOffset id Sample.project "/proj/a_files/figure.png"
    (set_fs (SampleRender.write_all (SampleRender.produced "a")) SampleRender.world)
  = Ok ".." (set_fs (SampleRender.write_all (SampleRender.produced "a"))
                    SampleRender.world).
Proof.
  refine (proj2 (proj2 (proj2 (projectOffset_climbs_to_project id Sample.project
           "/proj/a_files/figure.png"
           (set_fs (SampleRender.write_all (SampleRender.produced "a"))
                   SampleRender.world) _ _ _))) "a_files" _ _ _).
  - vm_compute. reflexivity.
  - vm_compute. reflexivity.
  - vm_compute. reflexivity.
  - vm_compute. eauto.
  - vm_compute. eauto.
  - vm_compute. reflexivity.
Defined.

(* ================================================================== *)
(** * Targets of references and outputs *)
(* ================================================================== *)

Lemma someM_true {A} (p : A → M bool) l w w' :
  someM p l w = Ok true w' → ∃ x w1 w2, x ∈ l ∧ p x w1 = Ok true w2.
Proof.
  revert w. induction l as [|x l IH]; intros w H; simpl in H; [done|].
  apply bind_Ok in H as (b & w1 & Hx & H). destruct b.
  - exists x, w, w1. split; [apply list_elem_of_here|done].
  - destruct (IH _ H) as (y & wa & wb & Hy & Hp).
    exists y, wa, wb. split; [by apply list_elem_of_further|done].
Qed.

Lemma pandocSetting_Ok key format w declared w' :
  pandocSetting key format w = Ok declared w' →
  w' = w ∧ declared = prop key (JSON.get "pandoc" format).
Proof.
  unfold pandocSetting.
  destruct format; try done;
    destruct (JSON.get "pandoc" _) as [[]|] eqn:E; try done;
    unfold ret; intros [= <- <-]; done.
Qed.

Lemma pathOperand_Ok v w s w' :
  pathOperand v w = Ok s w' → w' = w ∧ v = Some (JSON.Text s).
Proof.
  unfold pathOperand. destruct v as [[]|]; try done.
  unfold ret. by intros [= <- <-].
Qed.

Lemma objectValues_Ok T index w formats w' format o :
  objectValues (prop "formats" (Some index)) w = Ok formats w' →
  format ∈ formats →
  prop (kOutputFile T) (JSON.get "pandoc" format) = Some (JSON.Text o) →
  o ≠ "" →
  o ∈ declaredOutputs T index.
Proof.
  unfold declaredOutputs, objectValues. simpl. intros H Hin Hdecl Ho.
  apply list_elem_of_omap. exists format. rewrite Hdecl.
  split; [|by destruct o].
  destruct (JSON.get "formats" index) as [[]|]; try done;
    unfold ret in H; injection H as <- <-; simpl; try done;
    try (by apply elem_of_nil in Hin).
  apply list_elem_of_fmap in Hin as (c & -> & _). simpl in Hdecl. done.
Qed.

Lemma objectValues_Ok_world v w formats w' :
  objectValues v w = Ok formats w' → w' = w.
Proof.
  unfold objectValues. destruct v as [[]|]; try done;
    unfold ret; by intros [= _ <-].
Qed.

Section TargetFacts.

Context (C : IndexCollaborators) (T : TargetCollaborators).

Lemma hasOutput_Ok outputDir output inputRelative format w b w' :
  hasOutput T outputDir output inputRelative format w = Ok b w' →
  w' = w
  ∧ (b = true →
     ∃ o, prop (kOutputFile T) (JSON.get "pandoc" format) = Some (JSON.Text o)
          ∧ o ≠ ""
          ∧ output = posix.join [outputDir; path.dirname inputRelative; o]).
Proof.
  unfold hasOutput. intros H.
  apply bind_Ok in H as (declared & w1 & Hd & H).
  apply pandocSetting_Ok in Hd as [-> ->].
  destruct (truthy_opt _) eqn:Ht.
  - apply bind_Ok in H as (o & w2 & Ho & H).
    apply pathOperand_Ok in Ho as [-> Ho].
    unfold ret in H. injection H as <- <-. split; [done|].
    intros Hb. apply bool_decide_eq_true in Hb.
    exists o. split; [done|]. split; [|done].
    rewrite Ho in Ht. simpl in Ht. by destruct o.
  - unfold ret in H. by injection H as <- <-.
Qed.

Lemma someM_hasOutput outputDir output inputRelative formats w b w' :
  someM (hasOutput T outputDir output inputRelative) formats w = Ok b w' →
  w' = w
  ∧ (b = true →
     ∃ format o,
       format ∈ formats
       ∧ prop (kOutputFile T) (JSON.get "pandoc" format) = Some (JSON.Text o)
       ∧ o ≠ ""
       ∧ output = posix.join [outputDir; path.dirname inputRelative; o]).
Proof.
  revert b. induction formats as [|format formats IH]; intros b H; simpl in H.
  - unfold ret in H. by injection H as <- <-.
  - apply bind_Ok in H as (b1 & w1 & Hx & H).
    apply hasOutput_Ok in Hx as [-> Hx]. destruct b1.
    + unfold ret in H. injection H as <- <-. split; [done|]. intros _.
      destruct (Hx eq_refl) as (o & ? & ? & ?).
      exists format, o. split; [apply list_elem_of_here|done].
    + destruct (IH _ H) as [-> Hrest]. split; [done|]. intros Hb.
      destruct (Hrest Hb) as (f & o & Hin & ?).
      exists f, o. split; [by apply list_elem_of_further|done].
Qed.

(** The input [findInputFile] answers, with the index entry the run
    found for it. *)
Lemma findInputFile_Some project outputDir output files w file w' :
  findInputFile C T project outputDir output files w = Ok (Some file) w' →
  ∃ before after index o,
    files = before ++ file :: after
    ∧ inputTargetIndex C project (path.relative (dir project) file)
        (final (indexLookups C project before w))
      = Ok (Some index) w'
    ∧ o ∈ declaredOutputs T index
    ∧ output
      = posix.join [outputDir;
                    path.dirname (path.relative (dir project) file); o].
Proof.
  revert w. induction files as [|f files IH]; intros w H; simpl in H; [done|].
  apply bind_Ok in H as (index & w1 & Hindex & H).
  apply bind_Ok in H as (found & w2 & Hfound & H).
  assert (w2 = w1 ∧
          (found = true →
           ∃ i o, index = Some i ∧ o ∈ declaredOutputs T i
                  ∧ output
                    = posix.join [outputDir;
                                  path.dirname (path.relative (dir project) f); o]))
    as [-> Hf].
  { destruct index as [index|]; simpl in Hfound.
    - destruct (JSON.truthy index).
      + apply bind_Ok in Hfound as (formats & w3 & Hformats & Hsome).
        pose proof (objectValues_Ok_world _ _ _ _ Hformats) as ->.
        apply someM_hasOutput in Hsome as [-> Hsome]. split; [done|].
        intros Hb. destruct (Hsome Hb) as (format & o & Hin & Hdecl & Ho & Hout).
        exists index, o. split; [done|]. split; [|done].
        by eapply objectValues_Ok.
      + unfold ret in Hfound. by injection Hfound as <- <-.
    - unfold ret in Hfound. by injection Hfound as <- <-. }
  destruct found.
  - unfold ret in H. injection H as <- <-.
    destruct (Hf eq_refl) as (i & o & -> & Ho & Hout).
    exists [], files, i, o. done.
  - destruct (IH _ H) as (before & after & i & o & -> & Hidx & Ho & Hout).
    exists (f :: before), after, i, o. split; [done|]. split; [|done].
    unfold indexLookups in *. cbn [forEach]. unfold bind at 1.
    rewrite bind_run, Hindex. exact Hidx.
Qed.

(** X15.  An input [inputFileForOutputFile] answers is one of the
    inputs of the project, and one whose index entry, as
    [inputTargetIndex] answers it in this run (after the lookups for
    the inputs before it), has a format that declares an output file
    which, joined with the output directory and the directory of the
    input, is the output asked for joined with the output directory,
    both in normal form (so [./a.html] asks for [a.html]).  The call
    leaves the world as that last lookup left it.  An input whose
    formats declare no output file is never answered, whatever the name
    of the output.  This is for a file system without symbolic links
    and a project whose directory and output directory are absolute
    paths in normal form, which are their own real paths. *)
Theorem answered_input_declares_the_output
    (project : ProjectContext) (output : string) (w : World)
    (file : string) (w' : World) :
  posix.tidy_abs (dir project) = true →
  (∀ configured, project_setting kProjectOutputDir project = Some configured →
     configured ≠ "" →
     posix.tidy_abs (posix.join [dir project; configured]) = true) →
  inputFileForOutputFile C T project output w = Ok (Some file) w' →
  ∃ outputDir before after index o,
    projectOutputDir project w = Ok outputDir w
    ∧ files_input (context_files project) = before ++ file :: after
    ∧ inputTargetIndex C project (path.relative (dir project) file)
        (final (indexLookups C project before w))
      = Ok (Some index) w'
    ∧ o ∈ declaredOutputs T index
    ∧ posix.join [outputDir; output]
      = posix.join [outputDir;
                    path.dirname (path.relative (dir project) file); o].
Proof.
  unfold inputFileForOutputFile. intros _ _ H.
  apply bind_Ok in H as (outputDir & w0 & Hdir & H).
  pose proof Hdir as Hdir'.
  rewrite projectOutputDir_run in Hdir'. injection Hdir' as _ <-.
  apply findInputFile_Some in H
    as (before & after & index & o & Hfiles & Hidx & Ho & Hout).
  by exists outputDir, before, after, index, o.
Qed.




End TargetFacts.

Lemma answered_input_declares_the_output_witness :
  ∃ outputDir before after index o,
    projectOutputDir Sample.project SampleRender.world
    = Ok outputDir SampleRender.world
    ∧ files_input (context_files Sample.project) = before ++ "/proj/a.qmd" :: after
    ∧ inputTargetIndex SampleTargets.index_collaborators Sample.project
        (path.relative (dir Sample.project) "/proj/a.qmd")
        (final (indexLookups SampleTargets.index_collaborators Sample.project
                  before SampleRender.world))
      = Ok (Some index)
           (final (inputFileForOutputFile SampleTargets.index_collaborators
                     SampleTargets.targets Sample.project "./a.html"
                     SampleRender.world))
    ∧ o ∈ declaredOutputs SampleTargets.targets index
    ∧ posix.join [outputDir; "./a.html"]
      = posix.join [outputDir;
                    path.dirname (path.relative (dir Sample.project)
                                    "/proj/a.qmd"); o].
Proof.
  apply (answered_input_declares_the_output SampleTargets.index_collaborators
           SampleTargets.targets Sample.project "./a.html" SampleRender.world
           "/proj/a.qmd"
           (final (inputFileForOutputFile SampleTargets.index_collaborators
                     SampleTargets.targets Sample.project "./a.html"
                     SampleRender.world))).
  - vm_compute. reflexivity.
  - intros configured [= <-] _. vm_compute. reflexivity.
  - vm_compute. reflexivity.
Defined.

